(** * Galton board on the BitDogLab (RP2040 + SSD1306): model and properties

    Shallow embedding of [src/lab-01-galton-board.c].

    - C [int] values are integers in [Z].  Signed overflow is undefined in C
      and none of the quantities below comes near the 32-bit range, so no
      wrap-around is written.
    - C [float] values are IEEE-754 binary32 numbers.  A finite binary32 value
      is a rational, and every arithmetic operation is the exact operation
      followed by rounding to nearest, ties to even, on a 24-bit significand
      (module [F32]).  Infinities and NaN are not represented: the program
      divides only by [BASE_PINS - 1], [NUM_BINS - 1] and [step_y].
    - The static arrays are lists, read with [!!!] and written with
      [<[i := v]>]; a [for] loop is [for_range].
    - [rand()], [get_absolute_time()] and [gpio_get()] are oracles of the
      environment ([Env]); the state keeps how many values were consumed.
    - The display driver ([inc/ssd1306.h]) is not among the sources: a frame
      is the list of the calls it makes on the driver ([Draw]). *)

From Stdlib Require Import ZArith QArith Qround Qabs List Sorted Lia Bool.
From Stdlib Require Ascii String DecimalString.
From stdpp Require Import base list.
Import ListNotations.
Local Open Scope Z_scope.

(** ** binary32 arithmetic *)

Module F32.

Definition float := Q.

Definition prec : Z := 24.
Definition emin : Z := -149.

(** [ilog2 n d] is the integer part of the base-2 logarithm of [n/d],
    for positive [n] and [d]. *)
Definition ilog2 (n d : Z) : Z :=
  let e := Z.log2 n - Z.log2 d in
  if n * 2 ^ Z.max 0 (- e) <? d * 2 ^ Z.max 0 e then e - 1 else e.

(** Nearest integer to [n/d], ties to even ([0 <= n], [0 < d]). *)
Definition rne (n d : Z) : Z :=
  let k := n / d in
  let r := n mod d in
  match 2 * r ?= d with
  | Lt => k
  | Gt => k + 1
  | Eq => if Z.even k then k else k + 1
  end.

(** [m * 2^e] as a reduced fraction. *)
Definition scale2 (m e : Z) : Q :=
  if 0 <=? e then inject_Z (m * 2 ^ e)
  else Qred (Qmake m (Z.to_pos (2 ^ (- e)))).

(** Rounding of a rational to binary32. *)
Definition rnd (q : Q) : float :=
  let n := Z.abs (Qnum q) in
  let d := Zpos (Qden q) in
  if n =? 0 then 0%Q
  else
    let e := Z.max (ilog2 n d - (prec - 1)) emin in
    let m := rne (n * 2 ^ Z.max 0 (- e)) (d * 2 ^ Z.max 0 e) in
    scale2 (Z.sgn (Qnum q) * m) e.

Definition fadd (a b : float) : float := rnd (a + b).
Definition fsub (a b : float) : float := rnd (a - b).
Definition fmul (a b : float) : float := rnd (a * b).
Definition fdiv (a b : float) : float := rnd (a / b).
Definition fneg (a : float) : float := Qred (- a).

(** [(float)z] *)
Definition of_int (z : Z) : float := rnd (inject_Z z).
(** [(int)a]: truncation toward zero *)
Definition to_int (a : float) : Z := Z.quot (Qnum a) (Zpos (Qden a)).
(** [floorf(a)] *)
Definition floorf (a : float) : float := inject_Z (Qfloor a).
(** [roundf(a)]: to the nearest integer, halves away from zero *)
Definition roundf (a : float) : float :=
  inject_Z (if Qle_bool 0 a then Qfloor (a + (1 # 2)) else Qceiling (a - (1 # 2))).
(** [a <= b] *)
Definition fle (a b : float) : bool := Qle_bool a b.

Definition half : float := 1 # 2.      (* 0.5f *)
Definition fall_step : float := 3 # 2. (* 1.5f *)

End F32.

Import F32.

(** ** Constants of the source *)

Definition BASE_PINS : Z := 15.
Definition ROWS : Z := BASE_PINS.
Definition TOTAL_BALLS : Z := 100.
Definition RELEASE_DELAY : Z := 10000.
Definition NUM_BINS : Z := 7.

Definition BUTTON_A_PIN : Z := 5.
Definition BUTTON_B_PIN : Z := 6.

(** ** Data *)

Module Ball.
Record t := mk {
  x : float;        (* posição atual da bola *)
  y : float;
  active : bool;    (* a bola ainda está se movendo *)
  counted : bool;   (* já foi registrada no bin *)
  last_row : Z      (* última linha de pinos que ela interagiu *)
}.
(** A slot of the zero-initialised static array. *)
Definition zero : t := mk 0%Q 0%Q false false 0.
End Ball.

Module Pin.
Record t := mk { x : Z; y : Z }.
Definition zero : t := mk 0 0.
End Pin.

#[global] Instance Ball_inhabited : Inhabited Ball.t := populate Ball.zero.
#[global] Instance Pin_inhabited : Inhabited Pin.t := populate Pin.zero.

(** The globals that [init_pins] writes and nothing else changes. *)
Record Board := mkBoard {
  display_width : Z;
  display_height : Z;
  step_x : float;
  step_y : float;
  pins : list (list Pin.t);     (* pins[ROWS][BASE_PINS] *)
  pins_per_row : list Z;        (* pins_per_row[ROWS] *)
  bin_x : list Z                (* bin_x[NUM_BINS] *)
}.

(** [for (int i = 0; i < n; i++) body] *)
Definition for_range {S : Type} (n : Z) (body : nat -> S -> S) (s : S) : S :=
  fold_left (fun acc i => body i acc) (seq 0 (Z.to_nat n)) s.

(** [pins[r][c]] and the two assignments to it *)
Definition pin_at (ps : list (list Pin.t)) (r c : nat) : Pin.t := (ps !!! r) !!! c.

Definition set_pin_x (r c : nat) (v : Z) (ps : list (list Pin.t)) : list (list Pin.t) :=
  <[r := <[c := Pin.mk v (Pin.y (pin_at ps r c))]> (ps !!! r)]> ps.

Definition set_pin_y (r c : nat) (v : Z) (ps : list (list Pin.t)) : list (list Pin.t) :=
  <[r := <[c := Pin.mk (Pin.x (pin_at ps r c)) v]> (ps !!! r)]> ps.

(** ** Lattice generation *)

Section Display.

(** [ssd1306_width] and [ssd1306_n_pages] come from [inc/ssd1306.h], which is
    not among the sources; the BitDogLab display is 128 x 64, that is
    [ssd1306_width = 128] and [ssd1306_n_pages = 8]. *)
Variable ssd1306_width : Z.
Variable ssd1306_n_pages : Z.

(** The x-offset of the row with [count] pins (line 86). *)
Definition row_shift (dw : Z) (sx : float) (count : Z) : float :=
  fmul (fsub (of_int (dw - 1)) (fmul (of_int (count - 1)) sx)) half.

Definition init_pins : Board :=
  let dw := ssd1306_width in
  let dh := ssd1306_n_pages * 8 in
  let half_h := dh ÷ 2 in
  let sx := fdiv (fmul (of_int dw) half) (of_int (BASE_PINS - 1)) in
  let sy := fdiv (of_int (half_h - 1)) (of_int (ROWS - 1)) in
  let '(ps, ppr) :=
    for_range ROWS (fun r '(ps, ppr) =>
      let count := Z.of_nat r + 1 in
      let ppr := <[r := count]> ppr in
      let shift_x := row_shift dw sx count in
      let ps :=
        for_range count (fun c ps =>
          let ps := set_pin_x r c
            (to_int (fadd (fadd shift_x (fmul (of_int (Z.of_nat c)) sx)) half)) ps in
          set_pin_y r c
            (to_int (fadd (fmul (of_int (Z.of_nat r)) sy) half)) ps) ps in
      (ps, ppr))
      (replicate (Z.to_nat ROWS) (replicate (Z.to_nat BASE_PINS) Pin.zero),
       replicate (Z.to_nat ROWS) 0) in
  (* posição horizontal de cada bin baseado na base do triângulo *)
  let start := Pin.x (pin_at ps (Z.to_nat (ROWS - 1)) 0) in
  let end_ := Pin.x (pin_at ps (Z.to_nat (ROWS - 1))
                       (Z.to_nat (ppr !!! Z.to_nat (ROWS - 1) - 1))) in
  let bin_step := fdiv (of_int (end_ - start)) (of_int (NUM_BINS - 1)) in
  let bx :=
    for_range NUM_BINS (fun i bx =>
      <[i := to_int (fadd (fadd (of_int start) (fmul (of_int (Z.of_nat i)) bin_step)) half)]> bx)
      (replicate (Z.to_nat NUM_BINS) 0) in
  mkBoard dw dh sx sy ps ppr bx.

End Display.

(** ** Environment *)

Record Env := mkEnv {
  rand : nat -> Z;            (* the k-th value returned by rand() *)
  time_us : nat -> Z;         (* the k-th reading of get_absolute_time(), in us *)
  gpio_get : Z -> nat -> bool (* level of a pin at the k-th loop iteration *)
}.

(** ** Particle motion *)

(** [random_dir]: [(uint8_t)(rand() & 1u)], consuming one value. *)
Definition random_dir (env : Env) (k : nat) : Z * nat :=
  (Z.land (rand env k) 1 mod 256, S k).

Definition init_ball (bd : Board) (b : Ball.t) : Ball.t :=
  Ball.mk (of_int (Pin.x (pin_at (pins bd) 0 0))) 0%Q true false (-1).

(** The row index computed on line 115 for a ball at height [y]. *)
Definition row_of (bd : Board) (y : float) : Z :=
  to_int (floorf (fdiv (fadd y (fmul (step_y bd) half)) (step_y bd))).

Definition update_ball (bd : Board) (env : Env) (b : Ball.t) (k : nat) : Ball.t * nat :=
  if negb (Ball.active b) then (b, k)
  else
    let y1 := fadd (Ball.y b) fall_step in
    let row := row_of bd y1 in
    let '(x1, lr1, k1) :=
      if negb (row =? Ball.last_row b) && (0 <=? row) && (row <? ROWS) then
        (* 50% de chance para esquerda ou direita *)
        let '(d, k') := random_dir env k in
        (fadd (Ball.x b) (if d =? 0 then fneg (step_x bd) else step_x bd), row, k')
      else (Ball.x b, Ball.last_row b, k) in
    let act := if fle (of_int (display_height bd)) y1 then false else Ball.active b in
    (Ball.mk x1 y1 act (Ball.counted b) lr1, k1).

(** ** Simulation state

    [balls] and [bins] are the remaining globals; [running], [ball_count],
    [last_rel], [last_btn_a] and [last_btn_b] are the locals of [main]. *)

Record State := mkState {
  balls : list Ball.t;     (* balls[TOTAL_BALLS] *)
  bins : list Z;           (* bins[NUM_BINS] *)
  running : bool;
  ball_count : Z;
  last_rel : Z;
  last_btn_a : bool;
  last_btn_b : bool;
  rand_calls : nat;        (* values of rand() consumed so far *)
  clock_reads : nat;       (* readings of the clock taken so far *)
  iteration : nat          (* iterations of the main loop completed *)
}.

Definition set_balls (v : list Ball.t) (s : State) : State :=
  mkState v (bins s) (running s) (ball_count s) (last_rel s)
          (last_btn_a s) (last_btn_b s) (rand_calls s) (clock_reads s) (iteration s).
Definition set_bins (v : list Z) (s : State) : State :=
  mkState (balls s) v (running s) (ball_count s) (last_rel s)
          (last_btn_a s) (last_btn_b s) (rand_calls s) (clock_reads s) (iteration s).
Definition set_running (v : bool) (s : State) : State :=
  mkState (balls s) (bins s) v (ball_count s) (last_rel s)
          (last_btn_a s) (last_btn_b s) (rand_calls s) (clock_reads s) (iteration s).
Definition set_ball_count (v : Z) (s : State) : State :=
  mkState (balls s) (bins s) (running s) v (last_rel s)
          (last_btn_a s) (last_btn_b s) (rand_calls s) (clock_reads s) (iteration s).
Definition set_last_rel (v : Z) (s : State) : State :=
  mkState (balls s) (bins s) (running s) (ball_count s) v
          (last_btn_a s) (last_btn_b s) (rand_calls s) (clock_reads s) (iteration s).
Definition set_last_btns (a b : bool) (s : State) : State :=
  mkState (balls s) (bins s) (running s) (ball_count s) (last_rel s)
          a b (rand_calls s) (clock_reads s) (iteration s).
Definition set_rand_calls (v : nat) (s : State) : State :=
  mkState (balls s) (bins s) (running s) (ball_count s) (last_rel s)
          (last_btn_a s) (last_btn_b s) v (clock_reads s) (iteration s).
Definition next_iteration (s : State) : State :=
  mkState (balls s) (bins s) (running s) (ball_count s) (last_rel s)
          (last_btn_a s) (last_btn_b s) (rand_calls s) (clock_reads s) (S (iteration s)).

(** [get_absolute_time()] *)
Definition get_absolute_time (env : Env) (s : State) : Z * State :=
  (time_us env (clock_reads s),
   mkState (balls s) (bins s) (running s) (ball_count s) (last_rel s)
           (last_btn_a s) (last_btn_b s) (rand_calls s) (S (clock_reads s)) (iteration s)).

(** Reinicia a simulação (zera bolas e bins) *)
Definition clear_ball (b : Ball.t) : Ball.t :=
  Ball.mk (Ball.x b) (Ball.y b) false false (Ball.last_row b).

Definition reset_simulation (s : State) : State :=
  let s := for_range TOTAL_BALLS
             (fun i s => set_balls (<[i := clear_ball (balls s !!! i)]> (balls s)) s) s in
  for_range NUM_BINS (fun i s => set_bins (<[i := 0]> (bins s)) s) s.

(** ** Bin assignment (lines 200-206) *)

Definition bin_scan (bd : Board) (b : Ball.t) : Z * Z :=
  for_range NUM_BINS (fun j '(min_dist, idx) =>
      let dist := Z.abs (to_int (Ball.x b) - bin_x bd !!! j) in
      if dist <? min_dist then (dist, Z.of_nat j) else (min_dist, idx))
    (10000, 0).

Definition mark_counted (b : Ball.t) : Ball.t :=
  Ball.mk (Ball.x b) (Ball.y b) (Ball.active b) true (Ball.last_row b).

Definition settle (bd : Board) (i : nat) (s : State) : State :=
  let b := balls s !!! i in
  let idx := Z.to_nat (snd (bin_scan bd b)) in
  let s := set_bins (<[idx := bins s !!! idx + 1]> (bins s)) s in
  set_balls (<[i := mark_counted b]> (balls s)) s.

(** ** The main loop *)

(** Body of the loop over the released balls (lines 195-207). *)
Definition service_ball (bd : Board) (env : Env) (i : nat) (s : State) : State :=
  let b := balls s !!! i in
  if Ball.active b then
    let '(b', k) := update_ball bd env b (rand_calls s) in
    set_rand_calls k (set_balls (<[i := b']> (balls s)) s)
  else if negb (Ball.counted b) then settle bd i s
  else s.

(** Lines 164-169: button A. *)
Definition handle_start (env : Env) (btn_a : bool) (s : State) : State :=
  if btn_a && negb (last_btn_a s) && negb (running s) then
    let s := set_running true s in
    let s := set_ball_count 0 s in
    let s := reset_simulation s in
    let '(t, s) := get_absolute_time env s in
    set_last_rel t s
  else s.

(** Lines 170-175: button B. *)
Definition handle_reset (btn_b : bool) (s : State) : State :=
  if btn_b && negb (last_btn_b s) then
    let s := set_running false s in
    reset_simulation s
  else s.

(** Lines 180-185: release of the next ball. *)
Definition release_ball (bd : Board) (env : Env) (s : State) : State :=
  if ball_count s <? TOTAL_BALLS then
    let '(now, s) := get_absolute_time env s in
    if RELEASE_DELAY <=? now - last_rel s then
      let i := Z.to_nat (ball_count s) in
      let s := set_balls (<[i := init_ball bd (balls s !!! i)]> (balls s)) s in
      let s := set_ball_count (ball_count s + 1) s in
      let '(t, s) := get_absolute_time env s in
      set_last_rel t s
    else s
  else s.

(** Lines 216-220: the run ends when no slot is active any more. *)
Definition any_active (s : State) : bool :=
  for_range TOTAL_BALLS
    (fun i (any : bool) => if any then any else Ball.active (balls s !!! i)) false.

Definition check_finished (s : State) : State :=
  if TOTAL_BALLS <=? ball_count s then
    if negb (any_active s) then set_running false s else s
  else s.

(** Lines 179-223. *)
Definition run_frame (bd : Board) (env : Env) (s : State) : State :=
  if running s then
    let s := release_ball bd env s in
    let s := for_range (ball_count s) (service_ball bd env) s in
    check_finished s
  else s.

(** One iteration of [while (true)]. *)
Definition loop_body (bd : Board) (env : Env) (s : State) : State :=
  let btn_a := negb (gpio_get env BUTTON_A_PIN (iteration s)) in
  let btn_b := negb (gpio_get env BUTTON_B_PIN (iteration s)) in
  let s := handle_start env btn_a s in
  let s := handle_reset btn_b s in
  let s := set_last_btns btn_a btn_b s in
  let s := run_frame bd env s in
  next_iteration s.

(** The state on entry to the loop (lines 142-156). *)
Definition main_init (env : Env) : State :=
  let s := mkState (replicate (Z.to_nat TOTAL_BALLS) Ball.zero)
                   (replicate (Z.to_nat NUM_BINS) 0)
                   false 0 0 false false 0%nat 0%nat 0%nat in
  let s := reset_simulation s in
  let '(t, s) := get_absolute_time env s in
  set_last_rel t s.

(** The state after [n] iterations of the loop. *)
Fixpoint main_loop (bd : Board) (env : Env) (n : nat) (s : State) : State :=
  match n with
  | O => s
  | S n' => main_loop bd env n' (loop_body bd env s)
  end.

Definition main (ssd1306_width ssd1306_n_pages : Z) (env : Env) (n : nat) : State :=
  main_loop (init_pins ssd1306_width ssd1306_n_pages) env n (main_init env).

(** Sum of the bin counters. *)
Definition sum_bins (s : State) : Z := fold_right Z.add 0 (bins s).


(** ** Frame composition

    [ssd1306_draw_string], [ssd1306_set_pixel] and [render_on_display] belong
    to the display driver; a frame is modelled by the calls made on it, in
    order.  The functions below are [run_frame] and [loop_body] again, with
    those calls recorded. *)

Inductive Draw : Type :=
| Clear                                        (* memset(buf, 0, sizeof(buf)) *)
| DrawString (x y : Z) (text : String.string)  (* ssd1306_draw_string(buf, x, y, text) *)
| SetPixel (x y : Z)                           (* ssd1306_set_pixel(buf, x, y, true) *)
| Render.                                      (* render_on_display(buf, &frame) *)

(** [snprintf(cnt, size, "%3d", n)]: the decimal digits of [n], padded with
    spaces on the left to three characters, cut to [size - 1] characters. *)
Fixpoint spaces (n : nat) : String.string :=
  match n with
  | O => String.EmptyString
  | S k => String.String Ascii.Space (spaces k)
  end.

Definition snprintf_3d (size : nat) (n : Z) : String.string :=
  let digits := DecimalString.NilZero.string_of_int (Z.to_int n) in
  String.substring 0 (size - 1)
    (String.append (spaces (3 - String.length digits)) digits).

(** [for (int h = 0; cond(h); h++) body], for at most [fuel] iterations. *)
Fixpoint for_while {T : Type} (fuel : nat) (cond : Z -> bool) (body : Z -> T -> T)
    (h : Z) (t : T) : T :=
  match fuel with
  | O => t
  | S fuel' => if cond h then for_while fuel' cond body (h + 1) (body h t) else t
  end.

(** Lines 190-192: one pixel per pin. *)
Definition draw_pins (bd : Board) (tr : list Draw) : list Draw :=
  for_range ROWS (fun r tr =>
      for_range (pins_per_row bd !!! r) (fun i tr =>
          tr ++ [SetPixel (Pin.x (pin_at (pins bd) r i)) (Pin.y (pin_at (pins bd) r i))])
        tr)
    tr.

(** Lines 195-207, with the pixel of line 198. *)
Definition service_ball_draw (bd : Board) (env : Env) (i : nat)
    (st : State * list Draw) : State * list Draw :=
  let '(s, tr) := st in
  let b := balls s !!! i in
  if Ball.active b then
    let '(b', k) := update_ball bd env b (rand_calls s) in
    (set_rand_calls k (set_balls (<[i := b']> (balls s)) s),
     tr ++ [SetPixel (to_int (roundf (Ball.x b'))) (to_int (roundf (Ball.y b')))])
  else if negb (Ball.counted b) then (settle bd i s, tr)
  else (s, tr).

(** Lines 209-214: the bars of the histogram.  The inner loop stops at
    [display_height / 2] at the latest, which is the fuel it is given. *)
Definition draw_bins (bd : Board) (s : State) (tr : list Draw) : list Draw :=
  for_range NUM_BINS (fun j tr =>
      for_while (Z.to_nat (display_height bd ÷ 2))
        (fun h => (h <? bins s !!! j) && (h <? display_height bd ÷ 2))
        (fun h tr =>
           let py := display_height bd - 1 - h in
           tr ++ [SetPixel (bin_x bd !!! j) py])
        0 tr)
    tr.

(** Lines 179-223. *)
Definition run_frame_draw (bd : Board) (env : Env) (s : State) : State * list Draw :=
  if running s then
    let s := release_ball bd env s in
    let tr := [Clear; DrawString 0 0 (snprintf_3d 5 (ball_count s))] in
    let tr := draw_pins bd tr in
    let '(s, tr) := for_range (ball_count s) (service_ball_draw bd env) (s, tr) in
    let tr := draw_bins bd s tr in
    let tr := tr ++ [Render] in
    (check_finished s, tr)
  else (s, []).

(** One iteration of [while (true)], with the calls made on the display. *)
Definition loop_body_draw (bd : Board) (env : Env) (s : State) : State * list Draw :=
  let btn_a := negb (gpio_get env BUTTON_A_PIN (iteration s)) in
  let btn_b := negb (gpio_get env BUTTON_B_PIN (iteration s)) in
  let s := handle_start env btn_a s in
  let tr := if btn_b && negb (last_btn_b s) then [Clear; Render] else [] in
  let s := handle_reset btn_b s in
  let s := set_last_btns btn_a btn_b s in
  let '(s, tr') := run_frame_draw bd env s in
  (next_iteration s, tr ++ tr').
(** ** Auxiliary definitions used in the statements *)

(** The two loops of [reset_simulation], on the arrays alone. *)
Definition clear_balls (l : list Ball.t) : list Ball.t :=
  for_range TOTAL_BALLS (fun i l => <[i := clear_ball (l !!! i)]> l) l.
Definition clear_bins (l : list Z) : list Z :=
  for_range NUM_BINS (fun i l => <[i := 0]> l) l.

(** The static arrays have their declared sizes. *)
Definition wf (s : State) : Prop :=
  length (balls s) = Z.to_nat TOTAL_BALLS /\ length (bins s) = Z.to_nat NUM_BINS.

(** Buttons: A is pressed on the first iteration, B on the fifth; the clock
    advances by 10 ms between two readings. *)
Definition env_start_then_reset : Env :=
  mkEnv (fun k => Z.of_nat k)
        (fun k => 10000 * Z.of_nat k)
        (fun pin k => if pin =? BUTTON_A_PIN then negb (k =? 0)%nat
                      else negb (k =? 4)%nat).

(** Distance used by the scan of lines 201-204: between the truncated
    [(int)b->x] and the position of bin [j]. *)
Definition scan_dist (bd : Board) (b : Ball.t) (j : nat) : Z :=
  Z.abs (to_int (Ball.x b) - bin_x bd !!! j).

(** Distance between the particle's own x and the position of bin [j]. *)
Definition true_dist (bd : Board) (b : Ball.t) (j : nat) : Q :=
  Qabs (Ball.x b - inject_Z (bin_x bd !!! j)).

(** Invariant of the scan after [n] bins were looked at. *)
Definition scan_inv (bd : Board) (b : Ball.t) (n : nat) (st : Z * Z) : Prop :=
  let '(min_dist, idx) := st in
  (min_dist = 10000 /\ idx = 0 /\
   forall j, (j < n)%nat -> 10000 <= scan_dist bd b j)
  \/
  (min_dist < 10000 /\ 0 <= idx /\ (Z.to_nat idx < n)%nat /\
   scan_dist bd b (Z.to_nat idx) = min_dist /\
   (forall j, (j < n)%nat -> min_dist <= scan_dist bd b j) /\
   (forall j, (j < Z.to_nat idx)%nat -> min_dist < scan_dist bd b j)).

(** Repeated [update_ball] on one ball, until it is inactive or [fuel] calls
    were made.  Returns the ball, the cursor of [rand()] and the rows at which
    the ball was deflected (a deflection is a call that draws from
    [random_dir]). *)
Fixpoint fall (bd : Board) (env : Env) (fuel : nat) (b : Ball.t) (k : nat)
  : Ball.t * nat * list Z :=
  match fuel with
  | O => (b, k, [])
  | S fuel' =>
      if Ball.active b then
        let '(b', k') := update_ball bd env b k in
        let '(bf, kf, rows) := fall bd env fuel' b' k' in
        (bf, kf, if (k' =? k)%nat then rows else Ball.last_row b' :: rows)
      else (b, k, [])
  end.

(** [rand()] returns odd values for the first [m] draws and even ones after:
    [m] deflections to the right, then only to the left. *)
Definition env_right_then_left (m : nat) : Env :=
  mkEnv (fun k => if (k <? m)%nat then 1 else 0)
        (fun k => 10000 * Z.of_nat k)
        (fun _ _ => true).

(** ** The lattice in closed form *)

(** The value of [step_x] for a display of width [w], and of [step_y] for a
    display of [p] pages (lines 79-81). *)
Definition lattice_step_x (w : Z) : float :=
  fdiv (fmul (of_int w) half) (of_int (BASE_PINS - 1)).
Definition lattice_step_y (p : Z) : float :=
  fdiv (of_int ((p * 8) ÷ 2 - 1)) (of_int (ROWS - 1)).

(** The values stored in [pins[r][c]] (lines 86-89). *)
Definition peg_x (w : Z) (r c : nat) : Z :=
  to_int (fadd (fadd (row_shift w (lattice_step_x w) (Z.of_nat r + 1))
                     (fmul (of_int (Z.of_nat c)) (lattice_step_x w))) half).
Definition peg_y (p : Z) (r : nat) : Z :=
  to_int (fadd (fmul (of_int (Z.of_nat r)) (lattice_step_y p)) half).

(** The value stored in [bin_x[i]] (lines 94-98). *)
Definition bin_pos (start end_ : Z) (i : nat) : Z :=
  to_int (fadd (fadd (of_int start)
                     (fmul (of_int (Z.of_nat i))
                           (fdiv (of_int (end_ - start)) (of_int (NUM_BINS - 1)))))
               half).

(** A [ROWS] x [BASE_PINS] array. *)
Definition grid_ok (ps : list (list Pin.t)) : Prop :=
  length ps = 15%nat /\ Forall (fun row => length row = 15%nat) ps.

(** Integers [a, a+1, ..., a+n-1]. *)
Definition zrange (a : Z) (n : nat) : list Z := map (fun k => a + Z.of_nat k) (seq 0 n).

(** Checks evaluated over a range of display sizes. *)

(** The x of the pins of row [r], computed as [init_pins] does; the step and
    the offset of the row are computed once. *)
Definition peg_row (w : Z) (sx : float) (r : nat) : list Z :=
  let shift_x := row_shift w sx (Z.of_nat r + 1) in
  map (fun c => to_int (fadd (fadd shift_x (fmul (of_int (Z.of_nat c)) sx)) half))
      (seq 0 (S r)).

(** Row [r] of a display of width [w]: the pins [c] and [r - c] mirror each
    other, their x adding up to [w - 1] or to [w], and every pin lies inside
    the display. *)
Definition row_symmetric (w : Z) (sx : float) (r : nat) : bool :=
  let xs := peg_row w sx r in
  forallb (fun c =>
      let s := nth c xs 0 + nth (r - c) xs 0 in
      ((s =? w - 1) || (s =? w)) && ((0 <=? nth c xs 0) && (nth c xs 0 <? w)))
    (seq 0 (S r)).
Definition lattice_symmetric (w : Z) : bool :=
  let sx := lattice_step_x w in
  forallb (row_symmetric w sx) (seq 0 15).

(** The y of row [r] is within half a pixel of [r * step_y], and in the
    upper half of the display. *)
Definition peg_y_nearest (p : Z) : bool :=
  forallb (fun r =>
      Qle_bool (Qabs (inject_Z (peg_y p r)
                      - fmul (of_int (Z.of_nat r)) (lattice_step_y p))) (1 # 2)
      && ((0 <=? peg_y p r) && (peg_y p r <? (p * 8) ÷ 2)))
    (seq 0 15).

(** The bins of a display of width [w]: the first and the last stand at the
    ends of the base row, the positions do not decrease, and all lie inside
    the display. *)
Fixpoint nondecreasing (lo : Z) (l : list Z) : bool :=
  match l with
  | [] => true
  | v :: rest => (lo <=? v) && nondecreasing v rest
  end.
Definition bins_ok (w : Z) : bool :=
  let start := peg_x w 14 0 in
  let end_ := peg_x w 14 14 in
  let xs := map (bin_pos start end_) (seq 0 7) in
  (nth 0 xs 0 =? start) && (nth 6 xs 0 =? end_)
  && nondecreasing 0 xs && forallb (fun v => v <? w) xs.

(** The formulas as the specification words them. *)
Definition spec_step_y (dh : Z) : float :=
  fdiv (of_int (dh ÷ 2)) (of_int (ROWS - 1)).
Definition spec_row_shift (dw : Z) (sx : float) (count : Z) : float :=
  fmul (fsub (of_int dw) (fmul (of_int (count - 1)) sx)) half.

(** ** One particle falling *)

(** Line 115 with [step_y] as an argument. *)
Definition row_index (sy : float) (y : float) : Z :=
  to_int (floorf (fdiv (fadd y (fmul sy half)) sy)).

(** The test of line 116 for a ball advanced to height [y1]. *)
Definition deflects (sy : float) (y1 : float) (lr : Z) : bool :=
  negb (row_index sy y1 =? lr) && (0 <=? row_index sy y1) && (row_index sy y1 <? ROWS).

(** The vertical part of a fall: height, [last_row], [active] and the rows of
    deflection of an active ball after at most [fuel] calls.  It depends on
    [step_y] and [display_height] only. *)
Fixpoint fall_rows (sy : float) (dh : Z) (fuel : nat) (y : float) (lr : Z)
  : float * Z * bool * list Z :=
  match fuel with
  | O => (y, lr, true, [])
  | S fuel' =>
      let y1 := fadd y fall_step in
      let d := deflects sy y1 lr in
      let lr1 := if d then row_index sy y1 else lr in
      if fle (of_int dh) y1 then (y1, lr1, false, if d then [lr1] else [])
      else
        let '(yf, lrf, af, rows) := fall_rows sy dh fuel' y1 lr1 in
        (yf, lrf, af, if d then lr1 :: rows else rows)
  end.

(** The horizontal part: [n] deflections drawn from [rand()] at cursor [k]. *)
Definition deflect_x (sx : float) (env : Env) (x : float) (k : nat) : float :=
  fadd x (if Z.land (rand env k) 1 mod 256 =? 0 then fneg sx else sx).

Fixpoint drift (sx : float) (env : Env) (n : nat) (x : float) (k : nat) : float :=
  match n with
  | O => x
  | S n' => drift sx env n' (deflect_x sx env x k) (S k)
  end.

(** [n] additions of [step_x], as a fall deflected to the right every time
    computes them, against apex + n * step_x. *)
Definition right_drift_ok (n : nat) (w : Z) : bool :=
  let sx := lattice_step_x w in
  let apex := peg_x w 0 0 in
  Qle_bool (Qabs (Nat.iter n (fun x => fadd x sx) (of_int apex)
                  - (inject_Z apex + inject_Z (Z.of_nat n) * sx)))
           (1 # 1000).

(** Every draw of [rand()] is odd: every deflection goes to the right. *)
Definition env_always_right : Env :=
  mkEnv (fun _ => 1) (fun k => 10000 * Z.of_nat k) (fun _ _ => true).

(** A complete run: button A is pressed on the first iteration and released
    afterwards, button B is never pressed, two readings of the clock are 10 ms
    apart (a ball is released on every iteration) and [rand()] follows a
    fixed sequence. *)
Definition env_full_run : Env :=
  mkEnv (fun k => let z := Z.of_nat k in
                  (z * z * 1103515245 + 12345 * z) / 65536 mod 32768)
        (fun k => 10000 * Z.of_nat k)
        (fun pin k => negb ((pin =? BUTTON_A_PIN) && (k =? 0)%nat)).

(** ** Bookkeeping of a run *)

(** Number of slots whose [counted] flag is set. *)
Definition counted_flag (b : Ball.t) : Z := if Ball.counted b then 1 else 0.
Definition counted_count (l : list Ball.t) : Z :=
  fold_right Z.add 0 (counted_flag <$> l).

(** The locals of [main] and the cursors that the loop over the balls does
    not touch. *)
Definition ctl (s : State) : bool * Z * Z * bool * bool * nat * nat :=
  (running s, ball_count s, last_rel s, last_btn_a s, last_btn_b s,
   clock_reads s, iteration s).

(** What one pass of lines 195-207 does to one slot, [x] and [last_row]
    aside: an active ball falls by 1.5 and is deactivated at the bottom, an
    inactive one is counted. *)
Definition ball_post (bd : Board) (b b' : Ball.t) : Prop :=
  if Ball.active b then
    Ball.y b' = fadd (Ball.y b) fall_step
    /\ Ball.active b' = negb (fle (of_int (display_height bd)) (fadd (Ball.y b) fall_step))
    /\ Ball.counted b' = Ball.counted b
  else
    Ball.y b' = Ball.y b /\ Ball.active b' = false /\ Ball.counted b' = true.

(** Invariant of every state the program reaches: the arrays have their
    sizes, [ball_count] is within the capacity, the bins add up to the number
    of counted slots, and the slots not released yet are inactive and
    uncounted. *)
Definition inv0 (s : State) : Prop :=
  wf s
  /\ 0 <= ball_count s <= TOTAL_BALLS
  /\ sum_bins s = counted_count (balls s)
  /\ (forall i, (Z.to_nat (ball_count s) <= i)%nat ->
        Ball.active (balls s !!! i) = false /\ Ball.counted (balls s !!! i) = false).

(** ** The order in which the balls leave the display *)

(** Height of a ball after [a] calls of [update_ball]: [a] times 1.5, in
    lowest terms. *)
Definition yq (a : Z) : Q := Qred (3 * a # 2).

(** Number of calls that brought a ball to its height. *)
Definition age (b : Ball.t) : Z := Qfloor (Ball.y b * (2 # 3)).

(** Equality of two rationals as written, numerator and denominator. *)
Definition Qeqb_strict (p q : Q) : bool :=
  (Qnum p =? Qnum q) && (Qden p =? Qden q)%positive.

(** Adding 1.5 to the height [yq a] is exact in binary32. *)
Definition fall_exact (a : Z) : bool :=
  Qeqb_strict (fadd (yq a) fall_step) (yq (a + 1)).

(** Invariant of a run, over the released balls [0 .. ball_count - 1]:
    a counted ball is inactive; an active ball is at a height [yq a] below
    the bottom of the display, with [lo <= a]; an older active ball is lower
    than a younger one; and when a ball is inactive every older ball has been
    counted. *)
Definition inv_run (bd : Board) (lo : Z) (s : State) : Prop :=
  let n := Z.to_nat (ball_count s) in
  (forall i, (i < n)%nat ->
     Ball.counted (balls s !!! i) = true -> Ball.active (balls s !!! i) = false)
  /\ (forall i, (i < n)%nat -> Ball.active (balls s !!! i) = true ->
        Ball.y (balls s !!! i) = yq (age (balls s !!! i))
        /\ lo <= age (balls s !!! i)
        /\ 3 * age (balls s !!! i) < 2 * display_height bd)
  /\ (forall i j, (i < j < n)%nat ->
        Ball.active (balls s !!! i) = true -> Ball.active (balls s !!! j) = true ->
        age (balls s !!! j) < age (balls s !!! i))
  /\ (forall i j, (i < j < n)%nat ->
        Ball.active (balls s !!! j) = false -> Ball.counted (balls s !!! i) = true).

(** Invariant of the states reached between two iterations: [inv0], and
    while the controller is running [inv_run] together with the fact that
    the run is not over. *)
Definition inv1 (bd : Board) (s : State) : Prop :=
  inv0 s
  /\ (running s = true ->
      inv_run bd 1 s
      /\ (ball_count s < TOTAL_BALLS
          \/ exists i, (i < Z.to_nat TOTAL_BALLS)%nat /\ Ball.active (balls s !!! i) = true)).

(** Rows listed in strictly increasing order, all within the lattice. *)
Fixpoint rows_increasing (lo : Z) (rows : list Z) : bool :=
  match rows with
  | [] => true
  | r :: rest => (lo <? r) && (r <? ROWS) && rows_increasing r rest
  end.

(** On a display of [p] pages, a ball released at the apex has left the
    display after 86 calls, and was deflected at strictly increasing rows. *)
Definition fall_ok (p : Z) : bool :=
  let '(_, _, af, rows) := fall_rows (lattice_step_y p) (p * 8) 86 0%Q (-1) in
  negb af && rows_increasing (-1) rows.

(** ** The calls of a frame, in closed form *)

(** The pixels of the pins: row after row, [pins_per_row[r]] pins each. *)
Definition pin_pixels (bd : Board) : list Draw :=
  flat_map (fun r =>
      map (fun i => SetPixel (Pin.x (pin_at (pins bd) r i)) (Pin.y (pin_at (pins bd) r i)))
          (seq 0 (Z.to_nat (pins_per_row bd !!! r))))
    (seq 0 (Z.to_nat ROWS)).

(** The pixels of the balls: one for each of the first [n] slots that was
    active in [s] when the loop over the balls began, at the rounded position
    the slot has in [t], after the loop. *)
Definition ball_pixels (n : nat) (s t : State) : list Draw :=
  flat_map (fun i =>
      if Ball.active (balls s !!! i)
      then [SetPixel (to_int (roundf (Ball.x (balls t !!! i))))
                     (to_int (roundf (Ball.y (balls t !!! i))))]
      else [])
    (seq 0 n).

(** The bar of bin [j]: [min (bins[j], display_height / 2)] pixels in the
    column of the bin, from the bottom row upward. *)
Definition bar_pixels (bd : Board) (s : State) (j : nat) : list Draw :=
  map (fun h => SetPixel (bin_x bd !!! j) (display_height bd - 1 - h))
      (zrange 0 (Z.to_nat (Z.min (bins s !!! j) (display_height bd ÷ 2)))).

(** The counter text has three characters. *)
Definition counter_fits (n : Z) : bool :=
  (String.length (snprintf_3d 5 n) =? 3)%nat.

(** The display row of a ball at height [yq a]: 1.5 a rounded, halves up. *)
Definition pixel_row_ok (a : Z) : bool :=
  to_int (roundf (yq a)) =? (3 * a + 1) / 2.

(** ** The x positions a fall can reach *)

(** Equality of two positions, written out. *)
Definition Q_eq_dec (a b : Q) : {a = b} + {a <> b}.
Proof. decide equality; [apply Pos.eq_dec | apply Z.eq_dec]. Defined.
Definition lane_eq_dec (a b : Z * Q) : {a = b} + {a <> b}.
Proof. decide equality; [apply Q_eq_dec | apply Z.eq_dec]. Defined.

(** Deflections to the right minus deflections to the left over the [n]
    draws of [rand()] from cursor [k] on. *)
Fixpoint net_right (env : Env) (n k : nat) : Z :=
  match n with
  | O => 0
  | S n' => (if Z.land (rand env k) 1 mod 256 =? 0 then -1 else 1)
            + net_right env n' (S k)
  end.

(** All the pairs (rights minus lefts, x) one more deflection can lead to,
    line 118 applied both ways to every pair of [l]. *)
Definition step_states (sx : float) (l : list (Z * float)) : list (Z * float) :=
  nodup lane_eq_dec
    (flat_map (fun '(m, x) => [(m - 1, fadd x (fneg sx)); (m + 1, fadd x sx)]) l).

(** The pairs reached from [x0] by [n] deflections, whatever the draws. *)
Definition states_after (sx : float) (n : nat) (x0 : float) : list (Z * float) :=
  Nat.iter n (step_states sx) [(0, x0)].

(** On a display of width [w], after [n] deflections from the apex, [x] is
    apex + (rights - lefts) * step_x to within a thousandth of a pixel. *)
Definition drift_ok (n : nat) (w : Z) : bool :=
  let sx := lattice_step_x w in
  let apex := peg_x w 0 0 in
  forallb (fun '(m, x) =>
      Qle_bool (Qabs (x - (inject_Z apex + inject_Z m * sx))) (1 # 1000))
    (states_after sx n (of_int apex)).

(** The scan of lines 200-204 on a particle at [x]: the bin it chooses is at
    the least distance from [x] itself, and every bin of lower index is
    strictly farther. *)
Definition nearest_ok (bd : Board) (x : float) : bool :=
  let b := Ball.mk x 0%Q false false 0 in
  let idx := Z.to_nat (snd (bin_scan bd b)) in
  (idx <? 7)%nat
  && forallb (fun j => Qle_bool (true_dist bd b idx) (true_dist bd b j)) (seq 0 7)
  && forallb (fun j => negb (Qle_bool (true_dist bd b j) (true_dist bd b idx)))
             (seq 0 idx).

(** [nearest_ok] at every x that 0 to 15 deflections from the apex can reach,
    on a display of width [w]. *)
Definition bins_nearest_ok (w : Z) : bool :=
  let bd := init_pins w 8 in
  let sx := lattice_step_x w in
  let apex := of_int (peg_x w 0 0) in
  forallb (fun d => forallb (fun st => nearest_ok bd (snd st)) (states_after sx d apex))
          (seq 0 16).

(** A ball is on track when its height, [last_row] and [active] flag are
    those of a fall from the apex after some number of calls of
    [update_ball], and its x is one that the deflections of that fall can
    lead to. *)
Definition on_track (bd : Board) (b : Ball.t) : Prop :=
  exists (a : nat) (rows : list Z) (m : Z),
    fall_rows (step_y bd) (display_height bd) a 0%Q (-1)
    = (Ball.y b, Ball.last_row b, Ball.active b, rows)
    /\ In (m, Ball.x b)
          (states_after (step_x bd) (length rows)
                        (of_int (Pin.x (pin_at (pins bd) 0 0)))).

(** While a run goes on, every released ball is on track. *)
Definition inv_track (bd : Board) (s : State) : Prop :=
  running s = true ->
  forall i, (i < Z.to_nat (ball_count s))%nat -> on_track bd (balls s !!! i).
(** * Properties *)

(** ** Loops *)

Section ForRange.
Context {S : Type}.
Implicit Types (body : nat -> S -> S) (s : S).

Lemma for_range_nonpos n body s : n <= 0 -> for_range n body s = s.
Proof.
  intros Hn. unfold for_range.
  replace (Z.to_nat n) with 0%nat by lia. reflexivity.
Qed.

Lemma for_range_succ (n : nat) body s :
  for_range (Z.of_nat (Datatypes.S n)) body s = body n (for_range (Z.of_nat n) body s).
Proof.
  unfold for_range. rewrite !Nat2Z.id, seq_S, fold_left_app. reflexivity.
Qed.

(** Loop invariants: [P i] holds before iteration [i]. *)
Lemma for_range_ind (P : nat -> S -> Prop) (n : nat) body s :
  P 0%nat s ->
  (forall i t, (i < n)%nat -> P i t -> P (Datatypes.S i) (body i t)) ->
  P n (for_range (Z.of_nat n) body s).
Proof.
  intros H0 Hstep. induction n as [|n IH].
  - rewrite for_range_nonpos by lia. exact H0.
  - rewrite for_range_succ. apply Hstep; [lia|].
    apply IH. intros i t Hi. apply Hstep. lia.
Qed.

End ForRange.



(** A loop that rewrites the slots [0 .. n-1] of an array in place. *)
Lemma for_range_update_lookup {A : Type} `{Inhabited A}
    (g : nat -> A -> A) (n : nat) (l : list A) (j : nat) :
  for_range (Z.of_nat n) (fun i l => <[i := g i (l !!! i)]> l) l !! j
  = if decide (j < n)%nat then g j <$> (l !! j) else l !! j.
Proof.
  revert j. induction n as [|n IH]; intros j.
  - rewrite for_range_nonpos by lia. case_decide; [lia | reflexivity].
  - rewrite for_range_succ.
    set (r := for_range (Z.of_nat n) _ l) in *.
    assert (Hn : r !! n = l !! n).
    { rewrite IH. case_decide; [lia | reflexivity]. }
    destruct (decide (j = n)) as [->|Hne].
    + case_decide; [|lia].
      destruct (l !! n) as [a|] eqn:Hl.
      * rewrite list_lookup_insert_eq by (eapply lookup_lt_Some; eauto).
        rewrite (list_lookup_total_correct _ _ _ Hn). reflexivity.
      * rewrite list_insert_ge by (eapply lookup_ge_None; eauto). exact Hn.
    + rewrite list_lookup_insert_ne by congruence.
      rewrite IH. repeat case_decide; try lia; reflexivity.
Qed.

Lemma for_range_update_length {A : Type} `{Inhabited A}
    (g : nat -> A -> A) (n : Z) (l : list A) :
  length (for_range n (fun i l => <[i := g i (l !!! i)]> l) l) = length l.
Proof.
  destruct (Z.le_gt_cases n 0) as [Hn|Hn].
  - rewrite for_range_nonpos by lia. reflexivity.
  - rewrite <- (Z2Nat.id n) by lia.
    apply (for_range_ind (fun _ r => length r = length l)); [reflexivity|].
    intros i t _ Ht. rewrite length_insert. exact Ht.
Qed.

(** ** Field access after an update *)

Lemma state_eta s :
  mkState (balls s) (bins s) (running s) (ball_count s) (last_rel s)
          (last_btn_a s) (last_btn_b s) (rand_calls s) (clock_reads s) (iteration s) = s.
Proof. destruct s; reflexivity. Qed.

(** Loops that touch one field only. *)
Lemma for_range_balls n (f : nat -> list Ball.t -> list Ball.t) s :
  for_range n (fun i s => set_balls (f i (balls s)) s) s
  = set_balls (for_range n f (balls s)) s.
Proof.
  destruct (Z.le_gt_cases n 0) as [Hn|Hn].
  - rewrite !for_range_nonpos by lia. destruct s; reflexivity.
  - rewrite <- (Z2Nat.id n) by lia.
    induction (Z.to_nat n) as [|k IH].
    + rewrite !for_range_nonpos by lia. destruct s; reflexivity.
    + rewrite !for_range_succ, IH. reflexivity.
Qed.

Lemma for_range_bins n (f : nat -> list Z -> list Z) s :
  for_range n (fun i s => set_bins (f i (bins s)) s) s
  = set_bins (for_range n f (bins s)) s.
Proof.
  destruct (Z.le_gt_cases n 0) as [Hn|Hn].
  - rewrite !for_range_nonpos by lia. destruct s; reflexivity.
  - rewrite <- (Z2Nat.id n) by lia.
    induction (Z.to_nat n) as [|k IH].
    + rewrite !for_range_nonpos by lia. destruct s; reflexivity.
    + rewrite !for_range_succ, IH. reflexivity.
Qed.

#[global] Opaque for_range.

(** ** [reset_simulation] *)


Lemma reset_simulation_eq s :
  reset_simulation s
  = set_bins (clear_bins (bins s)) (set_balls (clear_balls (balls s)) s).
Proof.
  unfold reset_simulation.
  rewrite (for_range_balls TOTAL_BALLS (fun i l => <[i := clear_ball (l !!! i)]> l)).
  rewrite (for_range_bins NUM_BINS (fun i l => <[i := 0]> l)). reflexivity.
Qed.

Lemma clear_balls_lookup l j :
  clear_balls l !! j
  = if decide (j < 100)%nat then clear_ball <$> (l !! j) else l !! j.
Proof. exact (for_range_update_lookup (fun _ => clear_ball) 100 l j). Qed.

Lemma clear_bins_lookup l j :
  clear_bins l !! j
  = if decide (j < 7)%nat then (fun _ => 0) <$> (l !! j) else l !! j.
Proof. exact (for_range_update_lookup (fun _ _ => 0) 7 l j). Qed.

Lemma clear_balls_length l : length (clear_balls l) = length l.
Proof. exact (for_range_update_length (fun _ => clear_ball) TOTAL_BALLS l). Qed.

Lemma clear_bins_length l : length (clear_bins l) = length l.
Proof. exact (for_range_update_length (fun _ _ => 0) NUM_BINS l). Qed.

Lemma clear_balls_idemp l : clear_balls (clear_balls l) = clear_balls l.
Proof.
  apply list_eq. intros j. rewrite !clear_balls_lookup.
  case_decide; [|reflexivity]. destruct (l !! j) as [[]|]; reflexivity.
Qed.

Lemma clear_bins_idemp l : clear_bins (clear_bins l) = clear_bins l.
Proof.
  apply list_eq. intros j. rewrite !clear_bins_lookup.
  case_decide; [|reflexivity]. destruct (l !! j); reflexivity.
Qed.

Lemma reset_simulation_fields s :
  balls (reset_simulation s) = clear_balls (balls s)
  /\ bins (reset_simulation s) = clear_bins (bins s)
  /\ running (reset_simulation s) = running s
  /\ ball_count (reset_simulation s) = ball_count s
  /\ last_rel (reset_simulation s) = last_rel s.
Proof. rewrite reset_simulation_eq. repeat split. Qed.

(** A cleared slot, read the way the source reads [balls[i]]. *)
Lemma clear_balls_total l (i : nat) :
  (i < 100)%nat ->
  Ball.active (clear_balls l !!! i) = false
  /\ Ball.counted (clear_balls l !!! i) = false.
Proof.
  intros Hi. rewrite list_lookup_total_alt, clear_balls_lookup.
  case_decide; [|lia]. destruct (l !! i); split; reflexivity.
Qed.

Lemma clear_bins_total l (i : nat) :
  (i < 7)%nat -> (i < length l)%nat -> clear_bins l !!! i = 0.
Proof.
  intros Hi Hl. rewrite list_lookup_total_alt, clear_bins_lookup.
  case_decide; [|lia].
  destruct (lookup_lt_is_Some_2 l i Hl) as [v ->]. reflexivity.
Qed.

(** C9: [reset_simulation] is idempotent: applying it twice leaves exactly the
    state that applying it once leaves (every field, so in particular the
    particle slots and the bins). *)
Theorem C9_reset_idempotent s :
  reset_simulation (reset_simulation s) = reset_simulation s.
Proof.
  rewrite !reset_simulation_eq. unfold set_bins, set_balls. cbn [balls bins
    running ball_count last_rel last_btn_a last_btn_b rand_calls clock_reads iteration].
  rewrite clear_balls_idemp, clear_bins_idemp. reflexivity.
Qed.

(** ** The buttons *)

Lemma handle_start_running env a s :
  running s = true -> handle_start env a s = s.
Proof.
  intros Hr. unfold handle_start. rewrite Hr, andb_false_r. reflexivity.
Qed.

(** C10: while the controller is running, the handling of button A (lines
    164-169) leaves the whole state unchanged, whatever the button does; and
    whenever that step changes the state, the controller was idle and the
    button showed a rising edge. *)
Theorem C10_start_ignored_while_running env a s :
  (running s = true -> handle_start env a s = s)
  /\ (handle_start env a s <> s ->
      running s = false /\ a = true /\ last_btn_a s = false).
Proof.
  split; [apply handle_start_running|].
  unfold handle_start.
  destruct a, (last_btn_a s), (running s); cbn [andb negb]; intros Hne;
    try (exfalso; apply Hne; reflexivity); repeat split.
Qed.

Lemma C10_start_ignored_while_running_witness :
  let s := mkState [] [] true 3 0 false false 0%nat 0%nat 0%nat in
  handle_start env_start_then_reset true s = s.
Proof.
  intros s.
  apply (proj1 (C10_start_ignored_while_running env_start_then_reset true s)).
  reflexivity.
Defined.

Lemma handle_start_fields env a s :
  last_btn_b (handle_start env a s) = last_btn_b s
  /\ length (balls (handle_start env a s)) = length (balls s)
  /\ length (bins (handle_start env a s)) = length (bins s)
  /\ ball_count (handle_start env a s)
     = (if a && negb (last_btn_a s) && negb (running s) then 0 else ball_count s).
Proof.
  unfold handle_start.
  destruct (a && negb (last_btn_a s) && negb (running s)); [|repeat split].
  rewrite reset_simulation_eq.
  unfold get_absolute_time, set_last_rel, set_bins, set_balls, set_ball_count, set_running.
  cbn [balls bins running ball_count last_rel last_btn_a last_btn_b rand_calls
       clock_reads iteration].
  rewrite clear_balls_length, clear_bins_length. repeat split.
Qed.

Lemma handle_reset_edge s :
  last_btn_b s = false ->
  handle_reset true s = reset_simulation (set_running false s).
Proof. intros Hb. unfold handle_reset. rewrite Hb. reflexivity. Qed.

(** C4 (as amended): when button B shows a rising edge, the loop iteration
    ends with the controller idle, every particle slot inactive and uncounted
    and every bin at zero.  [ball_count] is not reset by it: it keeps the value
    it had (0 only when a start was taken in the same iteration). *)
Theorem C4_reset_signal bd env s :
  wf s ->
  gpio_get env BUTTON_B_PIN (iteration s) = false ->
  last_btn_b s = false ->
  let a := negb (gpio_get env BUTTON_A_PIN (iteration s)) in
  let s' := loop_body bd env s in
  running s' = false
  /\ (forall i, (i < Z.to_nat TOTAL_BALLS)%nat ->
        Ball.active (balls s' !!! i) = false /\ Ball.counted (balls s' !!! i) = false)
  /\ (forall i, (i < Z.to_nat NUM_BINS)%nat -> bins s' !!! i = 0)
  /\ ball_count s'
     = (if a && negb (last_btn_a s) && negb (running s) then 0 else ball_count s).
Proof.
  intros [Hlb Hln] Hgpio Hlast a s'.
  destruct (handle_start_fields env a s) as (Hb & Hl1 & Hl2 & Hc).
  assert (Hs' : s' = next_iteration (set_last_btns a true
                 (reset_simulation (set_running false (handle_start env a s))))).
  { unfold s', loop_body. fold a. rewrite Hgpio. cbn [negb].
    rewrite handle_reset_edge by (rewrite Hb; exact Hlast).
    unfold run_frame. rewrite reset_simulation_eq. reflexivity. }
  rewrite Hs', reset_simulation_eq.
  unfold next_iteration, set_last_btns, set_bins, set_balls, set_running.
  cbn [balls bins running ball_count last_rel last_btn_a last_btn_b rand_calls
       clock_reads iteration].
  split; [reflexivity|]. split; [|split].
  - intros i Hi. apply clear_balls_total. exact Hi.
  - intros i Hi. apply clear_bins_total; [exact Hi|].
    rewrite Hl2, Hln. exact Hi.
  - exact Hc.
Qed.

Lemma C4_reset_signal_witness :
  let bd := init_pins 128 8 in
  let s := main_loop bd env_start_then_reset 4 (main_init env_start_then_reset) in
  running (loop_body bd env_start_then_reset s) = false.
Proof.
  intros bd s.
  refine (proj1 (C4_reset_signal bd env_start_then_reset s _ _ _)).
  - vm_compute. split; reflexivity.
  - vm_compute. reflexivity.
  - vm_compute. reflexivity.
Defined.

(** C4, counterexample: on the 128 x 64 display, start at the first iteration
    and press B at the fifth.  Four balls were released by then; the iteration
    that handles the reset leaves the controller idle with [ball_count] still
    4, not 0. *)
Lemma C4_counterexample :
  let bd := init_pins 128 8 in
  let env := env_start_then_reset in
  let s := main_loop bd env 4 (main_init env) in
  gpio_get env BUTTON_B_PIN (iteration s) = false
  /\ last_btn_b s = false
  /\ running (loop_body bd env s) = false
  /\ ball_count (loop_body bd env s) = 4
  /\ ball_count (handle_reset true s) <> 0.
Proof. vm_compute. repeat split. discriminate. Qed.

(** ** Bin assignment *)

Lemma bin_scan_inv bd b : scan_inv bd b (Z.to_nat NUM_BINS) (bin_scan bd b).
Proof.
  unfold bin_scan. rewrite <- (Z2Nat.id NUM_BINS) at 2 by (unfold NUM_BINS; lia).
  apply (for_range_ind (scan_inv bd b)).
  - left. repeat split. intros j Hj. lia.
  - intros i [md idx] Hi Hinv. cbn beta iota.
    fold (scan_dist bd b i).
    destruct (Z.ltb_spec (scan_dist bd b i) md) as [Hlt|Hge].
    + right. destruct Hinv as [(-> & -> & Hall) | (Hmd & H0 & Hidx & Hd & Hall & Hfirst)].
      * rewrite Nat2Z.id. repeat split; try lia.
        -- intros j Hj. destruct (decide (j = i)) as [->|]; [lia|].
           specialize (Hall j). lia.
        -- intros j Hj. specialize (Hall j). lia.
      * rewrite Nat2Z.id. repeat split; try lia.
        -- intros j Hj. destruct (decide (j = i)) as [->|]; [lia|].
           specialize (Hall j). lia.
        -- intros j Hj. specialize (Hall j). lia.
    + destruct Hinv as [(-> & -> & Hall) | (Hmd & H0 & Hidx & Hd & Hall & Hfirst)].
      * left. repeat split. intros j Hj.
        destruct (decide (j = i)) as [->|]; [lia|]. apply Hall. lia.
      * right. repeat split; try lia; try assumption.
        intros j Hj. destruct (decide (j = i)) as [->|]; [lia|]. apply Hall. lia.
Qed.

Lemma bin_scan_range bd b : 0 <= snd (bin_scan bd b) < NUM_BINS.
Proof.
  pose proof (bin_scan_inv bd b) as Hinv.
  destruct (bin_scan bd b) as [md idx]. cbn [snd].
  destruct Hinv as [(_ & -> & _) | (_ & H0 & Hidx & _)]; unfold NUM_BINS in *; lia.
Qed.

Lemma settle_bins bd i s :
  bins (settle bd i s)
  = <[Z.to_nat (snd (bin_scan bd (balls s !!! i)))
      := bins s !!! Z.to_nat (snd (bin_scan bd (balls s !!! i))) + 1]> (bins s).
Proof. reflexivity. Qed.

Lemma settle_balls bd i s :
  balls (settle bd i s) = <[i := mark_counted (balls s !!! i)]> (balls s).
Proof. reflexivity. Qed.

(** C7: whatever the particle's x is, the scan ends on an index in
    [0, NUM_BINS - 1], and settling the particle writes that one element of
    [bins] only: the array keeps its size, every other counter keeps its
    value, and (the array having its NUM_BINS elements) the chosen counter
    grows by one. *)
Theorem C7_bin_index_in_range bd i s :
  let idx := snd (bin_scan bd (balls s !!! i)) in
  0 <= idx < NUM_BINS
  /\ length (bins (settle bd i s)) = length (bins s)
  /\ (forall j, j <> Z.to_nat idx -> bins (settle bd i s) !! j = bins s !! j)
  /\ (length (bins s) = Z.to_nat NUM_BINS ->
      bins (settle bd i s) !! Z.to_nat idx = Some (bins s !!! Z.to_nat idx + 1)).
Proof.
  intros idx. pose proof (bin_scan_range bd (balls s !!! i)) as Hr. fold idx in Hr.
  rewrite settle_bins. fold idx.
  split; [exact Hr|]. split; [apply length_insert|]. split.
  - intros j Hj. apply list_lookup_insert_ne. congruence.
  - intros Hl. apply list_lookup_insert_eq. rewrite Hl. unfold NUM_BINS in *. lia.
Qed.

Lemma C7_bin_index_in_range_witness :
  let bd := init_pins 128 8 in
  let s := mkState [Ball.mk (-1000000 # 1) (129 # 2) false false 14]
                   [0; 0; 0; 0; 0; 0; 0] true 1 0 true false 0%nat 0%nat 0%nat in
  bins (settle bd 0 s) !! 0%nat = Some 1.
Proof.
  intros bd s.
  refine (proj2 (proj2 (proj2 (C7_bin_index_in_range bd 0 s))) _).
  reflexivity.
Defined.

(** What the scan of lines 200-204 computes, for any particle and any bins:
    it measures the distance from the particle's x truncated to an integer,
    [(int)b->x].  When some bin lies closer than 10000 pixels to it, the
    chosen bin attains the least such distance over the NUM_BINS bins, and it
    is the first one that does; when no bin does, bin 0 is chosen. *)
Lemma bin_scan_first_minimum bd b :
  let idx := Z.to_nat (snd (bin_scan bd b)) in
  ((exists j, (j < Z.to_nat NUM_BINS)%nat /\ scan_dist bd b j < 10000) ->
     (forall j, (j < Z.to_nat NUM_BINS)%nat -> scan_dist bd b idx <= scan_dist bd b j)
     /\ (forall j, (j < idx)%nat -> scan_dist bd b idx < scan_dist bd b j))
  /\ ((forall j, (j < Z.to_nat NUM_BINS)%nat -> 10000 <= scan_dist bd b j) ->
      idx = 0%nat).
Proof.
  intros idx. pose proof (bin_scan_inv bd b) as Hinv. unfold idx.
  destruct (bin_scan bd b) as [md i]. cbn [snd].
  destruct Hinv as [(-> & -> & Hall) | (Hmd & H0 & Hidx & Hd & Hall & Hfirst)].
  - split; [|reflexivity].
    intros (j & Hj & Hlt). specialize (Hall j Hj). lia.
  - split.
    + intros _. rewrite Hd. split; assumption.
    + intros Hfar. specialize (Hfar _ Hidx). lia.
Qed.

(** ** binary32: integers of at most 24 bits are represented exactly *)

Lemma rne_exact n d : 0 < d -> rne (n * d) d = n.
Proof.
  intros Hd. unfold rne.
  rewrite Z.div_mul, Z.mod_mul by lia.
  replace (2 * 0) with 0 by lia.
  destruct (Z.compare_spec 0 d); lia.
Qed.

Lemma scale2_value m e : e <= 0 -> (scale2 (m * 2 ^ (- e)) e == inject_Z m)%Q.
Proof.
  intros He. unfold scale2.
  destruct (Z.leb_spec 0 e) as [H0|H0].
  - assert (e = 0) as -> by lia. cbn. rewrite !Z.mul_1_r. reflexivity.
  - rewrite Qred_correct. unfold Qeq, inject_Z. cbn [Qnum Qden].
    rewrite Z2Pos.id by (apply Z.pow_pos_nonneg; lia). lia.
Qed.

Lemma of_int_exact z : Z.abs z < 2 ^ 24 -> (of_int z == inject_Z z)%Q.
Proof.
  intros Hz. unfold of_int, rnd. cbn [Qnum Qden inject_Z].
  destruct (Z.eqb_spec (Z.abs z) 0) as [H0|H0].
  - assert (z = 0) as -> by lia. reflexivity.
  - set (n := Z.abs z) in *.
    assert (Hn : 0 < n) by lia.
    destruct (Z.log2_spec n Hn) as [Hlo Hhi].
    assert (Hl0 : 0 <= Z.log2 n) by apply Z.log2_nonneg.
    assert (Hl : Z.log2 n < 24).
    { apply Z.log2_lt_pow2; lia. }
    assert (Hilog : ilog2 n 1 = Z.log2 n).
    { unfold ilog2. cbn [Z.log2]. rewrite Z.sub_0_r.
      rewrite (Z.max_l 0 (- Z.log2 n)) by lia.
      rewrite (Z.max_r 0 (Z.log2 n)) by lia.
      rewrite Z.pow_0_r.
      destruct (Z.ltb_spec (n * 1) (1 * 2 ^ Z.log2 n)); [lia | reflexivity]. }
    rewrite Hilog. unfold prec, emin.
    set (t := Z.log2 n - (24 - 1)).
    rewrite (Z.max_l t (-149)) by (unfold t; lia).
    rewrite (Z.max_r 0 (- t)) by (unfold t; lia).
    rewrite (Z.max_l 0 t) by (unfold t; lia).
    rewrite Z.pow_0_r, Z.mul_1_l.
    replace (n * 2 ^ (- t)) with ((n * 2 ^ (- t)) * 1) by lia.
    rewrite rne_exact by lia.
    rewrite Z.mul_assoc. rewrite scale2_value by (unfold t; lia).
    unfold n. rewrite Z.mul_comm, Z.abs_sgn. reflexivity.
Qed.

(** ** Particle motion *)

(** The test of line 116, for a ball whose height was already advanced. *)
Lemma update_ball_unfold bd env b k :
  Ball.active b = true ->
  update_ball bd env b k =
  let y1 := fadd (Ball.y b) fall_step in
  let row := row_of bd y1 in
  let act := negb (fle (of_int (display_height bd)) y1) in
  if negb (row =? Ball.last_row b) && (0 <=? row) && (row <? ROWS) then
    (Ball.mk (fadd (Ball.x b)
                (if Z.land (rand env k) 1 mod 256 =? 0
                 then fneg (step_x bd) else step_x bd))
             y1 act (Ball.counted b) row, S k)
  else (Ball.mk (Ball.x b) y1 act (Ball.counted b) (Ball.last_row b), k).
Proof.
  intros Ha. unfold update_ball, random_dir. rewrite Ha. cbn [negb].
  cbv zeta.
  destruct (negb (row_of bd (fadd (Ball.y b) fall_step) =? Ball.last_row b)
            && (0 <=? row_of bd (fadd (Ball.y b) fall_step))
            && (row_of bd (fadd (Ball.y b) fall_step) <? ROWS));
    destruct (fle (of_int (display_height bd)) (fadd (Ball.y b) fall_step));
    reflexivity.
Qed.

Lemma update_ball_vertical bd env b k :
  Ball.active b = true ->
  Ball.y (fst (update_ball bd env b k)) = fadd (Ball.y b) fall_step
  /\ Ball.active (fst (update_ball bd env b k))
     = negb (fle (of_int (display_height bd)) (fadd (Ball.y b) fall_step)).
Proof.
  intros Ha. rewrite update_ball_unfold by exact Ha. cbv zeta.
  destruct (negb _ && _ && _); split; reflexivity.
Qed.

(** C6: for an active particle, the call of [update_ball] that brings its y
    to [display_height] or above marks it inactive in that same call, and a
    call that leaves y below [display_height] leaves it active; y exactly
    equal to [display_height] deactivates it. *)
Theorem C6_exit_same_call bd env b k :
  Ball.active b = true ->
  Z.abs (display_height bd) < 2 ^ 24 ->
  let b' := fst (update_ball bd env b k) in
  ((inject_Z (display_height bd) <= Ball.y b')%Q -> Ball.active b' = false)
  /\ ((Ball.y b' < inject_Z (display_height bd))%Q -> Ball.active b' = true)
  /\ ((Ball.y b' == inject_Z (display_height bd))%Q -> Ball.active b' = false).
Proof.
  intros Ha Hh b'.
  destruct (update_ball_vertical bd env b k Ha) as [Hy Hact].
  fold b' in Hy, Hact. rewrite <- Hy in Hact. rewrite Hact. clear Hact Hy.
  assert (Hle : forall q, fle (of_int (display_height bd)) q = true
                          <-> (inject_Z (display_height bd) <= q)%Q).
  { intros q. unfold fle. rewrite Qle_bool_iff, (of_int_exact _ Hh). reflexivity. }
  split; [|split].
  - intros H. apply Hle in H. rewrite H. reflexivity.
  - intros H.
    destruct (fle (of_int (display_height bd)) (Ball.y b')) eqn:E; [|reflexivity].
    apply Hle in E. exfalso. apply (Qlt_not_le _ _ H E).
  - intros H. assert (E : (inject_Z (display_height bd) <= Ball.y b')%Q).
    { rewrite H. apply Qle_refl. }
    apply Hle in E. rewrite E. reflexivity.
Qed.

Lemma C6_exit_same_call_witness :
  let bd := init_pins 128 8 in
  let b := Ball.mk (64 # 1) (125 # 2) true false 14 in
  let b' := fst (update_ball bd (env_right_then_left 0) b 0) in
  (Ball.y b' == 64)%Q /\ Ball.active b' = false.
Proof.
  intros bd b b'.
  assert (Hy : (Ball.y b' == inject_Z (display_height bd))%Q) by (vm_compute; reflexivity).
  split; [exact Hy|].
  refine (proj2 (proj2 (C6_exit_same_call bd (env_right_then_left 0) b 0 _ _)) Hy).
  - reflexivity.
  - vm_compute. reflexivity.
Defined.

(** ** Lattice generation *)

Lemma fle_iff a b : fle a b = true <-> (a <= b)%Q.
Proof. apply Qle_bool_iff. Qed.

(** From here on the binary32 operations are used through their lemmas, or
    evaluated on closed terms. *)
#[global] Opaque rnd fadd fsub fmul fdiv fneg of_int to_int floorf fle.

Lemma grid_row_length ps r : grid_ok ps -> (r < 15)%nat -> length (ps !!! r) = 15%nat.
Proof.
  intros [Hl Hf] Hr.
  apply (Forall_lookup_total_1 (fun row => length row = 15%nat) ps r Hf). lia.
Qed.

Lemma grid_set ps r c v :
  grid_ok ps -> (r < 15)%nat -> (c < 15)%nat ->
  grid_ok (<[r := <[c := v]> (ps !!! r)]> ps)
  /\ forall r' c', pin_at (<[r := <[c := v]> (ps !!! r)]> ps) r' c'
       = if decide (r' = r /\ c' = c) then v else pin_at ps r' c'.
Proof.
  intros Hg Hr Hc. pose proof (grid_row_length ps r Hg Hr) as Hrow.
  destruct Hg as [Hl Hf]. split.
  - split; [rewrite length_insert; exact Hl|].
    apply Forall_insert; [exact Hf|]. rewrite length_insert. exact Hrow.
  - intros r' c'. unfold pin_at.
    destruct (decide (r' = r)) as [->|Hne].
    + rewrite list_lookup_total_insert_eq by lia.
      destruct (decide (c' = c)) as [->|Hnc].
      * rewrite list_lookup_total_insert_eq by lia.
        case_decide as Hd; [reflexivity | exfalso; apply Hd; split; reflexivity].
      * rewrite list_lookup_total_insert_ne by congruence.
        case_decide as Hd; [destruct Hd; congruence | reflexivity].
    + rewrite list_lookup_total_insert_ne by congruence.
      case_decide as Hd; [destruct Hd; congruence | reflexivity].
Qed.

(** The two assignments of lines 88-89. *)
Lemma set_pin_xy ps r c vx vy :
  grid_ok ps -> (r < 15)%nat -> (c < 15)%nat ->
  grid_ok (set_pin_y r c vy (set_pin_x r c vx ps))
  /\ forall r' c', pin_at (set_pin_y r c vy (set_pin_x r c vx ps)) r' c'
       = if decide (r' = r /\ c' = c) then Pin.mk vx vy else pin_at ps r' c'.
Proof.
  intros Hg Hr Hc.
  destruct (grid_set ps r c (Pin.mk vx (Pin.y (pin_at ps r c))) Hg Hr Hc) as [Hg1 H1].
  fold (set_pin_x r c vx ps) in Hg1, H1.
  set (ps1 := set_pin_x r c vx ps) in *.
  destruct (grid_set ps1 r c (Pin.mk (Pin.x (pin_at ps1 r c)) vy) Hg1 Hr Hc) as [Hg2 H2].
  fold (set_pin_y r c vy ps1) in Hg2, H2.
  split; [exact Hg2|]. intros r' c'. rewrite H2, !H1.
  repeat case_decide; try reflexivity; exfalso; tauto.
Qed.

(** The inner loop: the first [m] pins of row [r]. *)
Lemma lattice_row (X : nat -> Z) (Y : Z) ps r (m : nat) :
  grid_ok ps -> (r < 15)%nat -> (m <= 15)%nat ->
  let ps' := for_range (Z.of_nat m)
               (fun c ps => set_pin_y r c Y (set_pin_x r c (X c) ps)) ps in
  grid_ok ps'
  /\ forall r' c', pin_at ps' r' c'
       = if decide (r' = r /\ (c' < m)%nat) then Pin.mk (X c') Y else pin_at ps r' c'.
Proof.
  intros Hg Hr Hm ps'. unfold ps'. clear ps'.
  refine (for_range_ind (fun n t =>
    (n <= m)%nat ->
    grid_ok t /\ forall r' c', pin_at t r' c'
       = if decide (r' = r /\ (c' < n)%nat) then Pin.mk (X c') Y else pin_at ps r' c')
    m _ ps _ _ (le_n m)).
  - intros _. split; [exact Hg|]. intros r' c'.
    case_decide as Hd; [destruct Hd; lia | reflexivity].
  - intros i t Hi IH _. destruct IH as [Hgt Ht]; [lia|].
    destruct (set_pin_xy t r i (X i) Y Hgt Hr) as [Hg' H']; [lia|].
    split; [exact Hg'|]. intros r' c'. rewrite H', Ht.
    repeat case_decide; try reflexivity; try (exfalso; lia).
    match goal with Hd : _ /\ c' = i |- _ => destruct Hd as [_ ->] end. reflexivity.
Qed.

(** The outer loop of [init_pins], for any cell contents [X r c], [Y r]. *)
Lemma lattice_loop (X : nat -> nat -> Z) (Y : nat -> Z) :
  let '(ps, ppr) :=
    for_range ROWS (fun r '(ps, ppr) =>
        (for_range (Z.of_nat r + 1)
           (fun c ps => set_pin_y r c (Y r) (set_pin_x r c (X r c) ps)) ps,
         <[r := Z.of_nat r + 1]> ppr))
      (replicate (Z.to_nat ROWS) (replicate (Z.to_nat BASE_PINS) Pin.zero),
       replicate (Z.to_nat ROWS) 0) in
  grid_ok ps
  /\ (forall r c, (r < 15)%nat -> (c < 15)%nat ->
        pin_at ps r c = if decide (c <= r)%nat then Pin.mk (X r c) (Y r) else Pin.zero)
  /\ length ppr = 15%nat
  /\ (forall r, (r < 15)%nat -> ppr !! r = Some (Z.of_nat r + 1)).
Proof.
  set (ps0 := replicate (Z.to_nat ROWS) (replicate (Z.to_nat BASE_PINS) Pin.zero)).
  set (ppr0 := replicate (Z.to_nat ROWS) 0).
  assert (Hg0 : grid_ok ps0).
  { split; [reflexivity|]. apply Forall_replicate. reflexivity. }
  assert (Hz : forall r c, (r < 15)%nat -> (c < 15)%nat -> pin_at ps0 r c = Pin.zero).
  { intros r c Hr Hc. unfold pin_at, ps0.
    change (Z.to_nat ROWS) with 15%nat. change (Z.to_nat BASE_PINS) with 15%nat.
    rewrite !lookup_total_replicate_2 by lia. reflexivity. }
  change ROWS with (Z.of_nat 15).
  set (body := fun (r : nat) '(ps, ppr) =>
        (for_range (Z.of_nat r + 1)
           (fun c ps => set_pin_y r c (Y r) (set_pin_x r c (X r c) ps)) ps,
         <[r := Z.of_nat r + 1]> (ppr : list Z))).
  set (Inv := fun (n : nat) (st : list (list Pin.t) * list Z) =>
    (n <= 15)%nat ->
    grid_ok st.1
    /\ (forall r c, (r < 15)%nat -> (c < 15)%nat ->
          pin_at st.1 r c = if decide (r < n /\ c <= r)%nat
                            then Pin.mk (X r c) (Y r) else Pin.zero)
    /\ length st.2 = 15%nat
    /\ (forall r, (r < n)%nat -> st.2 !! r = Some (Z.of_nat r + 1))).
  assert (Hinv : Inv 15%nat (for_range (Z.of_nat 15) body (ps0, ppr0))).
  { apply for_range_ind.
    - intros _. cbn [fst snd]. split; [exact Hg0|]. split; [|split].
      + intros r c Hr Hc. rewrite Hz by lia.
        case_decide as Hd; [destruct Hd; lia | reflexivity].
      + reflexivity.
      + intros r Hr. lia.
    - intros i [ps ppr] Hi IH Hle. destruct IH as (Hg & Hp & Hl & Hq); [lia|].
      cbn [fst snd] in *. unfold body.
      replace (Z.of_nat i + 1) with (Z.of_nat (S i)) by lia.
      destruct (lattice_row (X i) (Y i) ps i (S i) Hg) as [Hg' Hp']; [lia | lia |].
      cbn [fst snd]. split; [exact Hg'|]. split; [|split].
      + intros r c Hr Hc. rewrite Hp', Hp by lia.
        repeat case_decide; try reflexivity; try (exfalso; lia).
        match goal with Hd : r = i /\ _ |- _ => destruct Hd as [-> _] end. reflexivity.
      + rewrite length_insert. exact Hl.
      + intros r Hr. destruct (decide (r = i)) as [->|Hne].
        * rewrite list_lookup_insert_eq by lia. f_equal. lia.
        * rewrite list_lookup_insert_ne by congruence. apply Hq. lia. }
  destruct (for_range (Z.of_nat 15) body (ps0, ppr0)) as [ps ppr].
  destruct Hinv as (Hg & Hp & Hl & Hq); [lia|]. cbn [fst snd] in *.
  split; [exact Hg|]. split; [|split; [exact Hl|]].
  - intros r c Hr Hc. rewrite Hp by lia.
    repeat case_decide; try reflexivity; exfalso; lia.
  - intros r Hr. apply Hq. exact Hr.
Qed.

(** What [init_pins] leaves in the globals. *)
Lemma init_pins_spec W P :
  let bd := init_pins W P in
  display_width bd = W
  /\ display_height bd = P * 8
  /\ step_x bd = lattice_step_x W
  /\ step_y bd = lattice_step_y P
  /\ grid_ok (pins bd)
  /\ (forall r c, (r < 15)%nat -> (c < 15)%nat ->
        pin_at (pins bd) r c
        = if decide (c <= r)%nat then Pin.mk (peg_x W r c) (peg_y P r) else Pin.zero)
  /\ length (pins_per_row bd) = 15%nat
  /\ (forall r, (r < 15)%nat -> pins_per_row bd !! r = Some (Z.of_nat r + 1))
  /\ length (bin_x bd) = 7%nat
  /\ (forall i, (i < 7)%nat ->
        bin_x bd !! i = Some (bin_pos (peg_x W 14 0) (peg_x W 14 14) i)).
Proof.
  pose proof (lattice_loop (peg_x W) (peg_y P)) as HL.
  unfold init_pins. cbv zeta.
  unfold peg_x, peg_y, lattice_step_x, lattice_step_y in HL.
  destruct (for_range ROWS _ _) as [ps ppr].
  destruct HL as (Hg & Hp & Hl & Hq).
  cbn [display_width display_height step_x step_y pins pins_per_row bin_x].
  repeat (split; [first [reflexivity | assumption]|]).
  assert (Hs : Pin.x (pin_at ps (Z.to_nat (ROWS - 1)) 0) = peg_x W 14 0).
  { change (Z.to_nat (ROWS - 1)) with 14%nat. rewrite Hp by lia. reflexivity. }
  assert (He : Pin.x (pin_at ps (Z.to_nat (ROWS - 1))
                        (Z.to_nat (ppr !!! Z.to_nat (ROWS - 1) - 1))) = peg_x W 14 14).
  { change (Z.to_nat (ROWS - 1)) with 14%nat.
    rewrite (list_lookup_total_correct ppr 14 _ (Hq 14%nat ltac:(lia))).
    change (Z.to_nat (Z.of_nat 14 + 1 - 1)) with 14%nat.
    rewrite Hp by lia. reflexivity. }
  rewrite Hs, He.
  set (f := fun i : nat => bin_pos (peg_x W 14 0) (peg_x W 14 14) i).
  intros i Hi.
  pose proof (for_range_update_lookup (fun i (_ : Z) => f i) 7
                (replicate (Z.to_nat NUM_BINS) 0) i) as Hlk.
  cbv beta in Hlk. destruct (decide (i < 7)%nat); [|lia].
  change (Z.to_nat NUM_BINS) with 7%nat in Hlk.
  rewrite lookup_replicate_2 in Hlk by lia.
  etransitivity; [|exact Hlk]. reflexivity.
Qed.

(** ** Checks over finite ranges *)

Lemma forallb_seq (f : nat -> bool) (n k : nat) :
  forallb f (seq 0 n) = true -> (k < n)%nat -> f k = true.
Proof.
  intros H Hk. rewrite forallb_forall in H. apply H. apply in_seq. lia.
Qed.

Lemma forallb_zrange (f : Z -> bool) (a : Z) (n : nat) (z : Z) :
  forallb f (zrange a n) = true -> a <= z < a + Z.of_nat n -> f z = true.
Proof.
  intros H Hz. rewrite forallb_forall in H. apply H. unfold zrange.
  apply in_map_iff. exists (Z.to_nat (z - a)). split; [lia|]. apply in_seq. lia.
Qed.

Lemma peg_row_nth W r c :
  (c <= r)%nat -> nth c (peg_row W (lattice_step_x W) r) 0 = peg_x W r c.
Proof.
  intros Hc. unfold peg_row. cbv zeta.
  set (f := fun c : nat => to_int _).
  rewrite (nth_indep _ 0 (f 0%nat)) by (rewrite List.length_map, List.length_seq; lia).
  rewrite map_nth, seq_nth by lia. reflexivity.
Qed.

Lemma lattice_symmetric_128 : forallb lattice_symmetric (zrange 1 128) = true.
Proof. vm_compute. reflexivity. Qed.

Lemma peg_y_nearest_16 : forallb peg_y_nearest (zrange 1 16) = true.
Proof. vm_compute. reflexivity. Qed.

(** C3 (as amended): [init_pins] computes the horizontal step as
    (display_width * 0.5) / (BASE_PINS - 1), the vertical step as
    (display_height / 2 - 1) / (ROWS - 1), the x-offset of a row of [count]
    pins as ((display_width - 1) - (count - 1) * step_x) * 0.5, the x of pin
    [c] as that offset plus c * step_x plus 0.5, truncated, and the y of row
    [r] as r * step_y + 0.5, truncated; on displays of 1 to 16 pages that y is
    within half a pixel of r * step_y. *)
Theorem C3_lattice_formulas W P (r c : nat) :
  (c <= r)%nat -> (r < 15)%nat ->
  let bd := init_pins W P in
  step_x bd = fdiv (fmul (of_int (display_width bd)) half) (of_int (BASE_PINS - 1))
  /\ step_y bd = fdiv (of_int (display_height bd ÷ 2 - 1)) (of_int (ROWS - 1))
  /\ Pin.x (pin_at (pins bd) r c)
     = to_int (fadd (fadd (fmul (fsub (of_int (display_width bd - 1))
                                      (fmul (of_int (Z.of_nat r)) (step_x bd))) half)
                          (fmul (of_int (Z.of_nat c)) (step_x bd))) half)
  /\ Pin.y (pin_at (pins bd) r c)
     = to_int (fadd (fmul (of_int (Z.of_nat r)) (step_y bd)) half)
  /\ (1 <= P <= 16 ->
      (Qabs (inject_Z (Pin.y (pin_at (pins bd) r c))
             - fmul (of_int (Z.of_nat r)) (step_y bd)) <= 1 # 2)%Q).
Proof.
  intros Hc Hr bd.
  destruct (init_pins_spec W P) as (Hw & Hh & Hsx & Hsy & _ & Hp & _).
  fold bd in Hw, Hh, Hsx, Hsy, Hp.
  rewrite (Hp r c) by lia. destruct (decide (c <= r)%nat); [|lia].
  cbn [Pin.x Pin.y]. rewrite Hw, Hh, Hsx, Hsy.
  split; [reflexivity|]. split; [reflexivity|]. split; [|split].
  - unfold peg_x, row_shift.
    replace (Z.of_nat r + 1 - 1) with (Z.of_nat r) by lia. reflexivity.
  - reflexivity.
  - intros HP.
    pose proof (forallb_zrange peg_y_nearest 1 16 P peg_y_nearest_16 ltac:(lia)) as Hn.
    pose proof (forallb_seq _ 15 r Hn Hr) as Hk. cbv beta in Hk.
    apply andb_true_iff in Hk. destruct Hk as [Hk _].
    apply Qle_bool_iff in Hk. exact Hk.
Qed.

Lemma C3_lattice_formulas_witness :
  let bd := init_pins 128 8 in
  (Qabs (inject_Z (Pin.y (pin_at (pins bd) 3 2))
         - fmul (of_int 3) (step_y bd)) <= 1 # 2)%Q.
Proof.
  intros bd.
  refine (proj2 (proj2 (proj2 (proj2
            (C3_lattice_formulas 128 8 3 2 _ _)))) _); lia.
Defined.

(** C3, counterexample: on the 128 x 64 display the vertical step is
    (32 - 1) / 14, which is below the (64 / 2) / 14 of the claim, and the
    x-offset is taken from display_width - 1: the first pin of the second row
    is at x = 61, where the claim's offset (128 - step_x) / 2 gives 62. *)
Lemma C3_counterexample :
  let bd := init_pins 128 8 in
  step_y bd <> spec_step_y (display_height bd)
  /\ (step_y bd < spec_step_y (display_height bd))%Q
  /\ Pin.x (pin_at (pins bd) 1 0) = 61
  /\ to_int (fadd (fadd (spec_row_shift (display_width bd) (step_x bd) 2)
                        (fmul (of_int 0) (step_x bd))) half) = 62.
Proof.
  cbv zeta.
  split; [vm_compute; intros H; discriminate H|].
  split; [vm_compute; reflexivity|].
  split; vm_compute; reflexivity.
Qed.

(** C8: in the generated lattice, row [r] has [pins_per_row[r] = r + 1] pins,
    the remaining cells of the row are never written, and on a display of
    width 1 to 128 the pins [c] and [r - c] of the row mirror each other about
    the display's horizontal centre to within one pixel: their x add up to
    display_width - 1 or to display_width. *)
Theorem C8_rows_and_symmetry W P (r c : nat) :
  1 <= W <= 128 -> (c <= r)%nat -> (r < 15)%nat ->
  let bd := init_pins W P in
  let xl := Pin.x (pin_at (pins bd) r c) in
  let xr := Pin.x (pin_at (pins bd) r (r - c)) in
  pins_per_row bd !! r = Some (Z.of_nat r + 1)
  /\ (forall c', (r < c' < 15)%nat -> pin_at (pins bd) r c' = Pin.zero)
  /\ (xl + xr = W - 1 \/ xl + xr = W)
  /\ Z.abs (xr - (display_width bd - xl)) <= 1
  /\ Z.abs (xr - (display_width bd - 1 - xl)) <= 1.
Proof.
  intros HW Hc Hr bd xl xr.
  destruct (init_pins_spec W P) as (Hw & _ & _ & _ & _ & Hp & _ & Hq & _).
  fold bd in Hw, Hp, Hq.
  assert (Hsum : xl + xr = W - 1 \/ xl + xr = W).
  { unfold xl, xr. rewrite !Hp by lia.
    destruct (decide (c <= r)%nat); [|lia].
    destruct (decide (r - c <= r)%nat); [|lia]. cbn [Pin.x].
    pose proof (forallb_zrange lattice_symmetric 1 128 W lattice_symmetric_128
                  ltac:(lia)) as Hs.
    pose proof (forallb_seq _ 15 r Hs Hr) as Hrow.
    pose proof (forallb_seq _ (S r) c Hrow ltac:(lia)) as Hcell.
    cbv beta zeta in Hcell.
    rewrite !peg_row_nth in Hcell by lia.
    apply andb_true_iff in Hcell. destruct Hcell as [Hcell _].
    apply orb_true_iff in Hcell. lia. }
  split; [apply Hq; exact Hr|]. split; [|split; [exact Hsum|]].
  - intros c' Hc'. rewrite Hp by lia. destruct (decide (c' <= r)%nat); [lia|reflexivity].
  - rewrite Hw. lia.
Qed.

Lemma C8_rows_and_symmetry_witness :
  let bd := init_pins 128 8 in
  pins_per_row bd !! 14%nat = Some 15
  /\ Z.abs (Pin.x (pin_at (pins bd) 14 11)
            - (display_width bd - Pin.x (pin_at (pins bd) 14 3))) <= 1.
Proof.
  intros bd.
  pose proof (C8_rows_and_symmetry 128 8 14 3 ltac:(lia) ltac:(lia) ltac:(lia)) as H.
  cbv zeta in H. fold bd in H. destruct H as (Hn & _ & _ & Hs & _).
  split; [exact Hn | exact Hs].
Defined.

(** ** One particle falling *)

Lemma update_ball_split bd env b k :
  Ball.active b = true ->
  let y1 := fadd (Ball.y b) fall_step in
  let d := deflects (step_y bd) y1 (Ball.last_row b) in
  update_ball bd env b k =
  (Ball.mk (if d then deflect_x (step_x bd) env (Ball.x b) k else Ball.x b)
           y1
           (negb (fle (of_int (display_height bd)) y1))
           (Ball.counted b)
           (if d then row_index (step_y bd) y1 else Ball.last_row b),
   if d then S k else k).
Proof.
  intros Ha. rewrite update_ball_unfold by exact Ha. cbv zeta.
  change (row_of bd (fadd (Ball.y b) fall_step))
    with (row_index (step_y bd) (fadd (Ball.y b) fall_step)).
  unfold deflects, deflect_x.
  destruct (negb _ && _ && _); reflexivity.
Qed.

(** A fall splits into its vertical part, which no random draw influences,
    and the drift of x. *)
Lemma fall_split bd env fuel : forall b k,
  Ball.active b = true ->
  let '(yf, lrf, af, rows) :=
    fall_rows (step_y bd) (display_height bd) fuel (Ball.y b) (Ball.last_row b) in
  fall bd env fuel b k
  = (Ball.mk (drift (step_x bd) env (length rows) (Ball.x b) k) yf af
             (Ball.counted b) lrf,
     (k + length rows)%nat, rows).
Proof.
  induction fuel as [|fuel IH]; intros b k Ha.
  - cbn [fall_rows fall length drift]. rewrite Nat.add_0_r.
    destruct b; cbn in *. subst. reflexivity.
  - cbn [fall_rows fall]. rewrite Ha.
    rewrite (update_ball_split bd env b k Ha). cbv zeta.
    set (y1 := fadd (Ball.y b) fall_step).
    set (d := deflects (step_y bd) y1 (Ball.last_row b)).
    set (lr1 := if d then row_index (step_y bd) y1 else Ball.last_row b).
    destruct (fle (of_int (display_height bd)) y1) eqn:Hexit.
    + (* the ball leaves the display in this call *)
      cbn [negb].
      destruct fuel; cbn [fall Ball.active];
        destruct d; cbn [length drift];
        rewrite ?Nat.eqb_refl, ?Nat.add_0_r;
        try (replace (S k =? k)%nat with false by (symmetry; apply Nat.eqb_neq; lia));
        cbn [Ball.last_row]; rewrite ?Nat.add_1_r; reflexivity.
    + cbn [negb].
      set (b1 := Ball.mk (if d then deflect_x (step_x bd) env (Ball.x b) k else Ball.x b)
                         y1 true (Ball.counted b) lr1).
      specialize (IH b1 (if d then S k else k) eq_refl).
      cbn [Ball.y Ball.last_row Ball.x Ball.counted b1] in IH.
      destruct (fall_rows (step_y bd) (display_height bd) fuel y1 lr1)
        as [[[yf lrf] af] rows].
      rewrite IH. destruct d.
      * replace (S k + length rows =? k)%nat with false
          by (symmetry; apply Nat.eqb_neq; lia).
        replace (S k =? k)%nat with false by (symmetry; apply Nat.eqb_neq; lia).
        cbn [length drift Ball.last_row]. f_equal. f_equal. lia.
      * rewrite Nat.eqb_refl. reflexivity.
Qed.

(** Once the ball has left the display, more calls change nothing. *)
Lemma fall_rows_more sy dh (m : nat) : forall fuel y lr yf lrf rows,
  fall_rows sy dh fuel y lr = (yf, lrf, false, rows) ->
  fall_rows sy dh (fuel + m) y lr = (yf, lrf, false, rows).
Proof.
  induction fuel as [|fuel IH]; intros y lr yf lrf rows H.
  - cbn in H. discriminate H.
  - cbn [Nat.add fall_rows] in *.
    destruct (fle (of_int dh) (fadd y fall_step)); [exact H|].
    destruct (fall_rows sy dh fuel _ _) as [[[yf' lrf'] af'] rows'] eqn:E.
    assert (af' = false) as -> by (destruct (deflects _ _ _); congruence).
    rewrite (IH _ _ _ _ _ E). exact H.
Qed.

(** One more call of [update_ball] on a ball that is still falling. *)
Lemma fall_rows_snoc sy dh : forall (n : nat) y lr yf lrf rows,
  fall_rows sy dh n y lr = (yf, lrf, true, rows) ->
  fall_rows sy dh (S n) y lr
  = (fadd yf fall_step,
     (if deflects sy (fadd yf fall_step) lrf
      then row_index sy (fadd yf fall_step) else lrf),
     negb (fle (of_int dh) (fadd yf fall_step)),
     rows ++ (if deflects sy (fadd yf fall_step) lrf
              then [row_index sy (fadd yf fall_step)] else [])).
Proof.
  induction n as [|n IH]; intros y lr yf lrf rows H.
  - cbn [fall_rows] in H. injection H as -> -> <-.
    cbn [fall_rows].
    destruct (fle (of_int dh) (fadd yf fall_step));
      destruct (deflects sy (fadd yf fall_step) lrf); reflexivity.
  - remember (S n) as n1 eqn:En1. cbn [fall_rows]. subst n1.
    cbn [fall_rows] in H.
    set (y1 := fadd y fall_step) in *.
    set (d := deflects sy y1 lr) in *.
    set (lr1 := if d then row_index sy y1 else lr) in *.
    destruct (fle (of_int dh) y1); [discriminate H|].
    destruct (fall_rows sy dh n y1 lr1) as [[[yf' lrf'] af'] rows'] eqn:E.
    assert (af' = true) as -> by congruence.
    rewrite (IH y1 lr1 yf' lrf' rows' E).
    assert (yf' = yf) as -> by congruence.
    assert (lrf' = lrf) as -> by congruence.
    assert (Hr : rows = if d then lr1 :: rows' else rows') by congruence.
    rewrite Hr. destruct d; reflexivity.
Qed.

(** With every draw odd, the drift is a plain sum of [step_x]. *)
Lemma drift_right sx env (n : nat) : forall x k,
  (forall j, Z.land (rand env j) 1 mod 256 <> 0) ->
  drift sx env n x k = Nat.iter n (fun x => fadd x sx) x.
Proof.
  induction n as [|n IH]; intros x k Hodd; [reflexivity|].
  cbn [drift]. rewrite IH by exact Hodd. rewrite Nat.iter_succ_r.
  unfold deflect_x. destruct (Z.eqb_spec (Z.land (rand env k) 1 mod 256) 0) as [E|E].
  - exfalso. exact (Hodd k E).
  - reflexivity.
Qed.

(** On displays of 48 to 80 rows the vertical part of a fall from the apex is
    over within 54 calls and passes the rows 1 to 14, one deflection each. *)
Lemma fall_rows_from_apex P :
  6 <= P <= 10 ->
  exists yf, fall_rows (lattice_step_y P) (P * 8) 54 0%Q (-1)
             = (yf, 14, false, [1; 2; 3; 4; 5; 6; 7; 8; 9; 10; 11; 12; 13; 14]).
Proof.
  intros HP.
  assert (P = 6 \/ P = 7 \/ P = 8 \/ P = 9 \/ P = 10) as [->|[->|[->|[->| ->]]]] by lia;
    eexists; vm_compute; reflexivity.
Qed.

Lemma right_drift_128 : forallb (right_drift_ok 14) (zrange 1 128) = true.
Proof. vm_compute. reflexivity. Qed.

(** ** Reachable x positions *)

Lemma step_states_in sx env l m x k :
  In (m, x) l ->
  In (m + (if Z.land (rand env k) 1 mod 256 =? 0 then -1 else 1),
      deflect_x sx env x k) (step_states sx l).
Proof.
  intros Hin. unfold step_states. apply nodup_In. apply in_flat_map.
  exists (m, x). split; [exact Hin|]. unfold deflect_x.
  destruct (Z.land (rand env k) 1 mod 256 =? 0); [left | right; left]; reflexivity.
Qed.

Lemma drift_states sx env (n : nat) : forall l m x k,
  In (m, x) l ->
  In (m + net_right env n k, drift sx env n x k) (Nat.iter n (step_states sx) l).
Proof.
  induction n as [|n IH]; intros l m x k Hin.
  - cbn [net_right drift Nat.iter]. rewrite Z.add_0_r. exact Hin.
  - rewrite Nat.iter_succ_r. cbn [net_right drift]. rewrite Z.add_assoc.
    apply IH. apply step_states_in. exact Hin.
Qed.

Lemma drift_ok_128 : forallb (drift_ok 14) (zrange 1 128) = true.
Proof. vm_compute. reflexivity. Qed.

Lemma net_right_bounds env (n : nat) : forall k,
  - Z.of_nat n <= net_right env n k <= Z.of_nat n.
Proof.
  induction n as [|n IH]; intros k; cbn [net_right]; [lia|].
  specialize (IH (S k)).
  destruct (Z.land (rand env k) 1 mod 256 =? 0); lia.
Qed.

(** C2 (as amended): on a display of 48 to 80 rows (the board's has 64), a
    particle released at the apex and advanced by [update_ball] until it
    leaves the display is deflected once at each of the rows 1 to ROWS - 1 and
    never at row 0, the first call having already taken it into row 1: it is
    deflected ROWS - 1 = 14 times, drawing 14 values of [rand()].  Each
    deflection moves x by one horizontal step, [x + step_x] when the value
    drawn is odd and [x - step_x] when it is even, in binary32: the final x is
    the apex x after these 14 additions, and (display 1 to 128 pixels wide)
    it is apex_x + (rights - lefts) * step_x to within a thousandth of a
    pixel.  When every draw sends it to the right, its final x is
    apex_x + 14 * step_x to within a thousandth of a pixel. *)
Theorem C2_deflections W P env b0 k fuel :
  6 <= P <= 10 -> (54 <= fuel)%nat ->
  let bd := init_pins W P in
  let res := fall bd env fuel (init_ball bd b0) k in
  Ball.active res.1.1 = false
  /\ res.2 = [1; 2; 3; 4; 5; 6; 7; 8; 9; 10; 11; 12; 13; 14]
  /\ res.1.2 = (k + 14)%nat
  /\ Ball.x res.1.1
     = drift (step_x bd) env 14 (of_int (Pin.x (pin_at (pins bd) 0 0))) k
  /\ (1 <= W <= 128 ->
      - 14 <= net_right env 14 k <= 14
      /\ (Qabs (Ball.x res.1.1
                - (inject_Z (Pin.x (pin_at (pins bd) 0 0))
                   + inject_Z (net_right env 14 k) * step_x bd)) <= 1 # 1000)%Q)
  /\ ((forall j, Z.land (rand env j) 1 mod 256 <> 0) -> 1 <= W <= 128 ->
      (Qabs (Ball.x res.1.1
             - (inject_Z (Pin.x (pin_at (pins bd) 0 0)) + 14 * step_x bd)) <= 1 # 1000)%Q).
Proof.
  intros HP Hfuel bd res.
  destruct (init_pins_spec W P) as (_ & Hh & Hsx & Hsy & _ & Hp & _).
  fold bd in Hh, Hsx, Hsy, Hp.
  destruct (fall_rows_from_apex P HP) as [yf Hrows].
  apply (fall_rows_more _ _ (fuel - 54)) in Hrows.
  replace (54 + (fuel - 54))%nat with fuel in Hrows by lia.
  pose proof (fall_split bd env fuel (init_ball bd b0) k eq_refl) as Hs.
  cbn [init_ball Ball.y Ball.last_row Ball.x Ball.counted] in Hs.
  rewrite Hsy, Hh, Hrows in Hs. fold res in Hs. rewrite Hs.
  cbn [fst snd length Ball.active Ball.x].
  assert (Hapex : Pin.x (pin_at (pins bd) 0 0) = peg_x W 0 0).
  { rewrite Hp by lia. reflexivity. }
  split; [reflexivity|]. split; [reflexivity|]. split; [reflexivity|].
  split; [reflexivity|]. split.
  - intros HW. split; [exact (net_right_bounds env 14 k)|].
    rewrite Hsx, Hapex.
    pose proof (forallb_zrange (drift_ok 14) 1 128 W drift_ok_128 ltac:(lia)) as Hd.
    unfold drift_ok in Hd. cbv zeta in Hd.
    assert (Hin : In (0 + net_right env 14 k,
                      drift (lattice_step_x W) env 14 (of_int (peg_x W 0 0)) k)
                     (states_after (lattice_step_x W) 14 (of_int (peg_x W 0 0)))).
    { unfold states_after. apply drift_states. left. reflexivity. }
    pose proof (proj1 (forallb_forall _ _) Hd _ Hin) as Hone.
    cbv beta iota in Hone. apply Qle_bool_iff in Hone.
    rewrite Z.add_0_l in Hone. exact Hone.
  - intros Hodd HW.
    rewrite (drift_right _ _ _ _ _ Hodd), Hsx, Hapex.
    pose proof (forallb_zrange (right_drift_ok 14) 1 128 W right_drift_128 ltac:(lia)) as Hd.
    unfold right_drift_ok in Hd. apply Qle_bool_iff in Hd. exact Hd.
Qed.

Lemma C2_deflections_witness :
  let bd := init_pins 128 8 in
  let res := fall bd env_always_right 60 (init_ball bd Ball.zero) 0 in
  let res' := fall bd env_full_run 60 (init_ball bd Ball.zero) 0 in
  (res.2 = [1; 2; 3; 4; 5; 6; 7; 8; 9; 10; 11; 12; 13; 14]
   /\ (Qabs (Ball.x res.1.1
             - (inject_Z (Pin.x (pin_at (pins bd) 0 0)) + 14 * step_x bd)) <= 1 # 1000)%Q)
  /\ (Ball.x res'.1.1
      = drift (step_x bd) env_full_run 14 (of_int (Pin.x (pin_at (pins bd) 0 0))) 0
      /\ (Qabs (Ball.x res'.1.1
                - (inject_Z (Pin.x (pin_at (pins bd) 0 0))
                   + inject_Z (net_right env_full_run 14 0) * step_x bd)) <= 1 # 1000)%Q).
Proof.
  pose proof (C2_deflections 128 8 env_always_right Ball.zero 0 60
                ltac:(lia) ltac:(lia)) as H.
  pose proof (C2_deflections 128 8 env_full_run Ball.zero 0 60
                ltac:(lia) ltac:(lia)) as H'.
  intros bd res res'.
  destruct H as (_ & Hrows & _ & _ & _ & Hx).
  destruct H' as (_ & _ & _ & Hd & Hn & _).
  split; [split; [exact Hrows|] | split; [exact Hd|]].
  - refine (Hx _ _); [|lia]. intros j E. discriminate E.
  - exact (proj2 (Hn ltac:(lia))).
Defined.

(** C2, counterexample: on the 128 x 64 display, with every deflection to
    the right, the particle released at the apex leaves the display after
    being deflected at the rows 1 to 14 only, 14 times and not ROWS = 15, and
    its final x is more than four pixels short of apex_x + ROWS * step_x. *)
Lemma C2_counterexample :
  let bd := init_pins 128 8 in
  let res := fall bd env_always_right 100 (init_ball bd Ball.zero) 0 in
  Ball.active res.1.1 = false
  /\ res.2 = [1; 2; 3; 4; 5; 6; 7; 8; 9; 10; 11; 12; 13; 14]
  /\ length res.2 <> Z.to_nat ROWS
  /\ ~ In 0 res.2
  /\ (4 < Qabs (Ball.x res.1.1
                - (inject_Z (Pin.x (pin_at (pins bd) 0 0))
                   + inject_Z ROWS * step_x bd)))%Q.
Proof.
  cbv zeta.
  split; [vm_compute; reflexivity|].
  split; [vm_compute; reflexivity|].
  split; [vm_compute; intros H; discriminate H|].
  split; [vm_compute; intuition discriminate|].
  vm_compute. reflexivity.
Qed.

(** ** A complete run *)

(** C1: the run of TOTAL_BALLS = 100 balls on the 128 x 64 display.  The
    controller is still running after 141 iterations and has stopped after
    142, with all 100 balls released and no slot active; the bins then add up
    to 99: the last ball left the display in the iteration that stopped the
    run and was never credited to a bin.  The next iteration changes nothing
    but the iteration count. *)
Theorem C1_last_ball_never_counted :
  let bd := init_pins 128 8 in
  let s141 := main_loop bd env_full_run 141 (main_init env_full_run) in
  let s := loop_body bd env_full_run s141 in
  running s141 = true
  /\ running s = false
  /\ ball_count s = TOTAL_BALLS
  /\ any_active s = false
  /\ sum_bins s = 99
  /\ Ball.counted (balls s !!! 99%nat) = false
  /\ loop_body bd env_full_run s = next_iteration s.
Proof. vm_compute. repeat split. Qed.


(** ** Conservation: the bins count the counted balls *)

Lemma sum_insert_total (l : list Z) (i : nat) (v : Z) :
  (i < length l)%nat ->
  fold_right Z.add 0 (<[i := v]> l) = fold_right Z.add 0 l - l !!! i + v.
Proof.
  revert i. induction l as [|a l IH]; intros [|i] Hi; cbn [length] in Hi; try lia.
  - change (<[0%nat := v]> (a :: l)) with (v :: l).
    change ((a :: l) !!! 0%nat) with a. cbn [fold_right]. lia.
  - change (<[S i := v]> (a :: l)) with (a :: <[i := v]> l).
    change ((a :: l) !!! S i) with (l !!! i). cbn [fold_right].
    rewrite IH by lia. lia.
Qed.

Lemma counted_count_insert (l : list Ball.t) (i : nat) (b : Ball.t) :
  (i < length l)%nat ->
  counted_count (<[i := b]> l)
  = counted_count l - counted_flag (l !!! i) + counted_flag b.
Proof.
  intros Hi. unfold counted_count.
  rewrite list_fmap_insert, sum_insert_total by (rewrite length_fmap; exact Hi).
  rewrite (list_lookup_total_fmap counted_flag l i Hi). reflexivity.
Qed.

Lemma counted_count_nonneg l : 0 <= counted_count l.
Proof.
  unfold counted_count. induction l as [|b l IH]; cbn; [lia|].
  unfold counted_flag at 1. destruct (Ball.counted b); lia.
Qed.

(** One slot of the loop over the released balls. *)
Lemma service_ball_spec bd env (i : nat) s :
  wf s -> (i < Z.to_nat TOTAL_BALLS)%nat ->
  let s' := service_ball bd env i s in
  wf s'
  /\ ctl s' = ctl s
  /\ (forall j, j <> i -> balls s' !! j = balls s !! j)
  /\ ball_post bd (balls s !!! i) (balls s' !!! i)
  /\ sum_bins s' - counted_count (balls s') = sum_bins s - counted_count (balls s)
  /\ (forall j, bins s !!! j <= bins s' !!! j)
  /\ (rand_calls s <= rand_calls s')%nat.
Proof.
  intros [Hlb Hln] Hi s'. unfold s', service_ball, ball_post.
  destruct (Ball.active (balls s !!! i)) eqn:Ha.
  - (* the ball is falling *)
    rewrite (update_ball_split bd env _ _ Ha). cbv zeta.
    unfold set_rand_calls, set_balls, wf, ctl, sum_bins.
    cbn [balls bins running ball_count last_rel last_btn_a last_btn_b rand_calls
         clock_reads iteration].
    rewrite length_insert, counted_count_insert by lia.
    rewrite list_lookup_total_insert_eq by lia.
    unfold counted_flag. cbn [Ball.y Ball.active Ball.counted].
    repeat split; try assumption; try lia;
      try (intros j Hj; apply list_lookup_insert_ne; congruence);
      try (destruct (deflects _ _ _); lia).
  - destruct (Ball.counted (balls s !!! i)) eqn:Hc; cbn [negb].
    + (* already counted: nothing to do *)
      rewrite ?Hc. repeat split; try assumption; try lia; try reflexivity.
    + (* the ball is put in a bin *)
      pose proof (bin_scan_range bd (balls s !!! i)) as Hr.
      unfold settle, set_rand_calls, set_balls, set_bins, wf, ctl, sum_bins, mark_counted.
      cbn [balls bins running ball_count last_rel last_btn_a last_btn_b rand_calls
           clock_reads iteration].
      set (idx := Z.to_nat (snd (bin_scan bd (balls s !!! i)))).
      assert (Hidx : (idx < length (bins s))%nat).
      { rewrite Hln. unfold idx, NUM_BINS in *. lia. }
      rewrite !length_insert, counted_count_insert, sum_insert_total by lia.
      rewrite list_lookup_total_insert_eq by lia.
      unfold counted_flag. rewrite Hc. cbn [Ball.y Ball.active Ball.counted].
      repeat split; try assumption; try lia.
      * intros j Hj. apply list_lookup_insert_ne. congruence.
      * intros j. destruct (decide (j = idx)) as [->|Hne].
        -- rewrite list_lookup_total_insert_eq by lia. lia.
        -- rewrite list_lookup_total_insert_ne by congruence. lia.
Qed.

Lemma lookup_total_eq {A : Type} `{Inhabited A} (l1 l2 : list A) (i : nat) :
  l1 !! i = l2 !! i -> l1 !!! i = l2 !!! i.
Proof. intros E. rewrite !list_lookup_total_alt, E. reflexivity. Qed.

(** The loop over the released balls (lines 194-208). *)
Lemma service_loop_spec bd env (n : nat) s :
  wf s -> (n <= Z.to_nat TOTAL_BALLS)%nat ->
  let s' := for_range (Z.of_nat n) (service_ball bd env) s in
  wf s'
  /\ ctl s' = ctl s
  /\ (forall j, (n <= j)%nat -> balls s' !! j = balls s !! j)
  /\ (forall i, (i < n)%nat -> ball_post bd (balls s !!! i) (balls s' !!! i))
  /\ sum_bins s' - counted_count (balls s') = sum_bins s - counted_count (balls s)
  /\ (forall j, bins s !!! j <= bins s' !!! j)
  /\ (rand_calls s <= rand_calls s')%nat.
Proof.
  intros Hwf Hn.
  refine (for_range_ind (fun m t =>
    (m <= n)%nat ->
    wf t
    /\ ctl t = ctl s
    /\ (forall j, (m <= j)%nat -> balls t !! j = balls s !! j)
    /\ (forall i, (i < m)%nat -> ball_post bd (balls s !!! i) (balls t !!! i))
    /\ sum_bins t - counted_count (balls t) = sum_bins s - counted_count (balls s)
    /\ (forall j, bins s !!! j <= bins t !!! j)
    /\ (rand_calls s <= rand_calls t)%nat) n _ s _ _ (le_n n)).
  - intros _. split; [exact Hwf|].
    repeat split; try assumption; try reflexivity; try lia.
  - intros i t Hi IH Hle.
    destruct IH as (Hwt & Hct & Hrest & Hdone & Hdiff & Hmono & Hrand); [lia|].
    destruct (service_ball_spec bd env i t Hwt ltac:(lia))
      as (Hw' & Hc' & Ho' & Hp' & Hd' & Hm' & Hr').
    split; [exact Hw'|]. split; [congruence|]. split; [|split; [|split; [|split]]].
    + intros j Hj. rewrite Ho' by lia. apply Hrest. lia.
    + intros k Hk. destruct (decide (k = i)) as [->|Hne].
      * rewrite <- (lookup_total_eq _ _ i (Hrest i (le_n i))). exact Hp'.
      * rewrite (lookup_total_eq _ _ k (Ho' k Hne)). apply Hdone. lia.
    + lia.
    + intros j. specialize (Hmono j). specialize (Hm' j). lia.
    + lia.
Qed.

(** The end-of-run test looks at every slot. *)
Lemma any_active_spec s :
  any_active s = true
  <-> exists i, (i < Z.to_nat TOTAL_BALLS)%nat /\ Ball.active (balls s !!! i) = true.
Proof.
  unfold any_active. change TOTAL_BALLS with (Z.of_nat 100) at 1.
  change (Z.to_nat TOTAL_BALLS) with 100%nat.
  apply (for_range_ind (fun n (any : bool) =>
    any = true <-> exists i, (i < n)%nat /\ Ball.active (balls s !!! i) = true)).
  - split; [discriminate|]. intros (i & Hi & _). lia.
  - intros i any Hi IH. destruct any.
    + split; [intros _|reflexivity].
      destruct (proj1 IH eq_refl) as (j & Hj & Ha). exists j. split; [lia | exact Ha].
    + split.
      * intros Ha. exists i. split; [lia | exact Ha].
      * intros (j & Hj & Ha). destruct (decide (j = i)) as [->|Hne]; [exact Ha|].
        exfalso. assert (E : false = true); [|discriminate E].
        apply IH. exists j. split; [lia | exact Ha].
Qed.

Lemma check_finished_spec s :
  balls (check_finished s) = balls s
  /\ bins (check_finished s) = bins s
  /\ ball_count (check_finished s) = ball_count s
  /\ running (check_finished s)
     = running s && negb ((TOTAL_BALLS <=? ball_count s) && negb (any_active s)).
Proof.
  unfold check_finished.
  destruct (TOTAL_BALLS <=? ball_count s), (any_active s);
    cbn [negb andb set_running balls bins ball_count running];
    rewrite ?andb_true_r, ?andb_false_r; repeat split.
Qed.

(** Lines 180-185: at most one ball is released, into the first free slot. *)
Lemma release_ball_spec bd env s :
  let s' := release_ball bd env s in
  bins s' = bins s
  /\ running s' = running s
  /\ rand_calls s' = rand_calls s
  /\ iteration s' = iteration s
  /\ last_btn_a s' = last_btn_a s
  /\ last_btn_b s' = last_btn_b s
  /\ ((ball_count s' = ball_count s /\ balls s' = balls s)
      \/ (ball_count s < TOTAL_BALLS
          /\ RELEASE_DELAY <= time_us env (clock_reads s) - last_rel s
          /\ ball_count s' = ball_count s + 1
          /\ balls s' = <[Z.to_nat (ball_count s)
                          := init_ball bd (balls s !!! Z.to_nat (ball_count s))]> (balls s)
          /\ last_rel s' = time_us env (S (clock_reads s)))).
Proof.
  unfold release_ball.
  destruct (ball_count s <? TOTAL_BALLS) eqn:Hlt; [|cbv zeta; repeat split; left; split; reflexivity].
  unfold get_absolute_time. cbn [last_rel ball_count balls clock_reads].
  destruct (RELEASE_DELAY <=? time_us env (clock_reads s) - last_rel s) eqn:Hd.
  - cbv zeta. repeat split. right.
    apply Z.ltb_lt in Hlt. apply Z.leb_le in Hd. repeat split; assumption.
  - cbv zeta. repeat split. left. split; reflexivity.
Qed.

Lemma sum_all_zero (l : list Z) :
  (forall i v, l !! i = Some v -> v = 0) -> fold_right Z.add 0 l = 0.
Proof.
  induction l as [|a l IH]; intros Hall; [reflexivity|]. cbn [fold_right].
  rewrite (Hall 0%nat a eq_refl), IH; [reflexivity|].
  intros i v Hv. apply (Hall (S i) v). exact Hv.
Qed.

Lemma clear_bins_sum l :
  (length l <= 7)%nat -> fold_right Z.add 0 (clear_bins l) = 0.
Proof.
  intros Hl. apply sum_all_zero. intros i v. rewrite clear_bins_lookup.
  case_decide as Hi.
  - destruct (l !! i); cbn; congruence.
  - intros Hv. apply lookup_lt_Some in Hv. lia.
Qed.

Lemma clear_balls_count l :
  (length l <= 100)%nat -> counted_count (clear_balls l) = 0.
Proof.
  intros Hl. unfold counted_count. apply sum_all_zero. intros i v.
  rewrite list_lookup_fmap, clear_balls_lookup. case_decide as Hi.
  - destruct (l !! i); cbn; [|discriminate]. intros E. injection E as <-. reflexivity.
  - intros Hv. destruct (l !! i) eqn:E; [|discriminate Hv].
    apply lookup_lt_Some in E. lia.
Qed.

Lemma clear_balls_flags l (i : nat) :
  (length l <= 100)%nat ->
  Ball.active (clear_balls l !!! i) = false /\ Ball.counted (clear_balls l !!! i) = false.
Proof.
  intros Hl. destruct (decide (i < 100)%nat) as [Hi|Hi]; [apply clear_balls_total; exact Hi|].
  rewrite list_lookup_total_alt, lookup_ge_None_2 by (rewrite clear_balls_length; lia).
  split; reflexivity.
Qed.

Lemma counted_count_le (l : list Ball.t) : forall n : nat,
  (forall i, (n <= i)%nat -> Ball.counted (l !!! i) = false) ->
  counted_count l <= Z.of_nat n.
Proof.
  unfold counted_count.
  induction l as [|b l IH]; intros n Hall; cbn [fmap list_fmap fold_right]; [lia|].
  destruct n as [|n].
  - assert (Hb : Ball.counted b = false) by exact (Hall 0%nat (le_n 0)).
    assert (fold_right Z.add 0 (counted_flag <$> l) <= Z.of_nat 0).
    { apply IH. intros i Hi. apply (Hall (S i)). lia. }
    unfold counted_flag at 1. rewrite Hb. lia.
  - assert (fold_right Z.add 0 (counted_flag <$> l) <= Z.of_nat n).
    { apply IH. intros i Hi. apply (Hall (S i)). lia. }
    unfold counted_flag at 1. destruct (Ball.counted b); lia.
Qed.

(** [inv0] only reads the arrays and [ball_count]. *)
Lemma inv0_ext s s' :
  balls s' = balls s -> bins s' = bins s -> ball_count s' = ball_count s ->
  inv0 s -> inv0 s'.
Proof.
  unfold inv0, wf, sum_bins. intros -> -> ->. exact (fun H => H).
Qed.

Lemma inv0_cleared s n :
  wf s -> 0 <= n <= TOTAL_BALLS ->
  inv0 (mkState (clear_balls (balls s)) (clear_bins (bins s)) (running s) n
                (last_rel s) (last_btn_a s) (last_btn_b s) (rand_calls s)
                (clock_reads s) (iteration s)).
Proof.
  intros [Hlb Hln] Hn. unfold inv0, wf, sum_bins.
  cbn [balls bins ball_count].
  rewrite clear_balls_length, clear_bins_length, clear_bins_sum, clear_balls_count
    by (rewrite ?Hlb, ?Hln; unfold TOTAL_BALLS, NUM_BINS; lia).
  repeat split; try assumption; try lia;
    apply clear_balls_flags; rewrite Hlb; unfold TOTAL_BALLS; lia.
Qed.

Lemma inv0_handle_start env a s : inv0 s -> inv0 (handle_start env a s).
Proof.
  intros Hinv. unfold handle_start.
  destruct (a && negb (last_btn_a s) && negb (running s)); [|exact Hinv].
  rewrite reset_simulation_eq.
  destruct Hinv as (Hwf & _).
  refine (inv0_ext _ _ _ _ _ (inv0_cleared s 0 Hwf _)); try reflexivity.
  unfold TOTAL_BALLS. lia.
Qed.

Lemma inv0_handle_reset b s : inv0 s -> inv0 (handle_reset b s).
Proof.
  intros Hinv. unfold handle_reset.
  destruct (b && negb (last_btn_b s)); [|exact Hinv].
  rewrite reset_simulation_eq.
  destruct Hinv as (Hwf & Hn & _).
  refine (inv0_ext _ _ _ _ _ (inv0_cleared s (ball_count s) Hwf Hn)); reflexivity.
Qed.

Lemma inv0_release bd env s : inv0 s -> inv0 (release_ball bd env s).
Proof.
  intros Hinv.
  destruct (release_ball_spec bd env s) as (Hb & _ & _ & _ & _ & _ & Hcase).
  destruct Hcase as [[Hn Hl] | (Hlt & _ & Hn & Hl & _)].
  - exact (inv0_ext _ _ Hl Hb Hn Hinv).
  - destruct Hinv as ((Hlb & Hln) & Hr & Hsum & Hfree).
    unfold inv0, wf, sum_bins in *. rewrite Hb, Hl, Hn.
    set (k := Z.to_nat (ball_count s)) in *.
    assert (Hk : (k < length (balls s))%nat).
    { rewrite Hlb. unfold k, TOTAL_BALLS in *. lia. }
    rewrite length_insert, counted_count_insert by exact Hk.
    destruct (Hfree k (le_n k)) as [_ Hck].
    unfold counted_flag. rewrite Hck. cbn [init_ball Ball.counted].
    repeat split; try assumption; try lia;
      rewrite list_lookup_total_insert_ne by lia; apply Hfree; lia.
Qed.

Lemma inv0_run_frame bd env s : inv0 s -> inv0 (run_frame bd env s).
Proof.
  intros Hinv. unfold run_frame. destruct (running s); [|exact Hinv].
  pose proof (inv0_release bd env s Hinv) as H1.
  set (s1 := release_ball bd env s) in *.
  destruct H1 as (Hwf & Hr & Hsum & Hfree).
  destruct (check_finished_spec (for_range (ball_count s1) (service_ball bd env) s1))
    as (Eb & En & Ec & _).
  refine (inv0_ext _ _ Eb En Ec _).
  rewrite <- (Z2Nat.id (ball_count s1)) by lia.
  destruct (service_loop_spec bd env (Z.to_nat (ball_count s1)) s1 Hwf ltac:(lia))
    as (Hw' & Hc' & Hrest & _ & Hdiff & _).
  assert (Hcount : ball_count (for_range (Z.of_nat (Z.to_nat (ball_count s1)))
                                 (service_ball bd env) s1) = ball_count s1).
  { unfold ctl in Hc'. congruence. }
  unfold inv0. rewrite Hcount.
  split; [exact Hw'|]. split; [exact Hr|]. split; [lia|].
  intros i Hi. rewrite (lookup_total_eq _ _ i (Hrest i Hi)). apply Hfree. exact Hi.
Qed.

Lemma inv0_loop_body bd env s : inv0 s -> inv0 (loop_body bd env s).
Proof.
  intros Hinv. unfold loop_body.
  refine (inv0_ext _ _ eq_refl eq_refl eq_refl _).
  apply inv0_run_frame.
  refine (inv0_ext _ _ eq_refl eq_refl eq_refl _).
  apply inv0_handle_reset, inv0_handle_start, Hinv.
Qed.

Lemma inv0_main_init env : inv0 (main_init env).
Proof.
  unfold main_init. rewrite reset_simulation_eq. cbv zeta.
  refine (inv0_ext _ _ eq_refl eq_refl eq_refl
            (inv0_cleared (mkState (replicate (Z.to_nat TOTAL_BALLS) Ball.zero)
                                   (replicate (Z.to_nat NUM_BINS) 0)
                                   false 0 0 false false 0%nat 0%nat 0%nat) 0 _ _)).
  - split; apply length_replicate.
  - unfold TOTAL_BALLS. lia.
Qed.

Lemma inv0_main_loop bd env n : forall s, inv0 s -> inv0 (main_loop bd env n s).
Proof.
  induction n as [|n IH]; intros s Hinv; [exact Hinv|].
  cbn [main_loop]. apply IH, inv0_loop_body, Hinv.
Qed.

Lemma inv0_main W P env n : inv0 (main W P env n).
Proof. apply inv0_main_loop, inv0_main_init. Qed.

Lemma main_loop_succ bd env n : forall s,
  main_loop bd env (S n) s = loop_body bd env (main_loop bd env n s).
Proof.
  induction n as [|n IH]; intros s; [reflexivity|].
  change (main_loop bd env (S (S n)) s) with (main_loop bd env (S n) (loop_body bd env s)).
  rewrite IH. reflexivity.
Qed.

Lemma main_succ W P env n :
  main W P env (S n) = loop_body (init_pins W P) env (main W P env n).
Proof. apply main_loop_succ. Qed.

Lemma iteration_loop_body bd env s : iteration (loop_body bd env s) = S (iteration s).
Proof.
  unfold loop_body, next_iteration. cbn [iteration]. f_equal.
  assert (Hrf : forall t, iteration (run_frame bd env t) = iteration t).
  { intros t. unfold run_frame. destruct (running t); [|reflexivity].
    destruct (check_finished_spec (for_range (ball_count (release_ball bd env t))
                (service_ball bd env) (release_ball bd env t))) as (_ & _ & _ & _).
    unfold check_finished.
    set (t1 := release_ball bd env t).
    assert (Hc : iteration (for_range (ball_count t1) (service_ball bd env) t1)
                 = iteration t1).
    { destruct (Z.le_gt_cases (ball_count t1) 0) as [Hle|Hgt].
      - rewrite for_range_nonpos by exact Hle. reflexivity.
      - rewrite <- (Z2Nat.id (ball_count t1)) by lia.
        apply (for_range_ind (fun _ u => iteration u = iteration t1)); [reflexivity|].
        intros i u _ Hu. rewrite <- Hu. unfold service_ball.
        destruct (Ball.active (balls u !!! i)).
        + destruct (update_ball bd env (balls u !!! i) (rand_calls u)). reflexivity.
        + destruct (negb (Ball.counted (balls u !!! i))); reflexivity. }
    destruct (release_ball_spec bd env t) as (_ & _ & _ & Hit & _).
    fold t1 in Hit.
    destruct (TOTAL_BALLS <=? _); [destruct (negb _)|]; cbn [set_running iteration]; congruence. }
  rewrite Hrf. cbn [set_last_btns iteration].
  unfold handle_reset, handle_start.
  destruct (negb (gpio_get env BUTTON_B_PIN (iteration s)) && _);
    destruct (negb (gpio_get env BUTTON_A_PIN (iteration s)) && _ && _);
    rewrite ?reset_simulation_eq; reflexivity.
Qed.

Lemma iteration_main W P env n : iteration (main W P env n) = n.
Proof.
  induction n as [|n IH]; [unfold main, main_init; rewrite reset_simulation_eq; reflexivity|].
  rewrite main_succ, iteration_loop_body, IH. reflexivity.
Qed.

(** X1: in every state the program reaches, on any display and whatever the
    buttons, the clock and [rand()] do, the bins add up to the number of
    slots whose [counted] flag is set, and to no more than the number of
    balls released. *)
Theorem bins_count_the_counted_balls W P env n :
  let s := main W P env n in
  sum_bins s = counted_count (balls s)
  /\ 0 <= sum_bins s <= ball_count s.
Proof.
  intros s. destruct (inv0_main W P env n) as (_ & Hn & Hsum & Hfree). fold s in Hn, Hsum, Hfree.
  split; [exact Hsum|]. rewrite Hsum. split; [apply counted_count_nonneg|].
  rewrite <- (Z2Nat.id (ball_count s)) by lia. apply counted_count_le.
  intros i Hi. apply Hfree. exact Hi.
Qed.

(** X2: [ball_count] never leaves [0, TOTAL_BALLS], the two arrays keep their
    sizes, and every slot at or above [ball_count] is inactive and uncounted:
    a release always finds a free slot inside the array. *)
Theorem ball_count_within_capacity W P env n :
  let s := main W P env n in
  0 <= ball_count s <= TOTAL_BALLS
  /\ length (balls s) = Z.to_nat TOTAL_BALLS
  /\ length (bins s) = Z.to_nat NUM_BINS
  /\ (forall i, (Z.to_nat (ball_count s) <= i)%nat ->
        Ball.active (balls s !!! i) = false /\ Ball.counted (balls s !!! i) = false).
Proof.
  intros s. destruct (inv0_main W P env n) as ((Hlb & Hln) & Hn & _ & Hfree).
  fold s in Hlb, Hln, Hn, Hfree.
  split; [exact Hn|]. split; [exact Hlb|]. split; [exact Hln|]. exact Hfree.
Qed.

(** ** The order in which the balls leave the display *)

Lemma Qeqb_strict_eq p q : Qeqb_strict p q = true -> p = q.
Proof.
  unfold Qeqb_strict. destruct p as [a b], q as [c d]. cbn [Qnum Qden].
  intros H. apply andb_true_iff in H. destruct H as [H1 H2].
  apply Z.eqb_eq in H1. apply Pos.eqb_eq in H2. congruence.
Qed.

Lemma fall_exact_86 : forallb fall_exact (zrange 0 86) = true.
Proof. vm_compute. reflexivity. Qed.

Lemma fadd_yq a : 0 <= a < 86 -> fadd (yq a) fall_step = yq (a + 1).
Proof.
  intros Ha. apply Qeqb_strict_eq.
  exact (forallb_zrange fall_exact 0 86 a fall_exact_86 ltac:(lia)).
Qed.

Lemma yq_value a : (yq a == 3 * a # 2)%Q.
Proof. apply Qred_correct. Qed.

Lemma age_yq b a : Ball.y b = yq a -> age b = a.
Proof.
  intros Hy. unfold age. rewrite Hy.
  transitivity (Qfloor (inject_Z a)); [|apply Qfloor_Z].
  apply Qfloor_comp. rewrite yq_value. unfold Qeq, Qmult, inject_Z. cbn [Qnum Qden].
  change (Z.pos (2 * 3)) with 6. lia.
Qed.

Lemma fle_yq h a :
  Z.abs h < 2 ^ 24 -> (fle (of_int h) (yq a) = true <-> 2 * h <= 3 * a).
Proof.
  intros Hh. rewrite fle_iff, (of_int_exact h Hh), yq_value.
  unfold Qle, inject_Z. cbn [Qnum Qden]. lia.
Qed.

(** An active ball at height [yq a], after its slot was served. *)
Lemma ball_post_active bd b b' a :
  ball_post bd b b' -> Ball.active b = true ->
  Ball.y b = yq a -> 0 <= a -> 3 * a < 2 * display_height bd ->
  0 < display_height bd <= 128 ->
  Ball.y b' = yq (a + 1) /\ age b' = a + 1
  /\ (Ball.active b' = true <-> 3 * (a + 1) < 2 * display_height bd)
  /\ Ball.counted b' = Ball.counted b.
Proof.
  unfold ball_post. intros Hp Ha Hy H0 Hlt Hh. rewrite Ha, Hy in Hp.
  rewrite fadd_yq in Hp by lia. destruct Hp as (Hy' & Hact & Hc).
  split; [exact Hy'|]. split; [apply age_yq; exact Hy'|]. split; [|exact Hc].
  rewrite Hact.
  pose proof (fle_yq (display_height bd) (a + 1) ltac:(lia)) as Hfle.
  destruct (fle (of_int (display_height bd)) (yq (a + 1))); cbn [negb]; split.
  - discriminate.
  - intros H. exfalso. assert (2 * display_height bd <= 3 * (a + 1)) by (apply Hfle; reflexivity). lia.
  - intros _. destruct (Z.lt_ge_cases (3 * (a + 1)) (2 * display_height bd)) as [|Hge]; [assumption|].
    exfalso. assert (E : false = true) by (apply Hfle; lia). discriminate E.
  - reflexivity.
Qed.

Lemma ball_post_inactive bd b b' :
  ball_post bd b b' -> Ball.active b = false ->
  Ball.active b' = false /\ Ball.counted b' = true.
Proof. unfold ball_post. intros Hp Ha. rewrite Ha in Hp. tauto. Qed.

(** The loop over the released balls keeps the order of the balls. *)
Lemma service_loop_run bd env s :
  inv0 s -> inv_run bd 0 s -> 0 < display_height bd <= 128 ->
  inv_run bd 1 (for_range (ball_count s) (service_ball bd env) s).
Proof.
  intros (Hwf & Hn & _ & _) (R1 & R2 & R3 & R4) Hh.
  rewrite <- (Z2Nat.id (ball_count s)) by lia.
  destruct (service_loop_spec bd env (Z.to_nat (ball_count s)) s Hwf ltac:(lia))
    as (_ & Hc & _ & Hpost & _).
  set (t := for_range _ _ s) in *.
  assert (Hcount : ball_count t = ball_count s) by (unfold ctl in Hc; congruence).
  set (n := Z.to_nat (ball_count s)) in *.
  assert (Fact : forall i, (i < n)%nat -> Ball.active (balls s !!! i) = true ->
            Ball.y (balls t !!! i) = yq (age (balls s !!! i) + 1)
            /\ age (balls t !!! i) = age (balls s !!! i) + 1
            /\ (Ball.active (balls t !!! i) = true
                <-> 3 * (age (balls s !!! i) + 1) < 2 * display_height bd)
            /\ Ball.counted (balls t !!! i) = Ball.counted (balls s !!! i)).
  { intros i Hi Ha. destruct (R2 i Hi Ha) as (Hy & Hlo & Hlt).
    apply (ball_post_active bd _ _ _ (Hpost i Hi) Ha Hy); lia. }
  assert (Fin : forall i, (i < n)%nat -> Ball.active (balls s !!! i) = false ->
            Ball.active (balls t !!! i) = false /\ Ball.counted (balls t !!! i) = true).
  { intros i Hi Ha. exact (ball_post_inactive bd _ _ (Hpost i Hi) Ha). }
  unfold inv_run. rewrite Hcount. fold n. cbv zeta.
  split; [|split; [|split]].
  - intros i Hi Hcnt. destruct (Ball.active (balls s !!! i)) eqn:Ha.
    + destruct (Fact i Hi Ha) as (_ & _ & _ & Hc').
      rewrite Hc' in Hcnt. rewrite (R1 i Hi Hcnt) in Ha. discriminate Ha.
    + apply (Fin i Hi Ha).
  - intros i Hi Hact. destruct (Ball.active (balls s !!! i)) eqn:Ha.
    + destruct (Fact i Hi Ha) as (Hy & Hage & Hiff & _).
      destruct (R2 i Hi Ha) as (_ & Hlo & _).
      rewrite Hage. split; [exact Hy|]. split; [lia|]. apply Hiff. exact Hact.
    + destruct (Fin i Hi Ha) as [Hf _]. rewrite Hf in Hact. discriminate Hact.
  - intros i j Hij Hai Haj.
    destruct (Ball.active (balls s !!! i)) eqn:Ha;
      [|destruct (Fin i ltac:(lia) Ha) as [Hf _]; rewrite Hf in Hai; discriminate Hai].
    destruct (Ball.active (balls s !!! j)) eqn:Hb;
      [|destruct (Fin j ltac:(lia) Hb) as [Hf _]; rewrite Hf in Haj; discriminate Haj].
    destruct (Fact i ltac:(lia) Ha) as (_ & -> & _).
    destruct (Fact j ltac:(lia) Hb) as (_ & -> & _).
    pose proof (R3 i j Hij Ha Hb). lia.
  - intros i j Hij Haj.
    destruct (Ball.active (balls s !!! i)) eqn:Ha; [|apply (Fin i ltac:(lia) Ha)].
    exfalso. destruct (Ball.active (balls s !!! j)) eqn:Hb.
    + destruct (Fact j ltac:(lia) Hb) as (_ & _ & Hiff & _).
      destruct (R2 i ltac:(lia) Ha) as (_ & _ & Hlt).
      pose proof (R3 i j Hij Ha Hb) as Hord.
      assert (Ball.active (balls t !!! j) = true) by (apply Hiff; lia). congruence.
    + pose proof (R4 i j Hij Hb) as Hci. rewrite (R1 i ltac:(lia) Hci) in Ha. discriminate Ha.
Qed.

Lemma inv_run_weaken bd s : inv_run bd 1 s -> inv_run bd 0 s.
Proof.
  intros (R1 & R2 & R3 & R4). repeat split; try assumption;
    destruct (R2 i H H0) as (Hy & Hlo & Hlt); try assumption; lia.
Qed.

Lemma inv_run_ext bd lo s s' :
  balls s' = balls s -> ball_count s' = ball_count s ->
  inv_run bd lo s -> inv_run bd lo s'.
Proof. unfold inv_run. intros -> ->. exact (fun H => H). Qed.

(** A release puts a ball of age 0 above all the others. *)
Lemma release_run bd env s :
  inv0 s -> inv_run bd 1 s -> 0 < display_height bd ->
  inv_run bd 0 (release_ball bd env s).
Proof.
  intros ((Hlb & _) & Hn & _ & _) Hrun Hh.
  destruct (release_ball_spec bd env s) as (_ & _ & _ & _ & _ & _ & Hcase).
  destruct Hcase as [[Hc Hl] | (Hlt & _ & Hc & Hl & _)].
  - apply (inv_run_ext bd 0 s _ Hl Hc). apply inv_run_weaken, Hrun.
  - destruct Hrun as (R1 & R2 & R3 & R4).
    set (k := Z.to_nat (ball_count s)) in *.
    assert (Hk : (k < length (balls s))%nat).
    { rewrite Hlb. unfold k, TOTAL_BALLS in *. lia. }
    assert (Hnew : balls (release_ball bd env s) !!! k
                   = init_ball bd (balls s !!! k)).
    { rewrite Hl. apply list_lookup_total_insert_eq. exact Hk. }
    assert (Hold : forall i, (i < k)%nat ->
                     balls (release_ball bd env s) !!! i = balls s !!! i).
    { intros i Hi. rewrite Hl. apply list_lookup_total_insert_ne. lia. }
    unfold inv_run. rewrite Hc.
    replace (Z.to_nat (ball_count s + 1)) with (S k) by (unfold k; lia). cbv zeta.
    split; [|split; [|split]].
    + intros i Hi. destruct (decide (i = k)) as [->|Hne].
      * rewrite Hnew. cbn [init_ball Ball.counted]. discriminate.
      * rewrite Hold by lia. apply R1. lia.
    + intros i Hi. destruct (decide (i = k)) as [->|Hne].
      * rewrite Hnew. intros _. unfold age. cbn [init_ball Ball.y].
        split; [reflexivity|]. split; [vm_compute; discriminate|].
        change (Qfloor (0%Q * (2 # 3))) with 0. lia.
      * rewrite Hold by lia. intros Ha.
        destruct (R2 i ltac:(lia) Ha) as (Hy & Hlo & Hltb). repeat split; try assumption; lia.
    + intros i j Hij. destruct (decide (j = k)) as [->|Hne].
      * rewrite Hnew, (Hold i) by lia. intros Ha _.
        destruct (R2 i ltac:(lia) Ha) as (_ & Hlo & _).
        unfold age at 1. cbn [init_ball Ball.y].
        change (Qfloor (0%Q * (2 # 3))) with 0. lia.
      * rewrite !Hold by lia. apply R3. lia.
    + intros i j Hij. destruct (decide (j = k)) as [->|Hne].
      * rewrite Hnew. cbn [init_ball Ball.active]. discriminate.
      * rewrite !Hold by lia. apply R4. lia.
Qed.

Lemma inv1_ext bd s s' :
  balls s' = balls s -> bins s' = bins s -> ball_count s' = ball_count s ->
  running s' = running s -> inv1 bd s -> inv1 bd s'.
Proof.
  unfold inv1, inv0, inv_run, wf, sum_bins. intros -> -> -> ->. exact (fun H => H).
Qed.

(** The state on which the end-of-run test is made, in a frame of a run. *)
Lemma frame_run bd env s :
  inv1 bd s -> running s = true -> 0 < display_height bd <= 128 ->
  let t := for_range (ball_count (release_ball bd env s)) (service_ball bd env)
             (release_ball bd env s) in
  run_frame bd env s = check_finished t
  /\ inv0 t /\ inv_run bd 1 t /\ running t = true.
Proof.
  intros [Hinv Hrun] Hr Hh t.
  destruct (Hrun Hr) as [HR _].
  split; [unfold run_frame; rewrite Hr; reflexivity|].
  pose proof (inv0_release bd env s Hinv) as H1.
  pose proof (release_run bd env s Hinv HR ltac:(lia)) as H2.
  split; [|split].
  - pose proof (inv0_run_frame bd env s Hinv) as H3.
    unfold run_frame in H3. rewrite Hr in H3. fold t in H3.
    destruct (check_finished_spec t) as (Eb & En & Ec & _).
    exact (inv0_ext _ _ (eq_sym Eb) (eq_sym En) (eq_sym Ec) H3).
  - apply service_loop_run; assumption.
  - destruct H1 as (Hwf & Hn & _).
    destruct (release_ball_spec bd env s) as (_ & Hr1 & _).
    unfold t. rewrite <- (Z2Nat.id (ball_count (release_ball bd env s))) by lia.
    destruct (service_loop_spec bd env (Z.to_nat (ball_count (release_ball bd env s)))
                (release_ball bd env s) Hwf ltac:(lia)) as (_ & Hc & _).
    unfold ctl in Hc. congruence.
Qed.

Lemma inv1_run_frame bd env s :
  inv1 bd s -> 0 < display_height bd <= 128 -> inv1 bd (run_frame bd env s).
Proof.
  intros Hinv Hh. destruct (running s) eqn:Hr.
  - destruct (frame_run bd env s Hinv Hr Hh) as (E & H0 & HR & Hrt). rewrite E.
    set (t := for_range _ _ _) in *.
    destruct (check_finished_spec t) as (Eb & En & Ec & Erun).
    split; [exact (inv0_ext _ _ Eb En Ec H0)|].
    intros Hrun'. rewrite Erun, Hrt in Hrun'. cbn [andb] in Hrun'.
    split; [exact (inv_run_ext bd 1 t _ Eb Ec HR)|].
    rewrite Ec, Eb.
    destruct (Z.leb_spec TOTAL_BALLS (ball_count t)) as [Hge|Hlt]; [|left; exact Hlt].
    cbn [andb negb] in Hrun'. right. apply any_active_spec.
    destruct (any_active t); [reflexivity | discriminate Hrun'].
  - unfold run_frame. rewrite Hr. exact Hinv.
Qed.

Lemma inv1_loop_body bd env s :
  inv1 bd s -> 0 < display_height bd <= 128 -> inv1 bd (loop_body bd env s).
Proof.
  intros Hinv Hh. unfold loop_body.
  refine (inv1_ext bd _ _ eq_refl eq_refl eq_refl eq_refl _).
  apply inv1_run_frame; [|exact Hh].
  refine (inv1_ext bd _ _ eq_refl eq_refl eq_refl eq_refl _).
  set (a := negb (gpio_get env BUTTON_A_PIN (iteration s))).
  set (b := negb (gpio_get env BUTTON_B_PIN (iteration s))).
  assert (H1 : inv1 bd (handle_start env a s)).
  { split; [apply inv0_handle_start, Hinv|].
    unfold handle_start. destruct (a && negb (last_btn_a s) && negb (running s));
      [|exact (proj2 Hinv)].
    rewrite reset_simulation_eq. intros _. split.
    - unfold inv_run. cbn [ball_count set_last_rel get_absolute_time set_bins set_balls
                           set_ball_count set_running]. cbv zeta.
      change (Z.to_nat 0) with 0%nat. repeat split; intros; lia.
    - left. cbn. unfold TOTAL_BALLS. lia. }
  split; [apply inv0_handle_reset, H1|].
  unfold handle_reset. destruct (b && negb (last_btn_b (handle_start env a s)));
    [|exact (proj2 H1)].
  rewrite reset_simulation_eq. cbn [running set_bins set_balls set_running]. discriminate.
Qed.

Lemma inv1_main W P env n : 1 <= P <= 16 -> inv1 (init_pins W P) (main W P env n).
Proof.
  intros HP.
  assert (Hh : 0 < display_height (init_pins W P) <= 128).
  { destruct (init_pins_spec W P) as (_ & -> & _). lia. }
  induction n as [|n IH].
  - split; [apply inv0_main|]. unfold main, main_init. rewrite reset_simulation_eq.
    cbn. discriminate.
  - rewrite main_succ. apply inv1_loop_body; assumption.
Qed.

Lemma counted_count_prefix (l : list Ball.t) : forall k : nat,
  (forall i, (i < k)%nat -> Ball.counted (l !!! i) = true) ->
  (forall i, (k <= i)%nat -> Ball.counted (l !!! i) = false) ->
  (k <= length l)%nat ->
  counted_count l = Z.of_nat k.
Proof.
  unfold counted_count.
  induction l as [|b l IH]; intros k Hlow Hhigh Hk; cbn [length] in Hk.
  - assert (k = 0%nat) as -> by lia. reflexivity.
  - cbn [fmap list_fmap fold_right]. destruct k as [|k].
    + assert (Hb : Ball.counted b = false) by exact (Hhigh 0%nat (le_n 0)).
      rewrite (IH 0%nat); [unfold counted_flag; rewrite Hb; reflexivity| | |lia].
      * intros i Hi. lia.
      * intros i Hi. apply (Hhigh (S i)). lia.
    + assert (Hb : Ball.counted b = true) by (apply (Hlow 0%nat); lia).
      rewrite (IH k); [unfold counted_flag; rewrite Hb; lia| | |lia].
      * intros i Hi. apply (Hlow (S i)). lia.
      * intros i Hi. apply (Hhigh (S i)). lia.
Qed.

(** X3: on a display of 1 to 16 pages, whatever the width, the buttons, the
    clock and [rand()]: when the controller is running before an iteration
    that sees no rising edge of button B and idle after it (a run that ends
    by itself), all TOTAL_BALLS balls were released, no slot is active, the
    balls 0 to 98 are counted and the last one is not, and the bins add up to
    TOTAL_BALLS - 1. *)
Theorem natural_completion_misses_last_ball W P env n :
  1 <= P <= 16 ->
  let s := main W P env n in
  let s' := main W P env (S n) in
  running s = true ->
  running s' = false ->
  negb (gpio_get env BUTTON_B_PIN n) && negb (last_btn_b s) = false ->
  ball_count s' = TOTAL_BALLS
  /\ (forall i, (i < 100)%nat -> Ball.active (balls s' !!! i) = false)
  /\ (forall i, (i < 99)%nat -> Ball.counted (balls s' !!! i) = true)
  /\ Ball.counted (balls s' !!! 99%nat) = false
  /\ sum_bins s' = TOTAL_BALLS - 1.
Proof.
  intros HP s s' Hr Hr' Hb.
  set (bd := init_pins W P).
  assert (Hh : 0 < display_height bd <= 128).
  { unfold bd. destruct (init_pins_spec W P) as (_ & -> & _). lia. }
  pose proof (inv1_main W P env n HP) as Hinv. fold s bd in Hinv.
  (* the iteration: the buttons do nothing, the frame is one of a run *)
  set (a := negb (gpio_get env BUTTON_A_PIN n)).
  set (s3 := set_last_btns a (negb (gpio_get env BUTTON_B_PIN n)) s).
  assert (Hs' : s' = next_iteration (run_frame bd env s3)).
  { unfold s'. rewrite main_succ. fold s bd. unfold loop_body.
    rewrite (iteration_main W P env n : iteration s = n). fold a.
    rewrite (handle_start_running env a s Hr).
    unfold handle_reset. rewrite Hb. reflexivity. }
  assert (Hinv3 : inv1 bd s3) by exact (inv1_ext bd s s3 eq_refl eq_refl eq_refl eq_refl Hinv).
  destruct (frame_run bd env s3 Hinv3 Hr Hh) as (E & H0 & HR & Hrt).
  set (s1 := release_ball bd env s3) in *.
  set (t := for_range (ball_count s1) (service_ball bd env) s1) in *.
  destruct (check_finished_spec t) as (Eb & En & Ec & Erun).
  assert (Fb : balls s' = balls t) by (rewrite Hs', E; exact Eb).
  assert (Fn : bins s' = bins t) by (rewrite Hs', E; exact En).
  assert (Fc : ball_count s' = ball_count t) by (rewrite Hs', E; exact Ec).
  assert (Fr : running (check_finished t) = false) by (rewrite <- E; rewrite Hs' in Hr'; exact Hr').
  rewrite Erun, Hrt in Fr. cbn [andb] in Fr.
  destruct H0 as (Hwf & Hn & Hsum & Hfree).
  assert (Hcount : ball_count t = TOTAL_BALLS).
  { destruct (Z.leb_spec TOTAL_BALLS (ball_count t)); [lia | discriminate Fr]. }
  assert (Hnone : forall i, (i < 100)%nat -> Ball.active (balls t !!! i) = false).
  { intros i Hi. destruct (Ball.active (balls t !!! i)) eqn:Ha; [|reflexivity].
    assert (Hany : any_active t = true) by (apply any_active_spec; exists i; split; assumption).
    rewrite Hany, andb_false_r in Fr. discriminate Fr. }
  destruct HR as (R1 & R2 & R3 & R4). rewrite Hcount in R1, R4.
  change (Z.to_nat TOTAL_BALLS) with 100%nat in R1, R4.
  assert (Hlow : forall i, (i < 99)%nat -> Ball.counted (balls t !!! i) = true).
  { intros i Hi. apply (R4 i 99%nat); [lia | apply Hnone; lia]. }
  (* the last ball was still falling when the frame began *)
  assert (Hlast : Ball.counted (balls t !!! 99%nat) = false).
  { destruct Hinv3 as [Hi0 Hrun3]. destruct (Hrun3 Hr) as [HR3 Hopen].
    pose proof (inv0_release bd env s3 Hi0) as (Hwf1 & Hn1 & _).
    pose proof (release_run bd env s3 Hi0 HR3 ltac:(lia)) as (Q1 & _).
    fold s1 in Hwf1, Hn1, Q1.
    assert (Hc1 : ball_count s1 = TOTAL_BALLS).
    { unfold t in Hcount. rewrite <- (Z2Nat.id (ball_count s1)) in Hcount by lia.
      destruct (service_loop_spec bd env (Z.to_nat (ball_count s1)) s1 Hwf1 ltac:(lia))
        as (_ & Hc & _).
      unfold ctl in Hc. congruence. }
    assert (Hpost : ball_post bd (balls s1 !!! 99%nat) (balls t !!! 99%nat)).
    { unfold t. rewrite <- (Z2Nat.id (ball_count s1)) by lia.
      destruct (service_loop_spec bd env (Z.to_nat (ball_count s1)) s1 Hwf1 ltac:(lia))
        as (_ & _ & _ & Hp & _).
      apply Hp. rewrite Hc1. unfold TOTAL_BALLS. lia. }
    rewrite Hc1 in Q1. change (Z.to_nat TOTAL_BALLS) with 100%nat in Q1.
    unfold ball_post in Hpost.
    destruct (Ball.active (balls s1 !!! 99%nat)) eqn:Ha.
    - destruct Hpost as (_ & _ & ->).
      destruct (Ball.counted (balls s1 !!! 99%nat)) eqn:Hc; [|reflexivity].
      rewrite (Q1 99%nat ltac:(lia) Hc) in Ha. discriminate Ha.
    - exfalso.
      destruct (release_ball_spec bd env s3) as (_ & _ & _ & _ & _ & _ & Hcase).
      fold s1 in Hcase.
      destruct Hcase as [[Hcs Hls] | (Hlt & _ & Hcs & Hls & _)].
      + (* no release in this frame: the run was over one frame earlier *)
        rewrite Hls in Ha. rewrite Hc1 in Hcs.
        destruct HR3 as (P1 & _ & _ & P4). rewrite <- Hcs in P1, P4.
        change (Z.to_nat TOTAL_BALLS) with 100%nat in P1, P4.
        destruct Hopen as [Hlt | (i & Hi & Hai)]; [lia|].
        change (Z.to_nat TOTAL_BALLS) with 100%nat in Hi.
        destruct (decide (i = 99%nat)) as [->|Hne]; [congruence|].
        pose proof (P4 i 99%nat ltac:(lia) Ha) as Hci.
        rewrite (P1 i Hi Hci) in Hai. discriminate Hai.
      + (* the last ball was released in this frame *)
        rewrite Hc1 in Hcs. destruct Hi0 as ((Hlb3 & _) & _).
        assert (E99 : Z.to_nat (ball_count s3) = 99%nat) by (unfold TOTAL_BALLS in Hcs; lia).
        rewrite Hls, E99, list_lookup_total_insert_eq in Ha
          by (rewrite Hlb3; unfold TOTAL_BALLS; lia).
        cbn in Ha. discriminate Ha. }
  unfold sum_bins in *. rewrite Fc, Fb, Fn.
  split; [exact Hcount|]. split; [exact Hnone|].
  split; [exact Hlow|]. split; [exact Hlast|].
  rewrite Hsum.
  rewrite (counted_count_prefix (balls t) 99); [reflexivity|exact Hlow| |].
  - intros i Hi. destruct (decide (i = 99%nat)) as [->|Hne]; [exact Hlast|].
    rewrite list_lookup_total_alt, lookup_ge_None_2; [reflexivity|].
    destruct Hwf as [Hl _]. rewrite Hl. unfold TOTAL_BALLS. lia.
  - destruct Hwf as [Hl _]. rewrite Hl. unfold TOTAL_BALLS. lia.
Qed.

Lemma natural_completion_misses_last_ball_witness :
  running (main 128 1 env_full_run 104) = true
  /\ running (main 128 1 env_full_run 105) = false
  /\ sum_bins (main 128 1 env_full_run 105) = 99.
Proof.
  assert (Hr : running (main 128 1 env_full_run 104) = true) by (vm_compute; reflexivity).
  assert (Hr' : running (main 128 1 env_full_run 105) = false) by (vm_compute; reflexivity).
  split; [exact Hr|]. split; [exact Hr'|].
  refine (proj2 (proj2 (proj2 (proj2
    (natural_completion_misses_last_ball 128 1 env_full_run 104 _ Hr Hr' _))))).
  - lia.
  - reflexivity.
Defined.

(** ** Frames of a run and idle frames *)

Lemma sum_le_pointwise (l l' : list Z) :
  length l = length l' -> (forall j, l !!! j <= l' !!! j) ->
  fold_right Z.add 0 l <= fold_right Z.add 0 l'.
Proof.
  revert l'. induction l as [|a l IH]; intros [|a' l'] Hlen Hle;
    cbn [length] in Hlen; try discriminate Hlen; [reflexivity|].
  cbn [fold_right]. pose proof (Hle 0%nat) as H0.
  change ((a :: l) !!! 0%nat) with a in H0. change ((a' :: l') !!! 0%nat) with a' in H0.
  assert (fold_right Z.add 0 l <= fold_right Z.add 0 l'); [|lia].
  apply IH; [lia|]. intros j. exact (Hle (S j)).
Qed.

Lemma run_frame_fields bd env s :
  last_btn_a (run_frame bd env s) = last_btn_a s
  /\ last_btn_b (run_frame bd env s) = last_btn_b s.
Proof.
  unfold run_frame. destruct (running s); [|split; reflexivity].
  destruct (release_ball_spec bd env s) as (_ & _ & _ & _ & Ha & Hb & _).
  set (s1 := release_ball bd env s) in *.
  assert (Hloop : last_btn_a (for_range (ball_count s1) (service_ball bd env) s1) = last_btn_a s1
                  /\ last_btn_b (for_range (ball_count s1) (service_ball bd env) s1) = last_btn_b s1).
  { destruct (Z.le_gt_cases (ball_count s1) 0) as [Hle|Hgt].
    - rewrite for_range_nonpos by exact Hle. split; reflexivity.
    - rewrite <- (Z2Nat.id (ball_count s1)) by lia.
      apply (for_range_ind (fun _ u => last_btn_a u = last_btn_a s1
                                       /\ last_btn_b u = last_btn_b s1)); [split; reflexivity|].
      intros i u _ [Hu1 Hu2]. rewrite <- Hu1, <- Hu2. unfold service_ball.
      destruct (Ball.active (balls u !!! i)).
      + destruct (update_ball bd env (balls u !!! i) (rand_calls u)). split; reflexivity.
      + destruct (negb (Ball.counted (balls u !!! i))); split; reflexivity. }
  destruct Hloop as [H1 H2]. unfold check_finished.
  destruct (TOTAL_BALLS <=? _); [destruct (negb _)|];
    cbn [set_running last_btn_a last_btn_b]; split; congruence.
Qed.

Lemma loop_body_buttons bd env s :
  last_btn_a (loop_body bd env s) = negb (gpio_get env BUTTON_A_PIN (iteration s))
  /\ last_btn_b (loop_body bd env s) = negb (gpio_get env BUTTON_B_PIN (iteration s)).
Proof.
  unfold loop_body, next_iteration. cbn [last_btn_a last_btn_b].
  destruct (run_frame_fields bd env
              (set_last_btns (negb (gpio_get env BUTTON_A_PIN (iteration s)))
                 (negb (gpio_get env BUTTON_B_PIN (iteration s)))
                 (handle_reset (negb (gpio_get env BUTTON_B_PIN (iteration s)))
                    (handle_start env (negb (gpio_get env BUTTON_A_PIN (iteration s))) s))))
    as [-> ->].
  split; reflexivity.
Qed.

(** X4: the buttons act on their rising edge only.  If button A was pressed
    during an iteration, the start branch of the next iteration is not taken,
    whatever the button does then; the same holds for button B and the reset
    branch.  A button held down starts, or resets, once. *)
Theorem held_button_acts_once bd env s a b :
  let s1 := loop_body bd env s in
  (gpio_get env BUTTON_A_PIN (iteration s) = false -> handle_start env a s1 = s1)
  /\ (gpio_get env BUTTON_B_PIN (iteration s) = false -> handle_reset b s1 = s1).
Proof.
  intros s1. destruct (loop_body_buttons bd env s) as [Ha Hb]. fold s1 in Ha, Hb.
  split; intros Hp.
  - unfold handle_start. rewrite Ha, Hp. cbn [negb]. rewrite andb_false_r. reflexivity.
  - unfold handle_reset. rewrite Hb, Hp. cbn [negb]. rewrite andb_false_r. reflexivity.
Qed.

Lemma held_button_acts_once_witness :
  let bd := init_pins 128 8 in
  let s1 := loop_body bd env_start_then_reset (main_init env_start_then_reset) in
  handle_start env_start_then_reset true s1 = s1.
Proof.
  intros bd s1.
  refine (proj1 (held_button_acts_once bd env_start_then_reset
                   (main_init env_start_then_reset) true true) _).
  reflexivity.
Defined.

(** X5: the transition from idle to running.  When the controller is idle
    and button A shows a rising edge, the start branch leaves it running with
    [ball_count = 0], every slot inactive and uncounted, every bin at zero,
    and [last_rel] set to the clock reading taken at that moment. *)
Theorem start_clears_the_board env s :
  wf s -> running s = false -> last_btn_a s = false ->
  let s' := handle_start env true s in
  running s' = true
  /\ ball_count s' = 0
  /\ (forall i, Ball.active (balls s' !!! i) = false /\ Ball.counted (balls s' !!! i) = false)
  /\ (forall i, (i < Z.to_nat NUM_BINS)%nat -> bins s' !!! i = 0)
  /\ sum_bins s' = 0
  /\ last_rel s' = time_us env (clock_reads s)
  /\ clock_reads s' = S (clock_reads s).
Proof.
  intros [Hlb Hln] Hr Ha s'. unfold s', handle_start. rewrite Hr, Ha. cbn [negb andb].
  rewrite reset_simulation_eq. unfold sum_bins.
  cbn [balls bins running ball_count last_rel last_btn_a last_btn_b rand_calls
       clock_reads iteration get_absolute_time set_last_rel set_bins set_balls
       set_ball_count set_running].
  split; [reflexivity|]. split; [reflexivity|]. split; [|split; [|split; [|split]]].
  - intros i. apply clear_balls_flags. rewrite Hlb. unfold TOTAL_BALLS. lia.
  - intros i Hi. apply clear_bins_total; [exact Hi | rewrite Hln; exact Hi].
  - apply clear_bins_sum. rewrite Hln. unfold NUM_BINS. lia.
  - reflexivity.
  - reflexivity.
Qed.

Lemma start_clears_the_board_witness :
  let s := mkState [Ball.mk (64 # 1) (129 # 2) false true 14; Ball.mk (64 # 1) (3 # 1) true false 1]
                   [0; 0; 0; 1; 0; 0; 0] false 2 0 false false 14%nat 5%nat 60%nat in
  sum_bins (handle_start env_full_run true
              (mkState (balls s ++ replicate 98 Ball.zero) (bins s) false 2 0 false false
                       14%nat 5%nat 60%nat)) = 0.
Proof.
  intros s.
  refine (proj1 (proj2 (proj2 (proj2 (proj2 (start_clears_the_board env_full_run _ _ _ _)))))).
  - split; reflexivity.
  - reflexivity.
  - reflexivity.
Defined.

(** X6: an iteration that takes neither the start nor the reset branch never
    lowers a bin: every counter of the next state is at least what it was,
    so is their sum, and [ball_count] grows by at most one. *)
Theorem bins_never_decrease W P env n :
  let s := main W P env n in
  let s' := main W P env (S n) in
  negb (gpio_get env BUTTON_A_PIN n) && negb (last_btn_a s) && negb (running s) = false ->
  negb (gpio_get env BUTTON_B_PIN n) && negb (last_btn_b s) = false ->
  (forall j, bins s !!! j <= bins s' !!! j)
  /\ sum_bins s <= sum_bins s'
  /\ ball_count s <= ball_count s' <= ball_count s + 1.
Proof.
  intros s s' Ha Hb.
  set (bd := init_pins W P).
  pose proof (inv0_main W P env n) as Hinv. fold s in Hinv.
  set (s3 := set_last_btns (negb (gpio_get env BUTTON_A_PIN n))
                           (negb (gpio_get env BUTTON_B_PIN n)) s).
  assert (Hs' : s' = next_iteration (run_frame bd env s3)).
  { unfold s'. rewrite main_succ. fold s bd. unfold loop_body.
    rewrite (iteration_main W P env n : iteration s = n).
    unfold handle_start. rewrite Ha. unfold handle_reset. rewrite Hb. reflexivity. }
  assert (Hmono : (forall j, bins s !!! j <= bins s' !!! j)
                  /\ length (bins s') = length (bins s)
                  /\ ball_count s <= ball_count s' <= ball_count s + 1).
  { rewrite Hs'. unfold next_iteration. cbn [bins ball_count]. unfold run_frame.
    change (running s3) with (running s). destruct (running s).
    - assert (Hinv3 : inv0 s3) by exact (inv0_ext s s3 eq_refl eq_refl eq_refl Hinv).
      pose proof (inv0_release bd env s3 Hinv3) as (Hwf1 & Hn1 & _).
      destruct (release_ball_spec bd env s3) as (Hb1 & _ & _ & _ & _ & _ & Hcase).
      set (s1 := release_ball bd env s3) in *.
      destruct (check_finished_spec (for_range (ball_count s1) (service_ball bd env) s1))
        as (_ & -> & -> & _).
      rewrite <- (Z2Nat.id (ball_count s1)) by lia.
      destruct (service_loop_spec bd env (Z.to_nat (ball_count s1)) s1 Hwf1 ltac:(lia))
        as ((_ & Hl') & Hc & _ & _ & _ & Hm & _).
      change (bins s3) with (bins s) in Hb1. change (ball_count s3) with (ball_count s) in Hcase.
      rewrite Hb1 in Hm. destruct Hwf1 as [_ Hl1]. rewrite Hb1 in Hl1.
      split; [exact Hm|]. split; [congruence|].
      assert (Hcc : ball_count (for_range (Z.of_nat (Z.to_nat (ball_count s1)))
                                  (service_ball bd env) s1) = ball_count s1)
        by (unfold ctl in Hc; congruence).
      rewrite Hcc. destruct Hcase as [[-> _] | (_ & _ & -> & _)]; lia.
    - cbn [set_last_btns bins ball_count s3]. repeat split; try reflexivity; lia. }
  destruct Hmono as (Hm & Hl & Hc). split; [exact Hm|]. split; [|exact Hc].
  apply sum_le_pointwise; [congruence | exact Hm].
Qed.

Lemma bins_never_decrease_witness :
  sum_bins (main 128 8 env_start_then_reset 2) <= sum_bins (main 128 8 env_start_then_reset 3).
Proof.
  refine (proj1 (proj2 (bins_never_decrease 128 8 env_start_then_reset 2 _ _))); reflexivity.
Defined.

(** X7: an idle iteration without a rising edge leaves the board as it is:
    slots, bins and [ball_count] are untouched and the controller stays idle,
    so the histogram of a finished run stays until a button is pressed. *)
Theorem idle_iteration_keeps_the_board bd env s :
  running s = false ->
  negb (gpio_get env BUTTON_A_PIN (iteration s)) && negb (last_btn_a s) = false ->
  negb (gpio_get env BUTTON_B_PIN (iteration s)) && negb (last_btn_b s) = false ->
  let s' := loop_body bd env s in
  balls s' = balls s /\ bins s' = bins s /\ ball_count s' = ball_count s
  /\ running s' = false /\ rand_calls s' = rand_calls s /\ clock_reads s' = clock_reads s.
Proof.
  intros Hr Ha Hb s'. unfold s', loop_body, handle_start.
  rewrite Ha. cbn [andb]. unfold handle_reset. rewrite Hb.
  unfold run_frame. cbn [set_last_btns running]. rewrite Hr.
  repeat split. exact Hr.
Qed.

Lemma idle_iteration_keeps_the_board_witness :
  let s := main_init env_full_run in
  bins (loop_body (init_pins 128 8) env_start_then_reset
          (loop_body (init_pins 128 8) env_always_right s))
  = bins (loop_body (init_pins 128 8) env_always_right s).
Proof.
  intros s.
  refine (proj1 (proj2 (idle_iteration_keeps_the_board (init_pins 128 8)
            env_start_then_reset (loop_body (init_pins 128 8) env_always_right s) _ _ _)));
    vm_compute; reflexivity.
Defined.

(** ** Deflections on other displays *)

Lemma rows_increasing_sorted rows : forall lo,
  rows_increasing lo rows = true ->
  StronglySorted Z.lt rows /\ Forall (fun r => lo < r < ROWS) rows.
Proof.
  induction rows as [|r rest IH]; intros lo H; [split; constructor|].
  cbn [rows_increasing] in H. apply andb_true_iff in H. destruct H as [H Hrest].
  apply andb_true_iff in H. destruct H as [H1 H2].
  apply Z.ltb_lt in H1. apply Z.ltb_lt in H2.
  destruct (IH r Hrest) as [Hs Hf]. split.
  - constructor; [exact Hs|]. eapply Forall_impl; [exact Hf|]. cbv beta. intros x Hx. lia.
  - constructor; [lia|]. eapply Forall_impl; [exact Hf|]. cbv beta. intros x Hx. lia.
Qed.

(** The falls are evaluated on closed terms only. *)
#[global] Opaque fall_rows.

Lemma fall_ok_16 : forallb fall_ok (zrange 1 16) = true.
Proof. vm_compute. reflexivity. Qed.

(** X8: on a display of 1 to 16 pages, whatever its width and whatever
    [rand()] returns, a particle released at the apex has left the display
    after at most 86 calls of [update_ball]; the rows at which it was
    deflected are strictly increasing and lie in [0, ROWS), so no row
    deflects it twice and it is deflected at most ROWS times; and it drew
    exactly one value of [rand()] per deflection. *)
Theorem deflection_rows_increase W P env b0 k fuel :
  1 <= P <= 16 -> (86 <= fuel)%nat ->
  let bd := init_pins W P in
  let res := fall bd env fuel (init_ball bd b0) k in
  Ball.active res.1.1 = false
  /\ StronglySorted Z.lt res.2
  /\ Forall (fun r => 0 <= r < ROWS) res.2
  /\ res.1.2 = (k + length res.2)%nat.
Proof.
  intros HP Hfuel bd res.
  destruct (init_pins_spec W P) as (_ & Hh & _ & Hsy & _).
  fold bd in Hh, Hsy.
  pose proof (forallb_zrange fall_ok 1 16 P fall_ok_16 ltac:(lia)) as Hok.
  unfold fall_ok in Hok.
  destruct (fall_rows (lattice_step_y P) (P * 8) 86 0%Q (-1)) as [[[yf lrf] af] rows] eqn:E.
  apply andb_true_iff in Hok. destruct Hok as [Haf Hrows].
  destruct af; [discriminate Haf|].
  apply (fall_rows_more _ _ (fuel - 86)) in E.
  replace (86 + (fuel - 86))%nat with fuel in E by lia.
  pose proof (fall_split bd env fuel (init_ball bd b0) k eq_refl) as Hs.
  cbn [init_ball Ball.y Ball.last_row Ball.x Ball.counted] in Hs.
  rewrite Hsy, Hh, E in Hs. fold res in Hs. rewrite Hs.
  cbn [fst snd Ball.active].
  destruct (rows_increasing_sorted rows (-1) Hrows) as [Hsorted Hrange].
  split; [reflexivity|]. split; [exact Hsorted|]. split; [|reflexivity].
  eapply Forall_impl; [exact Hrange|]. cbv beta. intros x Hx. lia.
Qed.

Lemma deflection_rows_increase_witness :
  let bd := init_pins 128 4 in
  let res := fall bd env_full_run 90 (init_ball bd Ball.zero) 0 in
  Ball.active res.1.1 = false /\ StronglySorted Z.lt res.2.
Proof.
  pose proof (deflection_rows_increase 128 4 env_full_run Ball.zero 0 90
                ltac:(lia) ltac:(lia)) as H.
  intros bd res. destruct H as (Ha & Hs & _). split; [exact Ha | exact Hs].
Defined.

(** X9: the random draws decide the horizontal position only.  Two falls on
    the same board from balls at the same height and [last_row], under any
    two environments, cursors and x positions, end at the same height, with
    the same [active] flag and [last_row], after deflections at the same
    rows. *)
Theorem fall_rows_do_not_depend_on_rand bd env env' fuel b b' k k' :
  Ball.active b = true -> Ball.active b' = true ->
  Ball.y b' = Ball.y b -> Ball.last_row b' = Ball.last_row b ->
  let res := fall bd env fuel b k in
  let res' := fall bd env' fuel b' k' in
  res'.2 = res.2
  /\ Ball.y res'.1.1 = Ball.y res.1.1
  /\ Ball.active res'.1.1 = Ball.active res.1.1
  /\ Ball.last_row res'.1.1 = Ball.last_row res.1.1
  /\ (res'.1.2 - k' = res.1.2 - k)%nat.
Proof.
  intros Ha Ha' Hy Hl res res'.
  pose proof (fall_split bd env fuel b k Ha) as H.
  pose proof (fall_split bd env' fuel b' k' Ha') as H'.
  rewrite Hy, Hl in H'.
  destruct (fall_rows (step_y bd) (display_height bd) fuel (Ball.y b) (Ball.last_row b))
    as [[[yf lrf] af] rows].
  fold res in H. fold res' in H'. rewrite H, H'. cbn [fst snd Ball.y Ball.active Ball.last_row].
  repeat split. lia.
Qed.

Lemma fall_rows_do_not_depend_on_rand_witness :
  let bd := init_pins 128 8 in
  (fall bd env_always_right 60 (init_ball bd Ball.zero) 0).2
  = (fall bd env_full_run 60 (init_ball bd Ball.zero) 7).2.
Proof.
  intros bd.
  refine (proj1 (fall_rows_do_not_depend_on_rand bd env_full_run env_always_right 60
            (init_ball bd Ball.zero) (init_ball bd Ball.zero) 7 0 _ _ _ _));
    reflexivity.
Defined.

(** ** Where the pins and the bins stand *)

(** Position of the pins on displays of 1 to 128 columns and 1 to 16 pages. *)
Lemma peg_x_in_display W (r c : nat) :
  1 <= W <= 128 -> (c <= r)%nat -> (r < 15)%nat -> 0 <= peg_x W r c < W.
Proof.
  intros HW Hc Hr.
  pose proof (forallb_zrange lattice_symmetric 1 128 W lattice_symmetric_128
                ltac:(lia)) as Hs.
  pose proof (forallb_seq _ 15 r Hs Hr) as Hrow.
  pose proof (forallb_seq _ (S r) c Hrow ltac:(lia)) as Hcell.
  cbv beta zeta in Hcell. rewrite !peg_row_nth in Hcell by lia.
  apply andb_true_iff in Hcell. destruct Hcell as [_ Hcell].
  apply andb_true_iff in Hcell. lia.
Qed.

Lemma peg_y_in_display P (r : nat) :
  1 <= P <= 16 -> (r < 15)%nat -> 0 <= peg_y P r < (P * 8) ÷ 2.
Proof.
  intros HP Hr.
  pose proof (forallb_zrange peg_y_nearest 1 16 P peg_y_nearest_16 ltac:(lia)) as Hn.
  pose proof (forallb_seq _ 15 r Hn Hr) as Hk. cbv beta in Hk.
  apply andb_true_iff in Hk. destruct Hk as [_ Hk].
  apply andb_true_iff in Hk. lia.
Qed.

(** X10: on a display 1 to 128 pixels wide and of 1 to 16 pages, every pin of
    the lattice lies inside the display, in its upper half: 0 <= x <
    display_width and 0 <= y < display_height / 2. *)
Theorem pins_inside_display W P (r c : nat) :
  1 <= W <= 128 -> 1 <= P <= 16 -> (c <= r)%nat -> (r < 15)%nat ->
  let bd := init_pins W P in
  0 <= Pin.x (pin_at (pins bd) r c) < display_width bd
  /\ 0 <= Pin.y (pin_at (pins bd) r c) < display_height bd ÷ 2.
Proof.
  intros HW HP Hc Hr bd.
  destruct (init_pins_spec W P) as (Hw & Hh & _ & _ & _ & Hp & _).
  fold bd in Hw, Hh, Hp. rewrite Hw, Hh, (Hp r c) by lia.
  destruct (decide (c <= r)%nat); [|lia]. cbn [Pin.x Pin.y]. split.
  - exact (peg_x_in_display W r c HW Hc Hr).
  - exact (peg_y_in_display P r HP Hr).
Qed.

Lemma pins_inside_display_witness :
  let bd := init_pins 128 8 in
  0 <= Pin.x (pin_at (pins bd) 14 14) < display_width bd
  /\ 0 <= Pin.y (pin_at (pins bd) 14 14) < display_height bd ÷ 2.
Proof.
  exact (pins_inside_display 128 8 14 14 ltac:(lia) ltac:(lia) ltac:(lia) ltac:(lia)).
Defined.

Lemma nondecreasing_nth (l : list Z) : forall lo,
  nondecreasing lo l = true ->
  forall i j, (i <= j)%nat -> (j < length l)%nat -> lo <= nth i l 0 <= nth j l 0.
Proof.
  induction l as [|v rest IH]; intros lo H i j Hij Hj; cbn [length] in Hj; [lia|].
  cbn [nondecreasing] in H. apply andb_true_iff in H. destruct H as [Hv Hrest].
  apply Z.leb_le in Hv.
  destruct j as [|j].
  - assert (i = 0%nat) as -> by lia. cbn [nth]. lia.
  - destruct i as [|i]; cbn [nth].
    + destruct (IH v Hrest 0%nat j ltac:(lia) ltac:(lia)) as [H1 H2].
      destruct (IH v Hrest j j ltac:(lia) ltac:(lia)) as [H3 _]. lia.
    + destruct (IH v Hrest i j ltac:(lia) ltac:(lia)) as [H1 H2]. lia.
Qed.

Lemma bins_ok_128 : forallb bins_ok (zrange 1 128) = true.
Proof. vm_compute. reflexivity. Qed.

(** X11: on a display 1 to 128 pixels wide, the first bin stands at the x of
    the leftmost pin of the base row and the last bin at the x of its
    rightmost pin, the positions of the bins never decrease with the index,
    and every bin lies inside the display. *)
Theorem bins_span_the_base_row W P (i j : nat) :
  1 <= W <= 128 -> (i <= j)%nat -> (j < 7)%nat ->
  let bd := init_pins W P in
  bin_x bd !!! 0%nat = Pin.x (pin_at (pins bd) 14 0)
  /\ bin_x bd !!! 6%nat = Pin.x (pin_at (pins bd) 14 14)
  /\ 0 <= bin_x bd !!! i <= bin_x bd !!! j
  /\ bin_x bd !!! j < display_width bd.
Proof.
  intros HW Hij Hj bd.
  destruct (init_pins_spec W P) as (Hw & _ & _ & _ & _ & Hp & _ & _ & _ & Hb).
  fold bd in Hw, Hp, Hb.
  assert (Hbin : forall m, (m < 7)%nat ->
            bin_x bd !!! m
            = nth m (map (bin_pos (peg_x W 14 0) (peg_x W 14 14)) (seq 0 7)) 0).
  { intros m Hm. rewrite (list_lookup_total_correct _ _ _ (Hb m Hm)).
    set (f := bin_pos (peg_x W 14 0) (peg_x W 14 14)).
    rewrite (nth_indep _ 0 (f 0%nat)) by (rewrite List.length_map, List.length_seq; lia).
    rewrite map_nth, seq_nth by lia. reflexivity. }
  pose proof (forallb_zrange bins_ok 1 128 W bins_ok_128 ltac:(lia)) as Hok.
  unfold bins_ok in Hok. cbv zeta in Hok.
  set (xs := map (bin_pos (peg_x W 14 0) (peg_x W 14 14)) (seq 0 7)) in *.
  apply andb_true_iff in Hok. destruct Hok as [Hok Hin].
  apply andb_true_iff in Hok. destruct Hok as [Hok Hnd].
  apply andb_true_iff in Hok. destruct Hok as [H0 H6].
  apply Z.eqb_eq in H0. apply Z.eqb_eq in H6.
  assert (Hlen : length xs = 7%nat) by (unfold xs; rewrite List.length_map, List.length_seq; reflexivity).
  rewrite !Hbin, !Hp, Hw by lia.
  destruct (decide (0 <= 14)%nat); [|lia]. destruct (decide (14 <= 14)%nat); [|lia].
  cbn [Pin.x]. split; [exact H0|]. split; [exact H6|]. split.
  - apply (nondecreasing_nth xs 0 Hnd i j); lia.
  - rewrite forallb_forall in Hin.
    assert (Hmem : In (nth j xs 0) xs) by (apply nth_In; lia).
    apply Hin in Hmem. lia.
Qed.

Lemma bins_span_the_base_row_witness :
  let bd := init_pins 128 8 in
  bin_x bd !!! 0%nat = Pin.x (pin_at (pins bd) 14 0)
  /\ bin_x bd !!! 6%nat = Pin.x (pin_at (pins bd) 14 14)
  /\ 0 <= bin_x bd !!! 2%nat <= bin_x bd !!! 5%nat
  /\ bin_x bd !!! 5%nat < display_width bd.
Proof.
  exact (bins_span_the_base_row 128 8 2 5 ltac:(lia) ltac:(lia) ltac:(lia)).
Defined.

(** ** Every ball that left the display is counted in the next frame *)

(** X12: while a run goes on and button B shows no rising edge, a released
    ball that is inactive before an iteration is counted after it: a ball
    that left the display is credited to a bin by the next frame at the
    latest, and it stays inactive. *)
Theorem exited_ball_is_counted_next_frame W P env n (i : nat) :
  let s := main W P env n in
  let s' := main W P env (S n) in
  running s = true ->
  negb (gpio_get env BUTTON_B_PIN n) && negb (last_btn_b s) = false ->
  (i < Z.to_nat (ball_count s))%nat ->
  Ball.active (balls s !!! i) = false ->
  Ball.counted (balls s' !!! i) = true /\ Ball.active (balls s' !!! i) = false.
Proof.
  intros s s' Hr Hb Hi Ha.
  set (bd := init_pins W P).
  pose proof (inv0_main W P env n) as Hinv. fold s in Hinv.
  set (s3 := set_last_btns (negb (gpio_get env BUTTON_A_PIN n))
                           (negb (gpio_get env BUTTON_B_PIN n)) s).
  assert (Hs' : s' = next_iteration (run_frame bd env s3)).
  { unfold s'. rewrite main_succ. fold s bd. unfold loop_body.
    rewrite (iteration_main W P env n : iteration s = n).
    rewrite (handle_start_running env _ s Hr).
    unfold handle_reset. rewrite Hb. reflexivity. }
  assert (Hinv3 : inv0 s3) by exact (inv0_ext s s3 eq_refl eq_refl eq_refl Hinv).
  pose proof (inv0_release bd env s3 Hinv3) as (Hwf1 & Hn1 & _).
  destruct (release_ball_spec bd env s3) as (_ & _ & _ & _ & _ & _ & Hcase).
  set (s1 := release_ball bd env s3) in *.
  change (ball_count s3) with (ball_count s) in Hcase.
  change (balls s3) with (balls s) in Hcase.
  destruct Hinv as ((Hlb & _) & Hn & _).
  assert (Hsame : balls s1 !!! i = balls s !!! i /\ (i < Z.to_nat (ball_count s1))%nat).
  { destruct Hcase as [[Hc Hl] | (_ & _ & Hc & Hl & _)].
    - rewrite Hl, Hc. split; [reflexivity | exact Hi].
    - rewrite Hl, Hc. split; [apply list_lookup_total_insert_ne; lia | lia]. }
  destruct Hsame as [Hsame Hi1].
  assert (Hbs : balls s' = balls (for_range (ball_count s1) (service_ball bd env) s1)).
  { rewrite Hs'. unfold run_frame. change (running s3) with (running s). rewrite Hr.
    fold s1. apply check_finished_spec. }
  rewrite Hbs. rewrite <- (Z2Nat.id (ball_count s1)) by lia.
  destruct (service_loop_spec bd env (Z.to_nat (ball_count s1)) s1 Hwf1 ltac:(lia))
    as (_ & _ & _ & Hpost & _).
  specialize (Hpost i Hi1). rewrite Hsame in Hpost.
  destruct (ball_post_inactive bd _ _ Hpost Ha) as [H1 H2]. split; assumption.
Qed.

Lemma exited_ball_is_counted_next_frame_witness :
  Ball.active (balls (main 128 1 env_full_run 6) !!! 0%nat) = false
  /\ Ball.counted (balls (main 128 1 env_full_run 6) !!! 0%nat) = false
  /\ Ball.counted (balls (main 128 1 env_full_run 7) !!! 0%nat) = true.
Proof.
  assert (Ha : Ball.active (balls (main 128 1 env_full_run 6) !!! 0%nat) = false)
    by (vm_compute; reflexivity).
  split; [exact Ha|]. split; [vm_compute; reflexivity|].
  refine (proj1 (exited_ball_is_counted_next_frame 128 1 env_full_run 6 0 _ _ _ Ha)).
  - vm_compute; reflexivity.
  - reflexivity.
  - vm_compute; lia.
Defined.

(** ** Frame composition *)

(** Two loops that keep a relation between their states. *)
Lemma for_range_rel {A B : Type} (R : A -> B -> Prop) n
    (f : nat -> A -> A) (g : nat -> B -> B) a b :
  R a b -> (forall i x y, R x y -> R (f i x) (g i y)) ->
  R (for_range n f a) (for_range n g b).
Proof.
  intros H0 Hstep. destruct (Z.le_gt_cases n 0) as [Hn|Hn].
  - rewrite !for_range_nonpos by exact Hn. exact H0.
  - rewrite <- (Z2Nat.id n) by lia.
    induction (Z.to_nat n) as [|k IH].
    + rewrite !for_range_nonpos by lia. exact H0.
    + rewrite !for_range_succ. apply Hstep, IH.
Qed.

(** A loop that only appends to a list. *)
Lemma for_range_append {A : Type} (g : nat -> list A) (n : nat) (l : list A) :
  for_range (Z.of_nat n) (fun j l => l ++ g j) l = l ++ flat_map g (seq 0 n).
Proof.
  induction n as [|n IH].
  - rewrite for_range_nonpos by lia. cbn. rewrite app_nil_r. reflexivity.
  - rewrite for_range_succ, IH, seq_S, flat_map_app. cbn [flat_map Nat.add].
    rewrite app_nil_r, app_assoc. reflexivity.
Qed.

Lemma for_range_append_ext {A : Type} (body : nat -> list A -> list A)
    (g : nat -> list A) (n : nat) (l : list A) :
  (forall j l, (j < n)%nat -> body j l = l ++ g j) ->
  for_range (Z.of_nat n) body l = l ++ flat_map g (seq 0 n).
Proof.
  intros Hbody. rewrite <- for_range_append.
  revert l. induction n as [|n IH]; intros l.
  - rewrite !for_range_nonpos by lia. reflexivity.
  - rewrite !for_range_succ, IH by (intros; apply Hbody; lia).
    apply Hbody. lia.
Qed.

Lemma zrange_succ a n : zrange a (S n) = a :: zrange (a + 1) n.
Proof.
  unfold zrange. cbn [seq map]. f_equal; [lia|].
  rewrite <- seq_shift, map_map. apply map_ext. intros k. lia.
Qed.

(** The loop of line 210 stops on its own condition. *)
Lemma for_while_trace (a b : Z) (f : Z -> Draw) (fuel : nat) : forall h tr,
  b - h <= Z.of_nat fuel ->
  for_while fuel (fun h => (h <? a) && (h <? b)) (fun h tr => tr ++ [f h]) h tr
  = tr ++ map f (zrange h (Z.to_nat (Z.min a b - h))).
Proof.
  induction fuel as [|fuel IH]; intros h tr Hfuel; cbn [for_while].
  - replace (Z.to_nat (Z.min a b - h)) with 0%nat by lia. cbn. rewrite app_nil_r. reflexivity.
  - destruct (Z.ltb_spec h a) as [Ha|Ha]; destruct (Z.ltb_spec h b) as [Hb|Hb]; cbn [andb].
    + rewrite IH by lia.
      replace (Z.to_nat (Z.min a b - h)) with (S (Z.to_nat (Z.min a b - (h + 1)))) by lia.
      rewrite zrange_succ. cbn [map]. rewrite <- app_assoc. reflexivity.
    + replace (Z.to_nat (Z.min a b - h)) with 0%nat by lia. cbn. rewrite app_nil_r. reflexivity.
    + replace (Z.to_nat (Z.min a b - h)) with 0%nat by lia. cbn. rewrite app_nil_r. reflexivity.
    + replace (Z.to_nat (Z.min a b - h)) with 0%nat by lia. cbn. rewrite app_nil_r. reflexivity.
Qed.

Lemma draw_bins_eq bd s tr :
  draw_bins bd s tr = tr ++ flat_map (bar_pixels bd s) (seq 0 (Z.to_nat NUM_BINS)).
Proof.
  unfold draw_bins. change NUM_BINS with (Z.of_nat 7) at 1.
  change (Z.to_nat NUM_BINS) with 7%nat.
  apply for_range_append_ext. intros j l _.
  rewrite (for_while_trace (bins s !!! j) (display_height bd ÷ 2)
             (fun h => SetPixel (bin_x bd !!! j) (display_height bd - 1 - h))) by lia.
  rewrite Z.sub_0_r. reflexivity.
Qed.

(** X13: the histogram (lines 209-214).  For each bin in turn the frame sets
    min (bins[j], display_height / 2) pixels, none when that is not positive:
    all in the column [bin_x[j]], in the rows display_height - 1,
    display_height - 2, ... upward.  A bar is never higher than half the
    display, however large the count. *)
Theorem histogram_bars bd s tr :
  draw_bins bd s tr = tr ++ flat_map (bar_pixels bd s) (seq 0 (Z.to_nat NUM_BINS))
  /\ (forall j, Z.of_nat (length (bar_pixels bd s j))
                = Z.max 0 (Z.min (bins s !!! j) (display_height bd ÷ 2)))
  /\ (forall j p, In p (bar_pixels bd s j) ->
        exists y, p = SetPixel (bin_x bd !!! j) y
                  /\ display_height bd - display_height bd ÷ 2 <= y <= display_height bd - 1).
Proof.
  split; [exact (draw_bins_eq bd s tr)|split].
  - intros j. unfold bar_pixels, zrange. rewrite !List.length_map, List.length_seq. lia.
  - intros j p Hp. unfold bar_pixels, zrange in Hp. rewrite map_map in Hp.
    apply in_map_iff in Hp. destruct Hp as (k & <- & Hk). apply in_seq in Hk.
    eexists. split; [reflexivity|]. lia.
Qed.

Lemma flat_map_singleton {A B : Type} (f : A -> B) (l : list A) :
  flat_map (fun a => [f a]) l = map f l.
Proof. induction l as [|a l IH]; [reflexivity|]. cbn. rewrite IH. reflexivity. Qed.

Lemma for_range_append_Z {A : Type} (g : nat -> list A) (n : Z) (l : list A) :
  for_range n (fun j l => l ++ g j) l = l ++ flat_map g (seq 0 (Z.to_nat n)).
Proof.
  destruct (Z.le_gt_cases n 0) as [Hn|Hn].
  - rewrite for_range_nonpos by exact Hn.
    replace (Z.to_nat n) with 0%nat by lia. cbn. rewrite app_nil_r. reflexivity.
  - rewrite <- (Z2Nat.id n) at 1 by lia. apply for_range_append.
Qed.

Lemma draw_pins_eq bd tr : draw_pins bd tr = tr ++ pin_pixels bd.
Proof.
  unfold draw_pins, pin_pixels. change ROWS with (Z.of_nat 15) at 1.
  change (Z.to_nat ROWS) with 15%nat.
  apply for_range_append_ext. intros r l _.
  rewrite (for_range_append_Z
             (fun i => [SetPixel (Pin.x (pin_at (pins bd) r i)) (Pin.y (pin_at (pins bd) r i))])).
  rewrite flat_map_singleton. reflexivity.
Qed.

(** The traced functions compute the states of the plain ones. *)
Lemma service_ball_draw_state bd env i s tr :
  (service_ball_draw bd env i (s, tr)).1 = service_ball bd env i s.
Proof.
  unfold service_ball_draw, service_ball.
  destruct (Ball.active (balls s !!! i)).
  - destruct (update_ball bd env (balls s !!! i) (rand_calls s)). reflexivity.
  - destruct (negb (Ball.counted (balls s !!! i))); reflexivity.
Qed.

Lemma service_loop_draw_state bd env n s tr :
  (for_range n (service_ball_draw bd env) (s, tr)).1 = for_range n (service_ball bd env) s.
Proof.
  apply (for_range_rel (fun (st : State * list Draw) t => st.1 = t)); [reflexivity|].
  intros i [x tx] y E. cbn [fst] in E. subst y. apply service_ball_draw_state.
Qed.

Lemma run_frame_draw_state bd env s : (run_frame_draw bd env s).1 = run_frame bd env s.
Proof.
  unfold run_frame_draw, run_frame. destruct (running s); [|reflexivity].
  pose proof (service_loop_draw_state bd env (ball_count (release_ball bd env s))
                (release_ball bd env s)
                (draw_pins bd [Clear; DrawString 0 0
                                 (snprintf_3d 5 (ball_count (release_ball bd env s)))])) as E.
  cbv zeta.
  destruct (for_range (ball_count (release_ball bd env s)) (service_ball_draw bd env) _)
    as [t tr]. cbn [fst] in *. rewrite E. reflexivity.
Qed.

Lemma loop_body_draw_state bd env s : (loop_body_draw bd env s).1 = loop_body bd env s.
Proof.
  unfold loop_body_draw, loop_body. cbv zeta.
  pose proof (run_frame_draw_state bd env
    (set_last_btns (negb (gpio_get env BUTTON_A_PIN (iteration s)))
       (negb (gpio_get env BUTTON_B_PIN (iteration s)))
       (handle_reset (negb (gpio_get env BUTTON_B_PIN (iteration s)))
          (handle_start env (negb (gpio_get env BUTTON_A_PIN (iteration s))) s)))) as E.
  destruct (run_frame_draw bd env _) as [t tr]. cbn [fst] in *. rewrite E. reflexivity.
Qed.

(** One slot of the traced loop. *)
Lemma service_ball_draw_eq bd env i s tr :
  (i < length (balls s))%nat ->
  service_ball_draw bd env i (s, tr)
  = (service_ball bd env i s,
     tr ++ (if Ball.active (balls s !!! i)
            then [SetPixel (to_int (roundf (Ball.x (balls (service_ball bd env i s) !!! i))))
                           (to_int (roundf (Ball.y (balls (service_ball bd env i s) !!! i))))]
            else [])).
Proof.
  intros Hi. unfold service_ball_draw, service_ball.
  destruct (Ball.active (balls s !!! i)).
  - destruct (update_ball bd env (balls s !!! i) (rand_calls s)) as [b' k].
    cbn [set_rand_calls set_balls balls].
    rewrite list_lookup_total_insert_eq by exact Hi. reflexivity.
  - destruct (negb (Ball.counted (balls s !!! i))); rewrite app_nil_r; reflexivity.
Qed.

Lemma flat_map_ext_seq {A : Type} (f g : nat -> list A) (n : nat) :
  (forall i, (i < n)%nat -> f i = g i) -> flat_map f (seq 0 n) = flat_map g (seq 0 n).
Proof.
  induction n as [|n IH]; intros H; [reflexivity|].
  rewrite seq_S, !flat_map_app. cbn [flat_map Nat.add].
  rewrite IH by (intros; apply H; lia). rewrite (H n) by lia. reflexivity.
Qed.

(** The traced loop: one pixel per ball that was active when it began. *)
Lemma service_loop_draw bd env (n : nat) s tr :
  wf s -> (n <= Z.to_nat TOTAL_BALLS)%nat ->
  for_range (Z.of_nat n) (service_ball_draw bd env) (s, tr)
  = (for_range (Z.of_nat n) (service_ball bd env) s,
     tr ++ ball_pixels n s (for_range (Z.of_nat n) (service_ball bd env) s)).
Proof.
  intros Hwf. induction n as [|n IH]; intros Hn.
  - rewrite !for_range_nonpos by lia. unfold ball_pixels. cbn. rewrite app_nil_r. reflexivity.
  - rewrite !for_range_succ, IH by lia.
    destruct (service_loop_spec bd env n s Hwf ltac:(lia)) as (Hwt & _ & Hrest & _).
    set (t := for_range (Z.of_nat n) (service_ball bd env) s) in *.
    destruct Hwt as [Hlb Hln].
    rewrite service_ball_draw_eq by (rewrite Hlb; lia).
    destruct (service_ball_spec bd env n t (conj Hlb Hln) ltac:(lia)) as (_ & _ & Ho & _).
    set (t' := service_ball bd env n t) in *.
    f_equal. rewrite <- app_assoc. f_equal.
    unfold ball_pixels. rewrite seq_S, flat_map_app. cbn [flat_map Nat.add].
    rewrite app_nil_r, (lookup_total_eq _ _ n (Hrest n (le_n n))). f_equal.
    apply flat_map_ext_seq. intros i Hi.
    assert (Hne : i <> n) by lia.
    rewrite (lookup_total_eq (balls t') (balls t) i (Ho i Hne)). reflexivity.
Qed.

Lemma counter_fits_100 : forallb counter_fits (zrange 0 101) = true.
Proof. vm_compute. reflexivity. Qed.

Lemma ball_pixels_ext n s t t' : balls t' = balls t -> ball_pixels n s t' = ball_pixels n s t.
Proof. unfold ball_pixels. intros ->. reflexivity. Qed.

Lemma bar_pixels_ext bd t t' : bins t' = bins t -> bar_pixels bd t' = bar_pixels bd t.
Proof. unfold bar_pixels. intros ->. reflexivity. Qed.

(** The calls of an iteration that starts running and sees no rising edge of
    button B. *)
Lemma running_frame_trace W P env n :
  let bd := init_pins W P in
  let s := main W P env n in
  let s' := main W P env (S n) in
  let s1 := release_ball bd env
              (set_last_btns (negb (gpio_get env BUTTON_A_PIN n))
                             (negb (gpio_get env BUTTON_B_PIN n)) s) in
  running s = true ->
  negb (gpio_get env BUTTON_B_PIN n) && negb (last_btn_b s) = false ->
  loop_body_draw bd env s
  = (s', [Clear; DrawString 0 0 (snprintf_3d 5 (ball_count s'))]
         ++ pin_pixels bd
         ++ ball_pixels (Z.to_nat (ball_count s')) s1 s'
         ++ flat_map (bar_pixels bd s') (seq 0 (Z.to_nat NUM_BINS))
         ++ [Render]).
Proof.
  intros bd s s' s1 Hr Hb.
  pose proof (inv0_main W P env n) as Hinv. fold s in Hinv.
  set (s3 := set_last_btns (negb (gpio_get env BUTTON_A_PIN n))
                           (negb (gpio_get env BUTTON_B_PIN n)) s) in *.
  assert (Hinv3 : inv0 s3) by exact (inv0_ext s s3 eq_refl eq_refl eq_refl Hinv).
  pose proof (inv0_release bd env s3 Hinv3) as (Hwf1 & Hn1 & _). fold s1 in Hwf1, Hn1.
  set (t := for_range (ball_count s1) (service_ball bd env) s1).
  assert (Hs' : s' = next_iteration (check_finished t)).
  { unfold s'. rewrite main_succ. fold s bd. unfold loop_body.
    rewrite (iteration_main W P env n : iteration s = n).
    rewrite (handle_start_running env _ s Hr).
    unfold handle_reset. rewrite Hb. fold s3. unfold run_frame.
    change (running s3) with (running s). rewrite Hr. reflexivity. }
  destruct (check_finished_spec t) as (Eb & En & Ec & _).
  assert (Fb : balls s' = balls t) by (rewrite Hs'; exact Eb).
  assert (Fn : bins s' = bins t) by (rewrite Hs'; exact En).
  assert (Fc : ball_count s' = ball_count s1).
  { rewrite Hs'. cbn [next_iteration ball_count]. rewrite Ec. unfold t.
    rewrite <- (Z2Nat.id (ball_count s1)) at 1 by lia.
    destruct (service_loop_spec bd env (Z.to_nat (ball_count s1)) s1 Hwf1 ltac:(lia))
      as (_ & Hc & _).
    unfold ctl in Hc. congruence. }
  unfold loop_body_draw. cbv zeta.
  rewrite (iteration_main W P env n : iteration s = n).
  rewrite (handle_start_running env _ s Hr).
  unfold handle_reset. rewrite Hb. fold s3.
  unfold run_frame_draw. change (running s3) with (running s). rewrite Hr.
  assert (Hloop : forall tr,
             for_range (ball_count s1) (service_ball_draw bd env) (s1, tr)
             = (t, tr ++ ball_pixels (Z.to_nat (ball_count s1)) s1 t)).
  { intros tr.
    pose proof (service_loop_draw bd env (Z.to_nat (ball_count s1)) s1 tr Hwf1
                  ltac:(unfold TOTAL_BALLS in *; lia)) as H.
    rewrite Z2Nat.id in H by lia. exact H. }
  fold s1. cbv zeta. rewrite draw_pins_eq, Hloop.
  rewrite draw_bins_eq.
  rewrite (ball_pixels_ext _ s1 t s' Fb), (bar_pixels_ext bd t s' Fn), Fc, Hs'.
  cbn [app]. rewrite <- !app_assoc. reflexivity.
Qed.

(** X14: the frame of a run.  In an iteration that starts with the
    controller running and sees no rising edge of button B, the calls made on
    the display are, in this order: the buffer is cleared; the counter is
    written at (0, 0), three characters showing [ball_count]; one pixel per
    pin; one pixel for each ball that was active after the release step, at
    its new position rounded, and none for the other slots; the bars of the
    histogram; and one transfer to the display.  The state is that of
    [loop_body]. *)
Theorem frame_of_a_run W P env n :
  let bd := init_pins W P in
  let s := main W P env n in
  let s' := main W P env (S n) in
  let s1 := release_ball bd env
              (set_last_btns (negb (gpio_get env BUTTON_A_PIN n))
                             (negb (gpio_get env BUTTON_B_PIN n)) s) in
  running s = true ->
  negb (gpio_get env BUTTON_B_PIN n) && negb (last_btn_b s) = false ->
  loop_body_draw bd env s
  = (s', [Clear; DrawString 0 0 (snprintf_3d 5 (ball_count s'))]
         ++ pin_pixels bd
         ++ ball_pixels (Z.to_nat (ball_count s')) s1 s'
         ++ flat_map (bar_pixels bd s') (seq 0 (Z.to_nat NUM_BINS))
         ++ [Render])
  /\ String.length (snprintf_3d 5 (ball_count s')) = 3%nat.
Proof.
  intros bd s s' s1 Hr Hb. split.
  - exact (running_frame_trace W P env n Hr Hb).
  - pose proof (inv0_main W P env (S n)) as Hinv'. fold s' in Hinv'.
    destruct Hinv' as (_ & Hn' & _).
    apply Nat.eqb_eq.
    apply (forallb_zrange counter_fits 0 101 (ball_count s') counter_fits_100).
    unfold TOTAL_BALLS in Hn'. lia.
Qed.

Lemma frame_of_a_run_witness :
  (loop_body_draw (init_pins 128 8) env_full_run (main 128 8 env_full_run 1)).1
  = main 128 8 env_full_run 2
  /\ String.length (snprintf_3d 5 (ball_count (main 128 8 env_full_run 2))) = 3%nat.
Proof.
  assert (Hr : running (main 128 8 env_full_run 1) = true) by (vm_compute; reflexivity).
  destruct (frame_of_a_run 128 8 env_full_run 1 Hr eq_refl) as [E Hlen].
  split; [rewrite E; reflexivity | exact Hlen].
Defined.

(** X15: what is drawn when no run is on.  An iteration that starts idle and
    sees no rising edge makes no call on the display at all, so the last
    frame of a finished run stays on it; an iteration that sees a rising edge
    of button B clears the buffer and transfers it, and does nothing else,
    whether a run was on or not. *)
Theorem frames_without_a_run bd env s :
  (running s = false ->
   negb (gpio_get env BUTTON_A_PIN (iteration s)) && negb (last_btn_a s) = false ->
   negb (gpio_get env BUTTON_B_PIN (iteration s)) && negb (last_btn_b s) = false ->
   (loop_body_draw bd env s).2 = [])
  /\ (gpio_get env BUTTON_B_PIN (iteration s) = false -> last_btn_b s = false ->
      (loop_body_draw bd env s).2 = [Clear; Render]).
Proof.
  split.
  - intros Hr Ha Hb. unfold loop_body_draw, handle_start. cbv zeta.
    rewrite Ha. cbn [andb]. unfold handle_reset. rewrite Hb.
    unfold run_frame_draw. cbn [set_last_btns running]. rewrite Hr. reflexivity.
  - intros Hg Hl. unfold loop_body_draw. cbv zeta.
    destruct (handle_start_fields env (negb (gpio_get env BUTTON_A_PIN (iteration s))) s)
      as (Hb & _).
    rewrite Hg. cbn [negb]. rewrite Hb, Hl. cbn [negb andb].
    rewrite handle_reset_edge by (rewrite Hb; exact Hl).
    rewrite reset_simulation_eq. unfold run_frame_draw.
    cbn [set_last_btns set_bins set_balls set_running running]. reflexivity.
Qed.

Lemma frames_without_a_run_witness :
  let s := mkState (replicate 100 Ball.zero) (replicate 7 0) true 100 0 false false
                   0%nat 0%nat 4%nat in
  (loop_body_draw (init_pins 128 8) env_start_then_reset s).2 = [Clear; Render].
Proof.
  intros s.
  refine (proj2 (frames_without_a_run (init_pins 128 8) env_start_then_reset s) _ _);
    reflexivity.
Defined.

Lemma pin_pixels_init W P :
  pin_pixels (init_pins W P)
  = flat_map (fun r => map (fun i => SetPixel (peg_x W r i) (peg_y P r)) (seq 0 (S r)))
             (seq 0 15).
Proof.
  destruct (init_pins_spec W P) as (_ & _ & _ & _ & _ & Hp & _ & Hq & _).
  unfold pin_pixels. change (Z.to_nat ROWS) with 15%nat.
  apply flat_map_ext_seq. intros r Hr.
  rewrite (list_lookup_total_correct _ _ _ (Hq r Hr)).
  replace (Z.to_nat (Z.of_nat r + 1)) with (S r) by lia.
  apply map_ext_in. intros i Hi. apply in_seq in Hi.
  rewrite (Hp r i) by lia. destruct (decide (i <= r)%nat); [reflexivity | lia].
Qed.

(** X16: the pins on the display.  For the lattice of [init_pins] a frame
    sets 120 pin pixels, 1 + 2 + ... + 15; on a display 1 to 128 pixels wide
    and of 1 to 16 pages each of them lies inside the display, in its upper
    half. *)
Theorem pin_pixels_inside_display W P p :
  1 <= W <= 128 -> 1 <= P <= 16 ->
  let bd := init_pins W P in
  length (pin_pixels bd) = 120%nat
  /\ (In p (pin_pixels bd) ->
      exists x y, p = SetPixel x y
                  /\ 0 <= x < display_width bd /\ 0 <= y < display_height bd ÷ 2).
Proof.
  intros HW HP bd. unfold bd. rewrite pin_pixels_init. split.
  - reflexivity.
  - intros Hin. apply in_flat_map in Hin. destruct Hin as (r & Hr & Hin).
    apply in_seq in Hr. apply in_map_iff in Hin. destruct Hin as (c & <- & Hc).
    apply in_seq in Hc.
    destruct (init_pins_spec W P) as (Hw & Hh & _). rewrite Hw, Hh.
    exists (peg_x W r c), (peg_y P r). split; [reflexivity|]. split.
    + apply peg_x_in_display; lia.
    + apply peg_y_in_display; lia.
Qed.

Lemma pin_pixels_inside_display_witness :
  length (pin_pixels (init_pins 128 8)) = 120%nat.
Proof.
  exact (proj1 (pin_pixels_inside_display 128 8 Clear ltac:(lia) ltac:(lia))).
Defined.

Lemma pixel_row_87 : forallb pixel_row_ok (zrange 0 87) = true.
Proof. vm_compute. reflexivity. Qed.

Lemma roundf_yq a : 0 <= a <= 86 -> to_int (roundf (yq a)) = (3 * a + 1) / 2.
Proof.
  intros Ha. apply Z.eqb_eq.
  apply (forallb_zrange pixel_row_ok 0 87 a pixel_row_87). lia.
Qed.

(** X17: the pixel of a falling ball.  On a display of 1 to 16 pages, during
    a run, a released ball that is active when the loop over the balls begins
    gets one pixel in the frame, at its new position; the row of that pixel
    is from 2 to display_height + 1; and when the ball leaves the display in
    this iteration the row is display_height or more: the last pixel of every
    ball is requested below the last row of the display. *)
Theorem falling_ball_pixel W P env n (i : nat) :
  1 <= P <= 16 ->
  let bd := init_pins W P in
  let s := main W P env n in
  let s' := main W P env (S n) in
  let s1 := release_ball bd env
              (set_last_btns (negb (gpio_get env BUTTON_A_PIN n))
                             (negb (gpio_get env BUTTON_B_PIN n)) s) in
  running s = true ->
  negb (gpio_get env BUTTON_B_PIN n) && negb (last_btn_b s) = false ->
  (i < Z.to_nat (ball_count s'))%nat ->
  Ball.active (balls s1 !!! i) = true ->
  let row := to_int (roundf (Ball.y (balls s' !!! i))) in
  In (SetPixel (to_int (roundf (Ball.x (balls s' !!! i)))) row) (loop_body_draw bd env s).2
  /\ 2 <= row <= display_height bd + 1
  /\ (Ball.active (balls s' !!! i) = false -> display_height bd <= row).
Proof.
  intros HP bd s s' s1 Hr Hb Hi Hact row.
  pose proof (f_equal snd (running_frame_trace W P env n Hr Hb)) as E.
  cbn [snd] in E.
  destruct (init_pins_spec W P) as (_ & Hh & _). fold bd in Hh.
  assert (HH : 0 < display_height bd <= 128) by lia.
  pose proof (inv1_main W P env n HP) as [Hinv Hrun]. fold bd s in Hinv, Hrun.
  destruct (Hrun Hr) as [Hir _].
  set (s3 := set_last_btns (negb (gpio_get env BUTTON_A_PIN n))
                           (negb (gpio_get env BUTTON_B_PIN n)) s) in *.
  assert (Hinv3 : inv0 s3) by exact (inv0_ext s s3 eq_refl eq_refl eq_refl Hinv).
  assert (Hir3 : inv_run bd 1 s3) by exact Hir.
  pose proof (release_run bd env s3 Hinv3 Hir3 ltac:(lia)) as Hir1. fold s1 in Hir1.
  pose proof (inv0_release bd env s3 Hinv3) as (Hwf1 & Hn1 & _). fold s1 in Hwf1, Hn1.
  set (t := for_range (ball_count s1) (service_ball bd env) s1).
  assert (Hs' : s' = next_iteration (check_finished t)).
  { unfold s'. rewrite main_succ. fold s bd. unfold loop_body.
    rewrite (iteration_main W P env n : iteration s = n).
    rewrite (handle_start_running env _ s Hr).
    unfold handle_reset. rewrite Hb. fold s3. unfold run_frame.
    change (running s3) with (running s). rewrite Hr. reflexivity. }
  destruct (check_finished_spec t) as (Eb & _ & Ec & _).
  assert (Fb : balls s' = balls t) by (rewrite Hs'; exact Eb).
  destruct (service_loop_spec bd env (Z.to_nat (ball_count s1)) s1 Hwf1
              ltac:(unfold TOTAL_BALLS in *; lia)) as (_ & Hc & _ & Hpost & _).
  rewrite Z2Nat.id in Hc, Hpost by lia. fold t in Hc, Hpost.
  assert (Fc : ball_count s' = ball_count s1).
  { rewrite Hs'. cbn [next_iteration ball_count]. rewrite Ec. unfold ctl in Hc. congruence. }
  rewrite Fc in Hi.
  destruct Hir1 as (_ & Hage & _). destruct (Hage i Hi Hact) as (Hy & Ha0 & Ha1).
  set (a := age (balls s1 !!! i)) in *.
  specialize (Hpost i Hi). unfold ball_post in Hpost. rewrite Hact in Hpost.
  destruct Hpost as (Hy' & Ha' & _).
  rewrite Hy, (fadd_yq a) in Hy', Ha' by lia.
  assert (Hrow : row = (3 * (a + 1) + 1) / 2).
  { unfold row. rewrite Fb, Hy'. apply roundf_yq. lia. }
  split; [|split].
  - fold bd s s' in E. rewrite E.
    apply in_or_app; right. apply in_or_app; right. apply in_or_app; left.
    unfold ball_pixels. apply in_flat_map. exists i. split.
    + apply in_seq. rewrite Fc. lia.
    + fold s3. fold s1. rewrite Hact. left. reflexivity.
  - rewrite Hrow. clearbody a. split.
    + apply Z.div_le_lower_bound; lia.
    + apply Z.lt_succ_r, Z.div_lt_upper_bound; lia.
  - intros Hin. rewrite Fb, Ha' in Hin. apply negb_false_iff in Hin.
    apply fle_yq in Hin; [|lia].
    rewrite Hrow. apply Z.div_le_lower_bound; lia.
Qed.

Lemma falling_ball_pixel_witness :
  64 <= to_int (roundf (Ball.y (balls (main 128 8 env_full_run 43) !!! 0%nat))).
Proof.
  assert (Hr : running (main 128 8 env_full_run 42) = true) by (vm_compute; reflexivity).
  assert (Hi : (0 < Z.to_nat (ball_count (main 128 8 env_full_run 43)))%nat)
    by (vm_compute; lia).
  assert (Ha : Ball.active
                 (balls (release_ball (init_pins 128 8) env_full_run
                           (set_last_btns
                              (negb (gpio_get env_full_run BUTTON_A_PIN 42))
                              (negb (gpio_get env_full_run BUTTON_B_PIN 42))
                              (main 128 8 env_full_run 42))) !!! 0%nat) = true)
    by (vm_compute; reflexivity).
  assert (Hx : Ball.active (balls (main 128 8 env_full_run 43) !!! 0%nat) = false)
    by (vm_compute; reflexivity).
  exact (proj2 (proj2 (falling_ball_pixel 128 8 env_full_run 42 0 ltac:(lia)
                         Hr eq_refl Hi Ha)) Hx).
Defined.

Lemma check_finished_ctl s :
  last_rel (check_finished s) = last_rel s
  /\ clock_reads (check_finished s) = clock_reads s
  /\ rand_calls (check_finished s) = rand_calls s.
Proof.
  unfold check_finished.
  destruct (TOTAL_BALLS <=? ball_count s); [|repeat split].
  destruct (negb (any_active s)); repeat split.
Qed.

Lemma release_ball_pace bd env s :
  (forall k, time_us env k <= time_us env (S k)) ->
  let s' := release_ball bd env s in
  (ball_count s' = ball_count s /\ last_rel s' = last_rel s)
  \/ (ball_count s' = ball_count s + 1
      /\ ball_count s < TOTAL_BALLS
      /\ last_rel s + RELEASE_DELAY <= last_rel s').
Proof.
  intros Hmono. unfold release_ball.
  destruct (ball_count s <? TOTAL_BALLS) eqn:Hlt; [|left; split; reflexivity].
  unfold get_absolute_time. cbn [last_rel ball_count balls clock_reads].
  destruct (RELEASE_DELAY <=? time_us env (clock_reads s) - last_rel s) eqn:Hd.
  - right. cbv zeta.
    cbn [set_last_rel set_ball_count set_balls last_rel ball_count clock_reads].
    apply Z.ltb_lt in Hlt. apply Z.leb_le in Hd.
    specialize (Hmono (clock_reads s)). unfold RELEASE_DELAY in *.
    split; [reflexivity|]. split; [assumption|]. lia.
  - left. split; reflexivity.
Qed.

(** X18: the pace of the releases.  With a clock that never goes back, an
    iteration that starts with the controller running releases at most one
    ball, and when it releases one the new [last_rel] is at least
    RELEASE_DELAY microseconds after the previous one: two balls of a run
    are never released less than 10 ms apart.  Otherwise [ball_count] and
    [last_rel] are unchanged. *)
Theorem releases_are_paced W P env n :
  (forall k, time_us env k <= time_us env (S k)) ->
  let s := main W P env n in
  let s' := main W P env (S n) in
  running s = true ->
  (ball_count s' = ball_count s /\ last_rel s' = last_rel s)
  \/ (ball_count s' = ball_count s + 1
      /\ last_rel s + RELEASE_DELAY <= last_rel s').
Proof.
  intros Hmono s s' Hr.
  set (bd := init_pins W P).
  pose proof (inv0_main W P env n) as Hinv. fold s in Hinv.
  assert (Hs' : s' = loop_body bd env s) by (unfold s'; rewrite main_succ; reflexivity).
  rewrite Hs'. unfold loop_body.
  rewrite (handle_start_running env _ s Hr).
  set (a := negb (gpio_get env BUTTON_A_PIN (iteration s))).
  set (b := negb (gpio_get env BUTTON_B_PIN (iteration s))).
  unfold handle_reset. destruct (b && negb (last_btn_b s)) eqn:Hb.
  - left. rewrite reset_simulation_eq. unfold run_frame.
    cbn [set_last_btns set_bins set_balls set_running running next_iteration
         ball_count last_rel]. split; reflexivity.
  - set (s3 := set_last_btns a b s).
    assert (Hinv3 : inv0 s3) by exact (inv0_ext s s3 eq_refl eq_refl eq_refl Hinv).
    unfold run_frame. change (running s3) with (running s). rewrite Hr.
    pose proof (inv0_release bd env s3 Hinv3) as (Hwf1 & Hn1 & _).
    set (s1 := release_ball bd env s3) in *.
    destruct (service_loop_spec bd env (Z.to_nat (ball_count s1)) s1 Hwf1
                ltac:(unfold TOTAL_BALLS in *; lia)) as (_ & Hc & _).
    rewrite Z2Nat.id in Hc by lia.
    set (t := for_range (ball_count s1) (service_ball bd env) s1) in *.
    destruct (check_finished_spec t) as (_ & _ & Ec & _).
    destruct (check_finished_ctl t) as (El & _).
    cbn [next_iteration ball_count last_rel]. rewrite Ec, El.
    unfold ctl in Hc. injection Hc as _ Hcn Hcl _ _ _ _. rewrite Hcn, Hcl.
    destruct (release_ball_pace bd env s3 Hmono) as [[H1 H2] | (H1 & _ & H2)];
      fold s1 in H1, H2; [left | right]; split; assumption.
Qed.

Lemma releases_are_paced_witness :
  let s := main 128 8 env_full_run 1 in
  let s' := main 128 8 env_full_run 2 in
  (ball_count s' = ball_count s /\ last_rel s' = last_rel s)
  \/ (ball_count s' = ball_count s + 1 /\ last_rel s + RELEASE_DELAY <= last_rel s').
Proof.
  assert (Hr : running (main 128 8 env_full_run 1) = true) by (vm_compute; reflexivity).
  refine (releases_are_paced 128 8 env_full_run 1 _ Hr).
  intros k. cbn [time_us env_full_run]. lia.
Defined.

Lemma handle_reset_idle b s :
  running s = false ->
  running (handle_reset b s) = false
  /\ ball_count (handle_reset b s) = ball_count s
  /\ rand_calls (handle_reset b s) = rand_calls s.
Proof.
  intros Hr. unfold handle_reset. destruct (b && negb (last_btn_b s)).
  - rewrite reset_simulation_eq.
    cbn [set_bins set_balls set_running running ball_count rand_calls].
    repeat split.
  - repeat split. exact Hr.
Qed.

(** X19: no run starts by itself.  As long as button A has not been pressed
    in any iteration so far, whatever button B, the clock and [rand()] do, the
    controller is idle, no ball has been released, no value of [rand()] has
    been drawn and every bin is empty. *)
Theorem no_run_without_button_a W P env n :
  (forall k, (k < n)%nat -> gpio_get env BUTTON_A_PIN k = true) ->
  let s := main W P env n in
  running s = false /\ ball_count s = 0 /\ rand_calls s = 0%nat /\ sum_bins s = 0.
Proof.
  intros HA s.
  assert (H : running s = false /\ ball_count s = 0 /\ rand_calls s = 0%nat).
  { unfold s. clear s. induction n as [|n IH].
    - vm_compute. repeat split.
    - destruct IH as (Hr & Hc & Hk); [intros k Hk; apply HA; lia|].
      rewrite main_succ. set (s := main W P env n) in *.
      unfold loop_body. rewrite (iteration_main W P env n : iteration s = n).
      rewrite (HA n) by lia. cbn [negb].
      change (handle_start env false s) with s.
      destruct (handle_reset_idle (negb (gpio_get env BUTTON_B_PIN n)) s Hr)
        as (Hr' & Hc' & Hk').
      set (s2 := handle_reset (negb (gpio_get env BUTTON_B_PIN n)) s) in *.
      unfold run_frame. cbn [set_last_btns running]. rewrite Hr'.
      cbn [next_iteration running ball_count rand_calls].
      change (running s2 = false /\ ball_count s2 = 0 /\ rand_calls s2 = 0%nat).
      repeat split; congruence. }
  destruct H as (Hr & Hc & Hk). repeat split; try assumption.
  destruct (inv0_main W P env n) as (_ & Hn & Hsum & Hfree). fold s in Hn, Hsum, Hfree.
  pose proof (counted_count_nonneg (balls s)) as Hlo.
  pose proof (counted_count_le (balls s) (Z.to_nat (ball_count s))
                (fun i Hi => proj2 (Hfree i Hi))) as Hhi.
  rewrite Hsum. lia.
Qed.

Lemma no_run_without_button_a_witness :
  running (main 128 8 env_always_right 3) = false
  /\ ball_count (main 128 8 env_always_right 3) = 0
  /\ rand_calls (main 128 8 env_always_right 3) = 0%nat
  /\ sum_bins (main 128 8 env_always_right 3) = 0.
Proof.
  apply (no_run_without_button_a 128 8 env_always_right 3).
  intros k Hk. reflexivity.
Defined.

(** ** Every released ball is on track *)

Lemma on_track_init bd b0 : on_track bd (init_ball bd b0).
Proof.
  exists 0%nat, [], 0. split; [reflexivity|]. left. reflexivity.
Qed.

Lemma on_track_update bd env b k :
  Ball.active b = true -> on_track bd b -> on_track bd (update_ball bd env b k).1.
Proof.
  intros Ha (a & rows & m & Hf & Hin). rewrite Ha in Hf.
  rewrite (update_ball_split bd env b k Ha). cbv zeta. cbn [fst].
  pose proof (fall_rows_snoc _ _ a _ _ _ _ _ Hf) as Hs.
  set (y1 := fadd (Ball.y b) fall_step) in *.
  destruct (deflects (step_y bd) y1 (Ball.last_row b)).
  - exists (S a), (rows ++ [row_index (step_y bd) y1]),
      (m + (if Z.land (rand env k) 1 mod 256 =? 0 then -1 else 1)).
    cbn [Ball.x Ball.y Ball.last_row Ball.active]. split; [exact Hs|].
    rewrite length_app. cbn [length]. rewrite Nat.add_1_r.
    unfold states_after. cbn [Nat.iter]. apply step_states_in. exact Hin.
  - exists (S a), (rows ++ []), m.
    cbn [Ball.x Ball.y Ball.last_row Ball.active]. split; [exact Hs|].
    rewrite app_nil_r. exact Hin.
Qed.

Lemma on_track_counted bd b : on_track bd b -> on_track bd (mark_counted b).
Proof. exact (fun H => H). Qed.

Lemma service_ball_track bd env (j N : nat) s :
  wf s -> (j < Z.to_nat TOTAL_BALLS)%nat ->
  (forall i, (i < N)%nat -> on_track bd (balls s !!! i)) ->
  forall i, (i < N)%nat -> on_track bd (balls (service_ball bd env j s) !!! i).
Proof.
  intros [Hlb _] Hj Hall i Hi.
  assert (Hjl : (j < length (balls s))%nat) by (rewrite Hlb; exact Hj).
  unfold service_ball.
  destruct (Ball.active (balls s !!! j)) eqn:Ha.
  - pose proof (on_track_update bd env (balls s !!! j) (rand_calls s) Ha) as Hup.
    destruct (update_ball bd env (balls s !!! j) (rand_calls s)) as [b' k'].
    cbn [fst] in Hup. cbn [set_rand_calls set_balls balls].
    destruct (decide (i = j)) as [->|Hne].
    + rewrite list_lookup_total_insert_eq by exact Hjl. apply Hup, Hall, Hi.
    + rewrite list_lookup_total_insert_ne by congruence. apply Hall, Hi.
  - destruct (Ball.counted (balls s !!! j)); cbn [negb]; [apply Hall, Hi|].
    rewrite settle_balls.
    destruct (decide (i = j)) as [->|Hne].
    + rewrite list_lookup_total_insert_eq by exact Hjl.
      apply on_track_counted, Hall, Hi.
    + rewrite list_lookup_total_insert_ne by congruence. apply Hall, Hi.
Qed.

(** The loop of lines 194-208, stopped before slot [n]. *)
Lemma service_loop_track bd env (n N : nat) s :
  wf s -> (n <= Z.to_nat TOTAL_BALLS)%nat ->
  (forall i, (i < N)%nat -> on_track bd (balls s !!! i)) ->
  let t := for_range (Z.of_nat n) (service_ball bd env) s in
  wf t /\ forall i, (i < N)%nat -> on_track bd (balls t !!! i).
Proof.
  intros Hwf Hn Hall.
  apply (for_range_ind
           (fun (_ : nat) t => wf t /\ forall i, (i < N)%nat -> on_track bd (balls t !!! i))).
  - split; assumption.
  - intros j t Hj [Hwt Ht].
    destruct (service_ball_spec bd env j t Hwt ltac:(lia)) as (Hw' & _).
    split; [exact Hw'|].
    apply service_ball_track; [exact Hwt | lia | exact Ht].
Qed.

Lemma release_track bd env s :
  inv0 s ->
  (forall i, (i < Z.to_nat (ball_count s))%nat -> on_track bd (balls s !!! i)) ->
  forall i, (i < Z.to_nat (ball_count (release_ball bd env s)))%nat ->
            on_track bd (balls (release_ball bd env s) !!! i).
Proof.
  intros ((Hlb & _) & Hn & _ & _) Hall i Hi.
  destruct (release_ball_spec bd env s) as (_ & _ & _ & _ & _ & _ & Hcase).
  destruct Hcase as [[Hc Hl] | (Hlt & _ & Hc & Hl & _)].
  - rewrite Hl. apply Hall. rewrite <- Hc. exact Hi.
  - rewrite Hc in Hi. rewrite Hl.
    assert (Hk : (Z.to_nat (ball_count s) < length (balls s))%nat).
    { rewrite Hlb. unfold TOTAL_BALLS in *. lia. }
    destruct (decide (i = Z.to_nat (ball_count s))) as [->|Hne].
    + rewrite list_lookup_total_insert_eq by exact Hk. apply on_track_init.
    + rewrite list_lookup_total_insert_ne by congruence. apply Hall. lia.
Qed.

Lemma inv_track_ext bd s s' :
  balls s' = balls s -> ball_count s' = ball_count s -> running s' = running s ->
  inv_track bd s -> inv_track bd s'.
Proof. unfold inv_track. intros -> -> ->. exact (fun H => H). Qed.

Lemma inv_track_handle_start bd env a s :
  inv_track bd s -> inv_track bd (handle_start env a s).
Proof.
  intros H. unfold handle_start.
  destruct (a && negb (last_btn_a s) && negb (running s)); [|exact H].
  rewrite reset_simulation_eq. intros _ i Hi. exfalso. revert Hi.
  cbn [ball_count set_last_rel get_absolute_time set_bins set_balls
       set_ball_count set_running]. cbv zeta.
  change (Z.to_nat 0) with 0%nat. lia.
Qed.

Lemma inv_track_handle_reset bd b s :
  inv_track bd s -> inv_track bd (handle_reset b s).
Proof.
  intros H. unfold handle_reset.
  destruct (b && negb (last_btn_b s)); [|exact H].
  rewrite reset_simulation_eq. intros Hr. exfalso. revert Hr.
  cbn [running set_bins set_balls set_running]. discriminate.
Qed.

(** The state in which the frame begins (line 179). *)
Lemma inv_track_buttons bd env a b s :
  inv0 s -> inv_track bd s ->
  let s3 := set_last_btns a b (handle_reset b (handle_start env a s)) in
  inv0 s3 /\ inv_track bd s3.
Proof.
  intros H0 Ht s3. split.
  - refine (inv0_ext _ _ eq_refl eq_refl eq_refl _).
    apply inv0_handle_reset, inv0_handle_start, H0.
  - refine (inv_track_ext bd _ _ eq_refl eq_refl eq_refl _).
    apply inv_track_handle_reset, inv_track_handle_start, Ht.
Qed.

Lemma inv_track_run_frame bd env s :
  inv0 s -> inv_track bd s -> inv_track bd (run_frame bd env s).
Proof.
  intros H0 Ht. unfold run_frame. destruct (running s) eqn:Hr; [|exact Ht].
  pose proof (inv0_release bd env s H0) as (Hwf & Hn & _).
  pose proof (release_track bd env s H0 (Ht Hr)) as H1.
  set (s1 := release_ball bd env s) in *.
  destruct (service_loop_track bd env (Z.to_nat (ball_count s1))
              (Z.to_nat (ball_count s1)) s1 Hwf
              ltac:(unfold TOTAL_BALLS in *; lia) H1) as [_ H2].
  destruct (service_loop_spec bd env (Z.to_nat (ball_count s1)) s1 Hwf
              ltac:(unfold TOTAL_BALLS in *; lia)) as (_ & Hc & _).
  rewrite Z2Nat.id in H2, Hc by lia.
  set (t := for_range (ball_count s1) (service_ball bd env) s1) in *.
  destruct (check_finished_spec t) as (Eb & _ & Ec & _).
  intros _ i Hi. rewrite Eb. apply H2. rewrite Ec in Hi.
  unfold ctl in Hc. injection Hc as _ Hcn _ _ _ _ _. rewrite <- Hcn. exact Hi.
Qed.

Lemma inv_track_loop_body bd env s :
  inv0 s -> inv_track bd s -> inv_track bd (loop_body bd env s).
Proof.
  intros H0 Ht. unfold loop_body.
  refine (inv_track_ext bd _ _ eq_refl eq_refl eq_refl _).
  destruct (inv_track_buttons bd env
              (negb (gpio_get env BUTTON_A_PIN (iteration s)))
              (negb (gpio_get env BUTTON_B_PIN (iteration s))) s H0 Ht) as [H3 Ht3].
  apply inv_track_run_frame; assumption.
Qed.

Lemma inv_track_main W P env n : inv_track (init_pins W P) (main W P env n).
Proof.
  induction n as [|n IH].
  - unfold main, main_init. cbn [main_loop]. rewrite reset_simulation_eq.
    intros Hr. exfalso. revert Hr. cbn. discriminate.
  - rewrite main_succ. apply inv_track_loop_body; [apply inv0_main | exact IH].
Qed.

Lemma rows_increasing_length rows : forall lo,
  rows_increasing lo rows = true -> -1 <= lo <= 14 ->
  Z.of_nat (length rows) <= 14 - lo.
Proof.
  induction rows as [|r rest IH]; intros lo H Hlo; [cbn [length]; lia|].
  cbn [rows_increasing] in H. apply andb_true_iff in H. destruct H as [H Hrest].
  apply andb_true_iff in H. destruct H as [H1 H2].
  apply Z.ltb_lt in H1. apply Z.ltb_lt in H2. unfold ROWS, BASE_PINS in H2.
  specialize (IH r Hrest ltac:(lia)). cbn [length]. lia.
Qed.

(** On a display of 1 to 16 pages a ball that has left the display was
    deflected at most ROWS times. *)
Lemma exit_rows_short P (a : nat) y lr rows :
  1 <= P <= 16 ->
  fall_rows (lattice_step_y P) (P * 8) a 0%Q (-1) = (y, lr, false, rows) ->
  (length rows <= 15)%nat.
Proof.
  intros HP Hf.
  pose proof (forallb_zrange fall_ok 1 16 P fall_ok_16 ltac:(lia)) as Hok.
  unfold fall_ok in Hok.
  destruct (fall_rows (lattice_step_y P) (P * 8) 86 0%Q (-1))
    as [[[y86 lr86] af] rows86] eqn:E.
  apply andb_true_iff in Hok. destruct Hok as [Haf Hrows].
  destruct af; [discriminate Haf|].
  pose proof (rows_increasing_length rows86 (-1) Hrows ltac:(lia)) as Hlen.
  assert (rows = rows86) as ->; [|lia].
  destruct (Nat.le_gt_cases a 86) as [Hle|Hgt].
  - apply (fall_rows_more _ _ (86 - a)) in Hf.
    replace (a + (86 - a))%nat with 86%nat in Hf by lia. congruence.
  - apply (fall_rows_more _ _ (a - 86)) in E.
    replace (86 + (a - 86))%nat with a in E by lia. congruence.
Qed.

(** The bins depend on the width of the display only. *)
Lemma bin_x_pages W P : bin_x (init_pins W P) = bin_x (init_pins W 8).
Proof.
  destruct (init_pins_spec W P) as (_ & _ & _ & _ & _ & _ & _ & _ & Hl & Hb).
  destruct (init_pins_spec W 8) as (_ & _ & _ & _ & _ & _ & _ & _ & Hl8 & Hb8).
  apply list_eq. intros i.
  destruct (Nat.lt_ge_cases i 7) as [Hi|Hi].
  - rewrite Hb, Hb8 by exact Hi. reflexivity.
  - rewrite !lookup_ge_None_2 by lia. reflexivity.
Qed.

Lemma bin_scan_ext bd bd' b b' :
  bin_x bd' = bin_x bd -> Ball.x b' = Ball.x b -> bin_scan bd' b' = bin_scan bd b.
Proof. unfold bin_scan. intros -> ->. reflexivity. Qed.

Lemma true_dist_ext bd bd' b b' j :
  bin_x bd' = bin_x bd -> Ball.x b' = Ball.x b -> true_dist bd' b' j = true_dist bd b j.
Proof. unfold true_dist. intros -> ->. reflexivity. Qed.

Lemma nearest_ok_spec bd bd' b :
  bin_x bd' = bin_x bd -> nearest_ok bd (Ball.x b) = true ->
  let idx := Z.to_nat (snd (bin_scan bd' b)) in
  (idx < 7)%nat
  /\ (forall j, (j < 7)%nat -> (true_dist bd' b idx <= true_dist bd' b j)%Q)
  /\ (forall j, (j < idx)%nat -> (true_dist bd' b idx < true_dist bd' b j)%Q).
Proof.
  intros Hb Hok idx. unfold nearest_ok in Hok. cbv zeta in Hok.
  set (b0 := Ball.mk (Ball.x b) 0%Q false false 0) in *.
  assert (Hs : bin_scan bd' b = bin_scan bd b0) by (apply bin_scan_ext; [exact Hb | reflexivity]).
  assert (Hd : forall j, true_dist bd' b j = true_dist bd b0 j)
    by (intros j; apply true_dist_ext; [exact Hb | reflexivity]).
  unfold idx. rewrite Hs.
  apply andb_true_iff in Hok. destruct Hok as [Hok Hlow].
  apply andb_true_iff in Hok. destruct Hok as [Hidx Hmin].
  apply Nat.ltb_lt in Hidx.
  split; [exact Hidx|]. split.
  - intros j Hj. rewrite !Hd. apply Qle_bool_iff. exact (forallb_seq _ 7 j Hmin Hj).
  - intros j Hj. rewrite !Hd. apply Qnot_le_lt. intros Hle.
    pose proof (forallb_seq _ _ j Hlow Hj) as Hn. cbv beta in Hn.
    apply Qle_bool_iff in Hle. rewrite Hle in Hn. discriminate Hn.
Qed.

Lemma bins_nearest_128 : bins_nearest_ok 128 = true.
Proof. vm_compute. reflexivity. Qed.

(** C5: on the display of the board, 128 pixels wide (1 to 16 pages),
    whatever the buttons, the clock and [rand()] do: whenever the loop over
    the released balls (lines 194-208) reaches a slot that is inactive and not
    counted yet, it settles that particle, adding one to exactly one bin; the
    x position of that bin is at the least absolute distance from the
    particle's final x over all NUM_BINS bins, and every bin of lower index is
    strictly farther, so that among several nearest bins the one of lowest
    index is taken.  [s3] is the state in which the frame begins, [s1] the
    state after the release step, [t] the state in which the loop reaches
    slot [i]. *)
Theorem C5_nearest_bin P env n (i : nat) :
  1 <= P <= 16 ->
  let bd := init_pins 128 P in
  let s := main 128 P env n in
  let btn_a := negb (gpio_get env BUTTON_A_PIN n) in
  let btn_b := negb (gpio_get env BUTTON_B_PIN n) in
  let s3 := set_last_btns btn_a btn_b (handle_reset btn_b (handle_start env btn_a s)) in
  let s1 := release_ball bd env s3 in
  let t := for_range (Z.of_nat i) (service_ball bd env) s1 in
  let p := balls t !!! i in
  let idx := Z.to_nat (snd (bin_scan bd p)) in
  running s3 = true ->
  (i < Z.to_nat (ball_count s1))%nat ->
  Ball.active p = false -> Ball.counted p = false ->
  main 128 P env (S n)
  = next_iteration (check_finished (for_range (ball_count s1) (service_ball bd env) s1))
  /\ service_ball bd env i t = settle bd i t
  /\ (idx < 7)%nat
  /\ bins (service_ball bd env i t) = <[idx := bins t !!! idx + 1]> (bins t)
  /\ (forall j, (j < 7)%nat -> (true_dist bd p idx <= true_dist bd p j)%Q)
  /\ (forall j, (j < idx)%nat -> (true_dist bd p idx < true_dist bd p j)%Q).
Proof.
  intros HP bd s btn_a btn_b s3 s1 t p idx Hr Hi Hact Hcnt.
  destruct (init_pins_spec 128 P) as (_ & Hh & Hsx & Hsy & _ & Hp & _).
  fold bd in Hh, Hsx, Hsy, Hp.
  destruct (inv_track_buttons bd env btn_a btn_b s
              (inv0_main 128 P env n) (inv_track_main 128 P env n)) as [H3 Ht3].
  fold s3 in H3, Ht3.
  pose proof (inv0_release bd env s3 H3) as (Hwf1 & Hn1 & _).
  pose proof (release_track bd env s3 H3 (Ht3 Hr)) as Ht1.
  fold s1 in Hwf1, Hn1, Ht1.
  destruct (service_loop_track bd env i (Z.to_nat (ball_count s1)) s1 Hwf1
              ltac:(unfold TOTAL_BALLS in *; lia) Ht1) as [_ Htt].
  fold t in Htt.
  destruct (Htt i Hi) as (a & rows & m & Hf & Hin). fold p in Hf, Hin.
  rewrite Hact, Hsy, Hh in Hf.
  pose proof (exit_rows_short P a _ _ _ HP Hf) as Hlen.
  assert (Hapex : Pin.x (pin_at (pins bd) 0 0) = peg_x 128 0 0).
  { rewrite Hp by lia. reflexivity. }
  rewrite Hsx, Hapex in Hin.
  pose proof bins_nearest_128 as Hok. unfold bins_nearest_ok in Hok. cbv zeta in Hok.
  pose proof (forallb_seq _ 16 (length rows) Hok ltac:(lia)) as Hd. cbv beta in Hd.
  pose proof (proj1 (forallb_forall _ _) Hd _ Hin) as Hx. cbn [snd] in Hx.
  destruct (nearest_ok_spec (init_pins 128 8) bd p (bin_x_pages 128 P) Hx)
    as (Hidx & Hmin & Hlow).
  assert (Hsettle : service_ball bd env i t = settle bd i t).
  { unfold service_ball. fold p. rewrite Hact, Hcnt. reflexivity. }
  split; [|split; [exact Hsettle|split; [exact Hidx|split; [|split; assumption]]]].
  - rewrite main_succ. fold bd s. unfold loop_body.
    rewrite (iteration_main 128 P env n : iteration s = n).
    fold btn_a btn_b. fold s3. unfold run_frame. rewrite Hr. reflexivity.
  - rewrite Hsettle. apply settle_bins.
Qed.

Lemma C5_nearest_bin_witness :
  let bd := init_pins 128 8 in
  let s := main 128 8 env_full_run 43 in
  let btn_a := negb (gpio_get env_full_run BUTTON_A_PIN 43) in
  let btn_b := negb (gpio_get env_full_run BUTTON_B_PIN 43) in
  let s3 := set_last_btns btn_a btn_b
              (handle_reset btn_b (handle_start env_full_run btn_a s)) in
  let s1 := release_ball bd env_full_run s3 in
  let t := for_range (Z.of_nat 0) (service_ball bd env_full_run) s1 in
  let p := balls t !!! 0%nat in
  let idx := Z.to_nat (snd (bin_scan bd p)) in
  (idx < 7)%nat
  /\ bins (service_ball bd env_full_run 0 t) = <[idx := bins t !!! idx + 1]> (bins t)
  /\ (true_dist bd p idx <= true_dist bd p 3)%Q.
Proof.
  pose proof (C5_nearest_bin 8 env_full_run 43 0 ltac:(lia)) as H.
  cbv zeta in *.
  specialize (H ltac:(vm_compute; reflexivity) ltac:(vm_compute; lia)
                ltac:(vm_compute; reflexivity) ltac:(vm_compute; reflexivity)).
  destruct H as (_ & _ & H1 & H2 & H3 & _).
  split; [exact H1|]. split; [exact H2|]. apply H3. lia.
Defined.

(** On narrower displays the scan, which measures from the truncated
    [(int)b->x], can miss the nearest bin: on a 64 x 48 display a fall with
    ten deflections to the right and then four to the left ends near
    x = 45.71; the scan chooses bin 5 (x = 43), and bin 6 (x = 48) is
    strictly nearer. *)
Remark narrow_display_truncation :
  let bd := init_pins 64 6 in
  let b := fst (fst (fall bd (env_right_then_left 10) 100 (init_ball bd Ball.zero) 0)) in
  Ball.active b = false
  /\ snd (bin_scan bd b) = 5
  /\ (true_dist bd b 6 < true_dist bd b 5)%Q.
Proof. vm_compute. repeat split. Qed.
